(** * School-Management-System: the add-school and list-schools handlers

    A shallow embedding of [src/index.js] and
    [src/controllers/schoolController.js]: the validator, the haversine
    distance, and the two request handlers of each entry point, over a
    small model of the JavaScript values they compute with.

    - [JS]: strings (sequences of UTF-16 code units), numbers (IEEE 754
      binary64, from the Standard Library's [SpecFloat]), JSON values,
      the coercions and built-ins the source calls ([typeof], [!],
      [String.prototype.trim], [parseFloat], [isNaN],
      [Number.prototype.toFixed], [Array.prototype.sort], [Math]), and
      what of them is left to the engine.
    - [Http]: the datastore behind [pool], requests, responses and the
      monad the asynchronous handlers run in.
    - [Index], [Controller]: the functions of the two source files.
    - [Series], [Antipodes]: implementations of [Math], and engines,
      to run the model with.
    - [Behaviour]: the responses and the repository calls of a request.
    - [Startup]: [initializeDatabase] and the callback of [app.listen].
    - [Async]: the handlers with their [await]s, and concurrent requests.
    - the theorems. *)

From Stdlib Require Import ZArith NArith List Bool String Ascii Lia.
From Stdlib Require Import DecimalString DecimalN SpecFloat Permutation Sorted.
Import ListNotations.

Set Warnings "-register-all".
Open Scope Z_scope.

(* ================================================================== *)
(** * JavaScript values and built-ins *)
(* ================================================================== *)

Module JS.

(** ** Strings

    A JavaScript string is a sequence of 16-bit code units.  The white
    space that [trim] and [parseFloat] skip has members above 255, so a
    code unit is an [N] and not an [ascii]. *)

Definition jsstring := list N.

(** The code units of an ASCII literal. *)
Definition str (s : string) : jsstring :=
  List.map N_of_ascii (list_ascii_of_string s).

Fixpoint jsstring_eqb (s t : jsstring) : bool :=
  match s, t with
  | [], [] => true
  | a :: s', b :: t' => N.eqb a b && jsstring_eqb s' t'
  | _, _ => false
  end.

(** WhiteSpace and LineTerminator of ECMAScript: TAB, LF, VT, FF, CR, SP,
    NBSP, U+1680, U+2000..U+200A, U+2028, U+2029, U+202F, U+205F, U+3000
    and U+FEFF. *)
Definition isWhiteSpace (c : N) : bool :=
  ((9 <=? c) && (c <=? 13) || (c =? 32) || (c =? 160) || (c =? 5760)
   || (8192 <=? c) && (c <=? 8202) || (c =? 8232) || (c =? 8233)
   || (c =? 8239) || (c =? 8287) || (c =? 12288) || (c =? 65279))%N.

Fixpoint trimStart (s : jsstring) : jsstring :=
  match s with
  | c :: s' => if isWhiteSpace c then trimStart s' else s
  | [] => []
  end.

Definition trimEnd (s : jsstring) : jsstring := rev (trimStart (rev s)).

(** [String.prototype.trim] *)
Definition trim (s : jsstring) : jsstring := trimEnd (trimStart s).

(** [s] starts with [p]: the rest of [s] after [p]. *)
Fixpoint strip_prefix (p s : jsstring) : option jsstring :=
  match p, s with
  | [], _ => Some s
  | a :: p', b :: s' => if N.eqb a b then strip_prefix p' s' else None
  | _ :: _, [] => None
  end.

(** ** Numbers

    A Number is an IEEE 754 binary64 value: [SpecFloat]'s [spec_float]
    at precision 53 and maximal exponent 1024, with round to nearest,
    ties to even. *)

Definition number := spec_float.
Definition prec : Z := 53.
Definition emax : Z := 1024.

Definition NaN : number := S754_nan.

(** The Number of an integer literal of the source. *)
Definition num (z : Z) : number := binary_normalize prec emax z 0 false.

Declare Scope js_scope.
Delimit Scope js_scope with js.
Bind Scope js_scope with number.
Infix "+" := (SFadd prec emax) : js_scope.
Infix "-" := (SFsub prec emax) : js_scope.
Infix "*" := (SFmul prec emax) : js_scope.
Infix "/" := (SFdiv prec emax) : js_scope.
Infix "<" := SFltb : js_scope.
Notation "x > y" := (SFltb y x) : js_scope.
Notation "- x" := (SFopp x) : js_scope.

(** The global [isNaN], at a Number. *)
Definition isNaN (x : number) : bool :=
  match x with S754_nan => true | _ => false end.

(** The Number nearest to [m * 10 ^ e10], negated when [neg]: the value
    of a decimal literal with digits [m]. *)
Definition decimal_to_number (neg : bool) (m : Z) (e10 : Z) : number :=
  match m with
  | Zpos p =>
      SFdiv prec emax
        (S754_finite neg (p * Z.to_pos (10 ^ Z.max e10 0)) 0)
        (S754_finite false (Z.to_pos (10 ^ Z.max (- e10) 0)) 0)
  | _ => S754_zero neg
  end.

(** The decimal digits at the start of [s], most significant first, and
    the rest of [s]. *)
Fixpoint span_digits (s : jsstring) : list Z * jsstring :=
  match s with
  | c :: s' =>
      if ((48 <=? c) && (c <=? 57))%N then
        let '(ds, rest) := span_digits s' in (Z.of_N c - 48 :: ds, rest)
      else ([], s)
  | [] => ([], [])
  end.

Definition digits_value (ds : list Z) : Z :=
  fold_left (fun acc d => 10 * acc + d) ds 0.

(** An optional sign: whether it is a minus, and the rest. *)
Definition span_sign (s : jsstring) : bool * jsstring :=
  match s with
  | 43%N :: s' => (false, s')
  | 45%N :: s' => (true, s')
  | _ => (false, s)
  end.

(** The exponent part at the start of [s], if there is a complete one:
    [e] or [E], an optional sign, and at least one digit. *)
Definition exponent_part (s : jsstring) : Z :=
  match s with
  | c :: s' =>
      if ((c =? 101) || (c =? 69))%N then
        let '(neg, s'') := span_sign s' in
        match span_digits s'' with
        | ([], _) => 0
        | (ds, _) => if neg then - digits_value ds else digits_value ds
        end
      else 0
  | [] => 0
  end.

(** [parseFloat] at a String: leading white space is skipped and the
    longest prefix that is a StrDecimalLiteral is read; [NaN] when there
    is none. *)
Definition parseFloat_string (s : jsstring) : number :=
  let '(neg, s1) := span_sign (trimStart s) in
  match strip_prefix (str "Infinity") s1 with
  | Some _ => S754_infinity neg
  | None =>
      let '(ip, s2) := span_digits s1 in
      let '(fp, s3) :=
        match s2 with
        | 46%N :: s2' => span_digits s2'
        | _ => ([], s2)
        end in
      match ip ++ fp with
      | [] => NaN
      | ds =>
          decimal_to_number neg (digits_value ds)
            (exponent_part s3 - Z.of_nat (List.length fp))
      end
  end.

(** ** Values

    The values a JSON body or a parsed query string holds. *)

Inductive value :=
| VUndefined
| VNull
| VBool (b : bool)
| VNumber (x : number)
| VString (s : jsstring)
| VArray (elements : list value)
| VObject (properties : list (jsstring * value)).

(** ** Exceptions *)

Record error := Error { error_name : jsstring; message : jsstring }.

Inductive result (A : Type) :=
| Ok (a : A)
| Throw (e : error).
Arguments Ok {A} a.
Arguments Throw {A} e.

Definition result_bind {A B} (r : result A) (k : A -> result B) : result B :=
  match r with
  | Ok a => k a
  | Throw e => Throw e
  end.

Declare Scope result_scope.
Delimit Scope result_scope with result.
Notation "x <- r ;; k" := (result_bind r (fun x => k))
  (at level 61, r at next level, right associativity) : result_scope.

(** [a || b] over fallible operands: [b] is evaluated only when [a] is
    false. *)
Definition or_else (a b : result bool) : result bool :=
  (x <- a ;; if x then Ok true else b)%result.
Infix "|||" := or_else (at level 50, left associativity) : result_scope.

(** ** Property access and coercions *)

Definition is_nullish (v : value) : bool :=
  match v with
  | VUndefined | VNull => true
  | _ => false
  end.

Fixpoint lookup (key : jsstring) (properties : list (jsstring * value)) : value :=
  match properties with
  | (k, v) :: rest => if jsstring_eqb k key then v else lookup key rest
  | [] => VUndefined
  end.

(** [v.key], for the keys the source reads ([name], [address],
    [latitude], [longitude]): reading a property of [undefined] or [null]
    throws a TypeError, an object yields its own property, and the other
    values (and the prototypes) have none of these four. *)
Definition Get (v : value) (key : jsstring) : result value :=
  match v with
  | VUndefined =>
      Throw (Error (str "TypeError")
        (str "Cannot read properties of undefined (reading '" ++ key ++ str "')"))
  | VNull =>
      Throw (Error (str "TypeError")
        (str "Cannot read properties of null (reading '" ++ key ++ str "')"))
  | VObject properties => Ok (lookup key properties)
  | _ => Ok VUndefined
  end.

(** ToBoolean: [undefined], [null], [false], [+0], [-0], [NaN] and the
    empty string are falsy. *)
Definition ToBoolean (v : value) : bool :=
  match v with
  | VUndefined | VNull => false
  | VBool b => b
  | VNumber (S754_zero _) | VNumber S754_nan => false
  | VNumber _ => true
  | VString [] => false
  | VString _ => true
  | VArray _ | VObject _ => true
  end.

(** [!v] *)
Definition logical_not (v : value) : bool := negb (ToBoolean v).

Definition typeof (v : value) : jsstring :=
  match v with
  | VUndefined => str "undefined"
  | VNull => str "object"
  | VBool _ => str "boolean"
  | VNumber _ => str "number"
  | VString _ => str "string"
  | VArray _ | VObject _ => str "object"
  end.

(** [v.trim()]: the method exists on strings only. *)
Definition call_trim (v : value) : result jsstring :=
  match v with
  | VString s => Ok (trim s)
  | VUndefined | VNull =>
      Throw (Error (str "TypeError")
        (str "Cannot read properties of undefined (reading 'trim')"))
  | _ => Throw (Error (str "TypeError") (str "trim is not a function"))
  end.

(** The operators of the source at operands that may throw. *)
Definition not_ (r : result value) : result bool :=
  (v <- r ;; Ok (logical_not v))%result.
Definition typeof_ (r : result value) : result jsstring :=
  (v <- r ;; Ok (typeof v))%result.
Definition trim_ (r : result value) : result jsstring :=
  (v <- r ;; call_trim v)%result.
Definition strict_eq (r : result jsstring) (s : jsstring) : result bool :=
  (x <- r ;; Ok (jsstring_eqb x s))%result.
Definition strict_ne (r : result jsstring) (s : jsstring) : result bool :=
  (x <- r ;; Ok (negb (jsstring_eqb x s)))%result.
Infix "===" := strict_eq (at level 45, no associativity) : result_scope.
Infix "!==" := strict_ne (at level 45, no associativity) : result_scope.
Notation "v .[ key ]" := (Get v (str key))
  (at level 1, left associativity, format "v .[ key ]") : result_scope.

(** ** [parseFloat] at any value

    [parseFloat(v)] is [parseFloat] at [ToString(v)], and [ToString]
    throws a TypeError at some objects.

    [ToString] of an object goes through its [toString] and [valueOf]
    methods.  A value parsed from JSON or from a query string holds no
    function; so an object with an own property [toString] has no method
    that returns a primitive ([Object.prototype.valueOf] returns the
    object itself) and [ToString] throws, while any other object prints
    as ["[object Object]"].  An Array prints as its elements joined by
    commas, [undefined] and [null] as the empty string and every other
    element by [ToString] again, which throws when that element's
    does. *)

Fixpoint has_own (key : jsstring) (properties : list (jsstring * value)) : bool :=
  match properties with
  | (k, _) :: rest => jsstring_eqb k key || has_own key rest
  | [] => false
  end.

(** [ToString(v)] throws. *)
Fixpoint ToString_throws (v : value) : bool :=
  match v with
  | VObject properties => has_own (str "toString") properties
  | VArray elements =>
      (fix any (l : list value) : bool :=
         match l with
         | e :: l' => ToString_throws e || any l'
         | [] => false
         end) elements
  | _ => false
  end.

Definition cannot_convert : error :=
  Error (str "TypeError") (str "Cannot convert object to primitive value").

(** The Number that [parseFloat] reads in [ToString(v)], for a [v] that
    [ToString] converts.
    - A Number other than [-0] is read back from its string unchanged
      (ECMAScript, Number::toString: ToNumber(ToString(x)) is x), and
      [-0] prints as ["0"].
    - An Array prints as its elements joined by commas; a comma ends
      every numeric prefix, so the result is that of the first element,
      and [NaN] for the empty array.
    - ["undefined"], ["null"], ["true"], ["false"] and
      ["[object Object]"] have no numeric prefix. *)
Fixpoint parsed (v : value) : number :=
  match v with
  | VString s => parseFloat_string s
  | VNumber (S754_zero _) => S754_zero false
  | VNumber x => x
  | VArray (v0 :: _) => parsed v0
  | _ => NaN
  end.

(** [parseFloat(v)] *)
Definition parseFloat (v : value) : result number :=
  if ToString_throws v then Throw cannot_convert else Ok (parsed v).

(** ** [Number.prototype.toFixed]

    For a finite [x] below [10^21] in magnitude, [x.toFixed(f)] is the
    decimal string of the integer [n] nearest to [x * 10^f] (the larger
    one at a tie) with a point before its last [f] digits; otherwise it
    is [ToString(x)], kept here as [AsToString x]. *)

Inductive fixed :=
| FixedDigits (s : jsstring)
| AsToString (x : number).

Definition decimal_digits (n : Z) : jsstring :=
  str (NilZero.string_of_uint (N.to_uint (Z.to_N n))).

Definition Number_toFixed (x : number) (fractionDigits : nat) : fixed :=
  let f := Z.of_nat fractionDigits in
  let digits (neg : bool) (n : Z) :=
    let m := decimal_digits n in
    let m := repeat 48%N (fractionDigits + 1 - List.length m) ++ m in
    let k := List.length m in
    let m :=
      match fractionDigits with
      | O => m
      | _ => firstn (k - fractionDigits) m ++ 46%N :: skipn (k - fractionDigits) m
      end in
    FixedDigits (if neg then 45%N :: m else m) in
  match x with
  | S754_zero _ => digits false 0
  | S754_finite s m e =>
      if (10 ^ 21 * 2 ^ Z.max (- e) 0 <=? Zpos m * 2 ^ Z.max e 0) then AsToString x
      else
        digits s ((2 * Zpos m * 10 ^ f * 2 ^ Z.max e 0 + 2 ^ Z.max (- e) 0)
                  / (2 * 2 ^ Z.max (- e) 0))
  | _ => AsToString x
  end.

Definition parseFloat_ (r : result value) : result number :=
  (v <- r ;; parseFloat v)%result.
Definition isNaN_ (r : result number) : result bool :=
  (x <- r ;; Ok (isNaN x))%result.

(** [parseFloat(x.toFixed(f))]: [toFixed] returns a string. *)
Definition parseFloat_fixed (r : fixed) : number :=
  match r with
  | FixedDigits s => parseFloat_string s
  | AsToString x => parsed (VNumber x)
  end.

(** ** [Math]

    [Math.sin], [Math.cos] and [Math.atan2] are implementation-approximated
    in ECMAScript, so the model takes them as an interface; [Math.sqrt]
    is the correctly rounded square root and [Math.PI] is the Number
    nearest to pi. *)

Class Math := {
  Math_sin : number -> number;
  Math_cos : number -> number;
  Math_atan2 : number -> number -> number
}.

Definition Math_sqrt (x : number) : number := SFsqrt prec emax x.
Definition Math_PI : number := S754_finite false 7074237752028440 (-51).

(** ** [Array.prototype.sort]

    The sort calls [comparefn] through SortCompare, which takes a result
    that is [NaN] for [+0].  Where SortCompare is a consistent comparator
    for the elements (its [=] is an equivalence, and its [<] and its [>]
    are transitive), the sort order is fixed by ECMAScript: [x] comes
    before [y] when [comparefn(x, y) < 0], and elements that compare
    equal keep their order (the sort is stable); it is the order in
    which insertion leaves the elements.  Where it is not, the sort
    order is implementation-defined: the elements are kept, in the order
    the engine gives them. *)

Section Sort.
Context {A : Type}.
Variable comparefn : A -> A -> number.

(** [x <CF y], [x >CF y] and [x =CF y] *)
Definition precedes (x y : A) : bool := (comparefn x y < num 0)%js.
Definition follows (x y : A) : bool := (comparefn x y > num 0)%js.
Definition ties (x y : A) : bool := negb (precedes x y) && negb (follows x y).

Definition consistent_at (a b c : A) : bool :=
  ties a a
  && implb (ties a b) (ties b a)
  && implb (ties a b && ties b c) (ties a c)
  && implb (precedes a b && precedes b c) (precedes a c)
  && implb (follows a b && follows b c) (follows a c).

(** SortCompare is a consistent comparator for the elements of [l]. *)
Definition consistent (l : list A) : bool :=
  forallb (fun a => forallb (fun b => forallb (consistent_at a b) l) l) l.

Fixpoint sort_insert (a : A) (sorted : list A) : list A :=
  match sorted with
  | b :: rest =>
      if (comparefn a b > num 0)%js then b :: sort_insert a rest
      else a :: sorted
  | [] => [a]
  end.

(** The elements in the sort order of a consistent comparator. *)
Fixpoint stable_sort (l : list A) : list A :=
  match l with
  | a :: rest => sort_insert a (stable_sort rest)
  | [] => []
  end.

End Sort.

(** ** The engine

    What ECMAScript leaves to the implementation, of what the source
    calls: [Math], and the sort order for a comparator that is not
    consistent. *)

Class Engine := {
  engine_Math :: Math;
  sort_order : forall A : Type, (A -> A -> number) -> list A -> list A;
  sort_order_keeps :
    forall (A : Type) (comparefn : A -> A -> number) (l : list A),
      Permutation l (sort_order A comparefn l)
}.

Definition Array_sort {engine : Engine} {A : Type}
    (comparefn : A -> A -> number) (l : list A) : list A :=
  if consistent comparefn l then stable_sort comparefn l
  else sort_order A comparefn l.

End JS.

(* ================================================================== *)
(** * The datastore and the HTTP transport *)
(* ================================================================== *)

Module Http.
Import JS.

(** A row of the table [schools]. *)
Record school := {
  id : Z;
  name : jsstring;
  address : jsstring;
  latitude : number;
  longitude : number
}.

(** [{ ...school, distance }] *)
Record school_with_distance := {
  school_of : school;
  distance : number
}.

(** The row as the object the driver returns for it. *)
Definition row_object (s : school) : value :=
  VObject [ (str "id", VNumber (num (id s)));
            (str "name", VString (name s));
            (str "address", VString (address s));
            (str "latitude", VNumber (latitude s));
            (str "longitude", VNumber (longitude s)) ].

(** What the handlers ask of the repository. *)
Inductive db_event :=
| GetConnection
| Insert (name address : jsstring) (latitude longitude : number)
| SelectAll
| Release.

(** The table, its AUTO_INCREMENT counter, and the repository calls made
    so far (oldest first). *)
Record world := {
  schools : list school;
  AUTO_INCREMENT : Z;
  log : list db_event
}.

(** What a request cannot control: [process.env.NODE_ENV], and whether
    [pool.getConnection()] or [connection.query()] reject, and with which
    error. *)
Record environment := {
  NODE_ENV : option jsstring;
  getConnection_rejects : option error;
  query_rejects : option error
}.

Record request := {
  body : value;
  query : value
}.

(** The JSON bodies the handlers send.  A property whose value is
    [undefined] is left out by [JSON.stringify], so an absent [error] and
    [error: undefined] are the same [None]. *)
Inductive json :=
| Errors (success : bool) (errors : list jsstring)
| Created (success : bool) (message : jsstring) (schoolId : Z)
| Message (success : bool) (message : jsstring) (error : option jsstring)
| Listing (success : bool) (count : nat) (schools : list school_with_distance).

Record response := {
  status : Z;
  sent : json
}.

(** ** The handlers' monad: environment, state and exceptions *)

Definition M (A : Type) : Type := environment -> world -> result A * world.

Definition ret {A} (a : A) : M A := fun _ w => (Ok a, w).

Definition bind {A B} (m : M A) (k : A -> M B) : M B :=
  fun env w =>
    match m env w with
    | (Ok a, w') => k a env w'
    | (Throw e, w') => (Throw e, w')
    end.

Definition lift {A} (r : result A) : M A := fun _ w => (r, w).

(** [try { block } catch (error) { handler }] *)
Definition try_catch {A} (block : M A) (handler : error -> M A) : M A :=
  fun env w =>
    match block env w with
    | (Ok a, w') => (Ok a, w')
    | (Throw e, w') => handler e env w'
    end.

Declare Scope M_scope.
Delimit Scope M_scope with M.
Bind Scope M_scope with M.
Notation "x <- m ;; k" := (bind m (fun x => k))
  (at level 61, m at next level, right associativity) : M_scope.
Notation "m ;; k" := (bind m (fun _ => k))
  (at level 61, right associativity) : M_scope.

Definition record (ev : db_event) (w : world) : world :=
  {| schools := schools w; AUTO_INCREMENT := AUTO_INCREMENT w;
     log := log w ++ [ev] |}.

(** [process.env.NODE_ENV === "development"] *)
Definition NODE_ENV_is_development : M bool :=
  fun env w =>
    (Ok match NODE_ENV env with
        | Some s => jsstring_eqb s (str "development")
        | None => false
        end, w).

(** [await pool.getConnection()] *)
Definition pool_getConnection : M unit :=
  fun env w =>
    match getConnection_rejects env with
    | Some e => (Throw e, record GetConnection w)
    | None => (Ok tt, record GetConnection w)
    end.

(** [await connection.query("INSERT INTO schools (name, address,
    latitude, longitude) VALUES (?, ?, ?, ?)", [...])]: the new row gets
    the counter's value as its [id], which is the result's [insertId].
    The row holds the values the handler passes; what MySQL makes of
    them in columns declared [FLOAT] and [VARCHAR(255)] is outside the
    source, and is not modelled. *)
Definition connection_query_INSERT
    (name address : jsstring) (latitude longitude : number) : M Z :=
  fun env w =>
    let w := record (Insert name address latitude longitude) w in
    match query_rejects env with
    | Some e => (Throw e, w)
    | None =>
        let insertId := AUTO_INCREMENT w in
        (Ok insertId,
         {| schools := schools w ++
              [ {| id := insertId; name := name; address := address;
                   latitude := latitude; longitude := longitude |} ];
            AUTO_INCREMENT := insertId + 1;
            log := log w |})
    end.

(** [await connection.query("SELECT * FROM schools")] *)
Definition connection_query_SELECT : M (list school) :=
  fun env w =>
    let w := record SelectAll w in
    match query_rejects env with
    | Some e => (Throw e, w)
    | None => (Ok (schools w), w)
    end.

(** [connection.release()] *)
Definition connection_release : M unit :=
  fun env w => (Ok tt, record Release w).

End Http.

(* ================================================================== *)
(** * [src/index.js] *)
(* ================================================================== *)

Module Index.
Import JS Http.

Section Distance.
Context {math : Math}.

(** Calculate distance between two points using Haversine formula *)
Definition calculateDistance (lat1 lon1 lat2 lon2 : number) : number :=
  (let R := num 6371 in (* Radius of the Earth in km *)
   let dLat := ((lat2 - lat1) * Math_PI) / num 180 in
   let dLon := ((lon2 - lon1) * Math_PI) / num 180 in
   let a :=
     Math_sin (dLat / num 2) * Math_sin (dLat / num 2) +
     Math_cos ((lat1 * Math_PI) / num 180) *
       Math_cos ((lat2 * Math_PI) / num 180) *
       Math_sin (dLon / num 2) *
       Math_sin (dLon / num 2) in
   let c := num 2 * Math_atan2 (Math_sqrt a) (Math_sqrt (num 1 - a)) in
   let distance := R * c in (* Distance in km *)
   distance)%js.

End Distance.

(** Input validation function *)
Definition validateSchoolInput (data : value) : result (list jsstring) :=
  (let errors := [] in
   c <- (not_ data.["name"]
         ||| typeof_ data.["name"] !== str "string"
         ||| trim_ data.["name"] === str "") ;;
   let errors :=
     if c then errors ++ [str "Name is required and must be a non-empty string"]
     else errors in
   c <- (not_ data.["address"]
         ||| typeof_ data.["address"] !== str "string"
         ||| trim_ data.["address"] === str "") ;;
   let errors :=
     if c then errors ++ [str "Address is required and must be a non-empty string"]
     else errors in
   c <- (not_ data.["latitude"] ||| isNaN_ (parseFloat_ data.["latitude"])) ;;
   errors <-
     (if c then Ok (errors ++ [str "Latitude is required and must be a valid number"])
      else
        lat <- parseFloat_ data.["latitude"] ;;
        if (lat < - num 90)%js || (lat > num 90)%js
        then Ok (errors ++ [str "Latitude must be between -90 and 90"])
        else Ok errors) ;;
   c <- (not_ data.["longitude"] ||| isNaN_ (parseFloat_ data.["longitude"])) ;;
   errors <-
     (if c then Ok (errors ++ [str "Longitude is required and must be a valid number"])
      else
        lon <- parseFloat_ data.["longitude"] ;;
        if (lon < - num 180)%js || (lon > num 180)%js
        then Ok (errors ++ [str "Longitude must be between -180 and 180"])
        else Ok errors) ;;
   Ok errors)%result.

(** Add School API: the [try] block of [app.post("/addSchool", ...)] *)
Definition addSchool_try (req : request) : M response :=
  (let schoolData := body req in
   (* Validate input *)
   validationErrors <- lift (validateSchoolInput schoolData) ;;
   if (0 <? List.length validationErrors)%nat then
     ret {| status := 400; sent := Errors false validationErrors |}
   else
     (* Insert school into database *)
     pool_getConnection ;;
     name <- lift (trim_ schoolData.["name"])%result ;;
     address <- lift (trim_ schoolData.["address"])%result ;;
     latitude <- lift (parseFloat_ schoolData.["latitude"])%result ;;
     longitude <- lift (parseFloat_ schoolData.["longitude"])%result ;;
     insertId <- connection_query_INSERT name address latitude longitude ;;
     connection_release ;;
     ret {| status := 201;
            sent := Created true (str "School added successfully") insertId |})%M.

(** The response of both [catch] blocks. *)
Definition internal_server_error (error : error) : M response :=
  (development <- NODE_ENV_is_development ;;
   ret {| status := 500;
          sent := Message false (str "Internal server error")
                    (if development then Some (message error) else None) |})%M.

Definition addSchool (req : request) : M response :=
  try_catch (addSchool_try req) internal_server_error.

Section Listing.
Context {engine : Engine}.

(** List Schools API: the [try] block of [app.get("/listSchools", ...)] *)
Definition listSchools_try (req : request) : M response :=
  ((* Get user location *)
   userLat <- lift (parseFloat_ (query req).["latitude"])%result ;;
   userLon <- lift (parseFloat_ (query req).["longitude"])%result ;;
   (* Validate location input *)
   if isNaN userLat
      || isNaN userLon
      || (userLat < - num 90)%js
      || (userLat > num 90)%js
      || (userLon < - num 180)%js
      || (userLon > num 180)%js
   then
     ret {| status := 400;
            sent := Message false (str "Invalid latitude or longitude provided") None |}
   else
     (* Get all schools *)
     pool_getConnection ;;
     schools <- connection_query_SELECT ;;
     connection_release ;;
     (* Calculate distance for each school and sort *)
     let schoolsWithDistance :=
       List.map (fun school =>
         let distance :=
           calculateDistance userLat userLon (latitude school) (longitude school) in
         {| school_of := school;
            (* Distance in km, rounded to 2 decimal places *)
            distance := parseFloat_fixed (Number_toFixed distance 2) |}) schools in
     (* Sort by distance *)
     let schoolsWithDistance :=
       Array_sort (fun a b => (distance a - distance b)%js) schoolsWithDistance in
     ret {| status := 200;
            sent := Listing true (List.length schoolsWithDistance) schoolsWithDistance |})%M.

Definition listSchools (req : request) : M response :=
  try_catch (listSchools_try req) internal_server_error.

End Listing.

End Index.

(* ================================================================== *)
(** * [src/controllers/schoolController.js] *)
(* ================================================================== *)

Module Controller.
Import JS Http.

Section Distance.
Context {math : Math}.

(** Haversine formula to calculate distance *)
Definition calculateDistance (lat1 lon1 lat2 lon2 : number) : number :=
  (let R := num 6371 in (* Radius of the Earth in km *)
   let dLat := ((lat2 - lat1) * Math_PI) / num 180 in
   let dLon := ((lon2 - lon1) * Math_PI) / num 180 in
   let a :=
     Math_sin (dLat / num 2) * Math_sin (dLat / num 2) +
     Math_cos ((lat1 * Math_PI) / num 180) *
       Math_cos ((lat2 * Math_PI) / num 180) *
       Math_sin (dLon / num 2) *
       Math_sin (dLon / num 2) in
   let c := num 2 * Math_atan2 (Math_sqrt a) (Math_sqrt (num 1 - a)) in
   R * c)%js. (* Distance in km *)

End Distance.

(** Validate school input *)
Definition validateSchoolInput (data : value) : result (list jsstring) :=
  (let errors := [] in
   c <- (not_ data.["name"]
         ||| typeof_ data.["name"] !== str "string"
         ||| trim_ data.["name"] === str "") ;;
   let errors :=
     if c then errors ++ [str "Name is required and must be a non-empty string"]
     else errors in
   c <- (not_ data.["address"]
         ||| typeof_ data.["address"] !== str "string"
         ||| trim_ data.["address"] === str "") ;;
   let errors :=
     if c then errors ++ [str "Address is required and must be a non-empty string"]
     else errors in
   c <- (not_ data.["latitude"] ||| isNaN_ (parseFloat_ data.["latitude"])) ;;
   errors <-
     (if c then Ok (errors ++ [str "Latitude is required and must be a valid number"])
      else
        lat <- parseFloat_ data.["latitude"] ;;
        if (lat < - num 90)%js || (lat > num 90)%js
        then Ok (errors ++ [str "Latitude must be between -90 and 90"])
        else Ok errors) ;;
   c <- (not_ data.["longitude"] ||| isNaN_ (parseFloat_ data.["longitude"])) ;;
   errors <-
     (if c then Ok (errors ++ [str "Longitude is required and must be a valid number"])
      else
        lon <- parseFloat_ data.["longitude"] ;;
        if (lon < - num 180)%js || (lon > num 180)%js
        then Ok (errors ++ [str "Longitude must be between -180 and 180"])
        else Ok errors) ;;
   Ok errors)%result.

(** Add a school: the [try] block of [exports.addSchool] *)
Definition addSchool_try (req : request) : M response :=
  (let schoolData := body req in
   (* Validate input *)
   validationErrors <- lift (validateSchoolInput schoolData) ;;
   if (0 <? List.length validationErrors)%nat then
     ret {| status := 400; sent := Errors false validationErrors |}
   else
     (* Insert school into database *)
     pool_getConnection ;;
     name <- lift (trim_ schoolData.["name"])%result ;;
     address <- lift (trim_ schoolData.["address"])%result ;;
     latitude <- lift (parseFloat_ schoolData.["latitude"])%result ;;
     longitude <- lift (parseFloat_ schoolData.["longitude"])%result ;;
     insertId <- connection_query_INSERT name address latitude longitude ;;
     connection_release ;;
     ret {| status := 201;
            sent := Created true (str "School added successfully") insertId |})%M.

(** The response of both [catch] blocks: no [error] property. *)
Definition internal_server_error (error : error) : M response :=
  ret {| status := 500;
         sent := Message false (str "Internal server error") None |}.

Definition addSchool (req : request) : M response :=
  try_catch (addSchool_try req) internal_server_error.

Section Listing.
Context {engine : Engine}.

(** List all schools sorted by distance: the [try] block of
    [exports.listSchools] *)
Definition listSchools_try (req : request) : M response :=
  (userLat <- lift (parseFloat_ (query req).["latitude"])%result ;;
   userLon <- lift (parseFloat_ (query req).["longitude"])%result ;;
   if isNaN userLat
      || isNaN userLon
      || (userLat < - num 90)%js
      || (userLat > num 90)%js
      || (userLon < - num 180)%js
      || (userLon > num 180)%js
   then
     ret {| status := 400;
            sent := Message false (str "Invalid latitude or longitude provided") None |}
   else
     pool_getConnection ;;
     schools <- connection_query_SELECT ;;
     connection_release ;;
     let schoolsWithDistance :=
       List.map (fun school =>
         {| school_of := school;
            distance :=
              parseFloat_fixed
                (Number_toFixed
                   (calculateDistance userLat userLon
                      (latitude school) (longitude school)) 2) |}) schools in
     let schoolsWithDistance :=
       Array_sort (fun a b => (distance a - distance b)%js) schoolsWithDistance in
     ret {| status := 200;
            sent := Listing true (List.length schoolsWithDistance) schoolsWithDistance |})%M.

Definition listSchools (req : request) : M response :=
  try_catch (listSchools_try req) internal_server_error.

End Listing.

End Controller.

(* ================================================================== *)
(** * The validator's rules, field by field *)
(* ================================================================== *)

(** The four rules of the validator as the specification words them: each
    looks at one field of the record and yields its own message or none. *)
Module Rules.
Import JS.

(** The field [key] of a record; [undefined] when the record has none. *)
Definition property (data : value) (key : jsstring) : value :=
  match data with
  | VObject properties => lookup key properties
  | _ => VUndefined
  end.

(** The field must be present, be text, and have non-whitespace content
    after trimming. *)
Definition has_text (v : value) : bool :=
  match v with
  | VString s => negb (jsstring_eqb (trim s) [])
  | _ => false
  end.

Definition text_rule (required : jsstring) (v : value) : list jsstring :=
  if has_text v then [] else [required].

(** The field must be present (a falsy value, zero included, counts as
    missing) and parseable as a number; if parseable, it must lie in
    [[-bound, bound]].  The rule is that of a field [parseFloat] reads:
    at the others the validator throws. *)
Definition coordinate_rule (required out_of_range : jsstring) (bound : Z)
    (v : value) : list jsstring :=
  if logical_not v || isNaN (parsed v) then [required]
  else if (parsed v < - num bound)%js || (parsed v > num bound)%js
       then [out_of_range]
       else [].

Definition name_rule : value -> list jsstring :=
  text_rule (str "Name is required and must be a non-empty string").
Definition address_rule : value -> list jsstring :=
  text_rule (str "Address is required and must be a non-empty string").
Definition latitude_rule : value -> list jsstring :=
  coordinate_rule (str "Latitude is required and must be a valid number")
    (str "Latitude must be between -90 and 90") 90.
Definition longitude_rule : value -> list jsstring :=
  coordinate_rule (str "Longitude is required and must be a valid number")
    (str "Longitude must be between -180 and 180") 180.

Definition validate (data : value) : list jsstring :=
  name_rule (property data (str "name"))
  ++ address_rule (property data (str "address"))
  ++ latitude_rule (property data (str "latitude"))
  ++ longitude_rule (property data (str "longitude")).


End Rules.

(* ================================================================== *)
(** * Properties the theorems speak of *)
(* ================================================================== *)

Module Props.
Import JS Http.

(** ** Numbers *)

(** [x] is a binary64 value in [SpecFloat]'s canonical form. *)
Definition is_double (x : number) : bool := valid_binary prec emax x.

(** [x] is neither [NaN] nor infinite. *)
Definition is_finite (x : number) : bool :=
  match x with
  | S754_zero _ | S754_finite _ _ _ => true
  | _ => false
  end.

(** [-bound <= x <= bound] *)
Definition within (bound : Z) (x : number) : bool :=
  SFleb (- num bound)%js x && SFleb x (num bound).

(** The query point of a request as both list-schools handlers read it:
    [parseFloat(req.query.latitude)], then
    [parseFloat(req.query.longitude)]. *)
Definition query_point (req : request) : result (number * number) :=
  (userLat <- parseFloat_ (Get (query req) (str "latitude")) ;;
   userLon <- parseFloat_ (Get (query req) (str "longitude")) ;;
   Ok (userLat, userLon))%result.

(** The read path's rule fails: a coordinate is missing or not numeric
    ([parseFloat] yields [NaN] for it), or out of range. *)
Definition invalid_location (userLat userLon : number) : bool :=
  isNaN userLat || isNaN userLon
  || negb (within 90 userLat) || negb (within 180 userLon).

Definition is_zero (x : number) : bool :=
  match x with
  | S754_zero _ => true
  | _ => false
  end.

(** [x] is a well-formed double other than [NaN]: a value the
    comparisons order. *)
Definition comparable (x : number) : bool := is_double x && negb (isNaN x).

(** The value is the Number [+0] or [-0]. *)
Definition is_zero_number (v : value) : bool :=
  match v with
  | VNumber x => is_zero x
  | _ => false
  end.

(** [x] is positive or negative with the sign [s]: finite and not zero,
    or infinite. *)
Definition signed (s : bool) (x : number) : Prop :=
  (exists m e, x = S754_finite s m e) \/ x = S754_infinity s.

(** The value of a double in units of [2^-1074], the infinities beyond
    every finite one: comparing doubles is comparing these integers. *)
Definition scaled (x : number) : Z :=
  match x with
  | S754_zero _ | S754_nan => 0
  | S754_infinity s => cond_Zopp s (2 ^ 2100)
  | S754_finite s m e => cond_Zopp s (Z.pos m * 2 ^ (e + 1074))
  end.

(** ** Strings *)

(** A string that does not start with white space. *)
Definition starts_clean (s : jsstring) : Prop :=
  match s with
  | c :: _ => isWhiteSpace c = false
  | [] => True
  end.

(** ** [Math]

    What the distance theorems ask of an implementation of [Math]:
    [Math.sin] is odd, and [sin(+0)] and [atan2(+0, 1)] are [+0] (the
    latter two are required by ECMAScript). *)
Definition sin_is_odd (math : Math) : Prop :=
  forall x : number, Math_sin (- x)%js = (- Math_sin x)%js.

Definition exact_at_zero (math : Math) : Prop :=
  Math_sin (S754_zero false) = S754_zero false
  /\ Math_atan2 (S754_zero false) (num 1) = S754_zero false.

(** The square of the cosine of a latitude given in degrees, as
    [calculateDistance] computes it when both points have that latitude. *)
Definition cosine_squared {math : Math} (lat : number) : number :=
  (Math_cos ((lat * Math_PI) / num 180) * Math_cos ((lat * Math_PI) / num 180))%js.

(** ** Schools *)

(** The four field constraints of a School. *)
Definition satisfies_constraints (s : school) : Prop :=
  name s <> [] /\ trim (name s) = name s
  /\ address s <> [] /\ trim (address s) = address s
  /\ within 90 (latitude s) = true
  /\ within 180 (longitude s) = true.

(** The row add-school writes for a record whose name is [n] and whose
    address is [a]. *)
Definition new_row (w : world) (data : value) (n a : jsstring) : school :=
  {| id := AUTO_INCREMENT w;
     name := trim n;
     address := trim a;
     latitude := parsed (Rules.property data (str "latitude"));
     longitude := parsed (Rules.property data (str "longitude")) |}.

Definition insert_of (r : school) : db_event :=
  Insert (name r) (address r) (latitude r) (longitude r).

(** What the validator says of a persisted row: nothing, unless a
    coordinate is zero. *)
Definition zero_errors (s : school) : list jsstring :=
  (if is_zero (latitude s)
   then [str "Latitude is required and must be a valid number"] else [])
  ++ (if is_zero (longitude s)
      then [str "Longitude is required and must be a valid number"] else []).

(** The record list-schools returns for a row. *)
Definition annotate {math : Math} (userLat userLon : number) (s : school)
  : school_with_distance :=
  {| school_of := s;
     distance :=
       parseFloat_fixed
         (Number_toFixed
            (Index.calculateDistance userLat userLon (latitude s) (longitude s))
            2) |}.

(** The comparator of both [sort] calls. *)
Definition by_distance (a b : school_with_distance) : number :=
  (distance a - distance b)%js.



(** What list-schools sends for the table of [w]. *)
Definition sorted_listing {engine : Engine} (userLat userLon : number) (w : world)
  : list school_with_distance :=
  Array_sort by_distance (List.map (annotate userLat userLon) (schools w)).

(** ** Reachable states of the datastore

    The table is created empty at startup and changes only through the
    handlers, under any environment. *)
Definition initial : world :=
  {| schools := []; AUTO_INCREMENT := 1; log := [] |}.

Inductive reachable : world -> Prop :=
| reachable_initial : reachable initial
| reachable_Index_addSchool req env w :
    reachable w -> reachable (snd (Index.addSchool req env w))
| reachable_Index_listSchools (engine : Engine) req env w :
    reachable w -> reachable (snd (Index.listSchools req env w))
| reachable_Controller_addSchool req env w :
    reachable w -> reachable (snd (Controller.addSchool req env w))
| reachable_Controller_listSchools (engine : Engine) req env w :
    reachable w -> reachable (snd (Controller.listSchools req env w)).

(** A [catch] block that leaves the table alone. *)
Definition keeps_schools (handler : error -> M response) : Prop :=
  forall e env w, schools (snd (handler e env w)) = schools w.

(** The environment in which the repository answers. *)
Definition repository_up (env : environment) : Prop :=
  getConnection_rejects env = None /\ query_rejects env = None.

End Props.

(* ================================================================== *)
(** * A series implementation of [Math], to run the model *)
(* ================================================================== *)

Module Series.
Import JS.

Definition sin (x : number) : number :=
  (let t := x * x in
   x * (num 1 - t / num 6 * (num 1 - t / num 20 * (num 1 - t / num 42 *
         (num 1 - t / num 72 * (num 1 - t / num 110))))))%js.

Definition cos (x : number) : number :=
  (let t := x * x in
   num 1 - t / num 2 * (num 1 - t / num 12 * (num 1 - t / num 30 *
     (num 1 - t / num 56 * (num 1 - t / num 90 * (num 1 - t / num 132))))))%js.

(** [atan] at [z >= 0] through two halvings of the angle. *)
Definition atan (z : number) : number :=
  (let half z := z / (num 1 + Math_sqrt (num 1 + z * z)) in
   let u := half (half z) in
   let t := u * u in
   num 4 * (u * (num 1 - t * (num 1 / num 3 - t * (num 1 / num 5 - t *
              (num 1 / num 7 - t * (num 1 / num 9 - t / num 11)))))))%js.

(** [NaN] when an argument is, as ECMAScript requires. *)
Definition atan2 (y x : number) : number :=
  (if isNaN y || isNaN x then NaN
   else if x > num 0 then
     if y < num 0 then - atan (- y / x) else atan (y / x)
   else if x < num 0 then
     if y < num 0 then atan (y / x) - Math_PI else Math_PI - atan (- y / x)
   else if y > num 0 then Math_PI / num 2
   else if y < num 0 then - (Math_PI / num 2)
   else y)%js.

Definition math : Math :=
  {| Math_sin := sin; Math_cos := cos; Math_atan2 := atan2 |}.

(** An engine that leaves the elements where they are when the
    comparator is not consistent. *)
Definition engine : Engine :=
  {| engine_Math := math;
     sort_order := fun _ _ l => l;
     sort_order_keeps := fun _ _ l => Permutation_refl l |}.

End Series.

(* ================================================================== *)
(** * The sines and cosines between two antipodal points *)
(* ================================================================== *)

(** An implementation of [Math] for the points (8, 10) and (-8, -170),
    in degrees.  At the arguments [calculateDistance] passes between
    them, [sin] and [cos] return the Number nearest to the sine and to
    the cosine; elsewhere, and for [atan2], it is that of [Series]. *)
Module Antipodes.
Import JS.

(** [(degrees * Math.PI) / 180] *)
Definition radians (degrees : Z) : number :=
  ((num degrees * Math_PI) / num 180)%js.

(** [Math.sin(0.13962634015954636)] is 0.13917310096006544. *)
Definition sin_8 : number := S754_finite false 5014239404989977 (-55).

(** [Math.cos(0.13962634015954636)] is 0.9902680687415704. *)
Definition cos_8 : number := S754_finite false 8919541810762874 (-53).

(** A quarter turn, 1.5707963267948966: the sine of the nearest
    Number to [pi / 2] rounds to 1. *)
Definition quarter_turn : number := (radians 180 / num 2)%js.

Definition sin (x : number) : number :=
  if SFeqb x (radians 8) then sin_8
  else if SFeqb x (- radians 8)%js then (- sin_8)%js
  else if SFeqb x quarter_turn then num 1
  else if SFeqb x (- quarter_turn)%js then (- num 1)%js
  else Series.sin x.

Definition cos (x : number) : number :=
  if SFeqb x (radians 8) || SFeqb x (- radians 8)%js then cos_8
  else Series.cos x.

Definition math : Math :=
  {| Math_sin := sin; Math_cos := cos; Math_atan2 := Series.atan2 |}.

Definition engine : Engine :=
  {| engine_Math := math;
     sort_order := fun _ _ l => l;
     sort_order_keeps := fun _ _ l => Permutation_refl l |}.

End Antipodes.

(* ================================================================== *)
(** * The four handlers, by name *)
(* ================================================================== *)

Module Handlers.
Import JS Http.

Inductive handler :=
| Index_addSchool
| Index_listSchools
| Controller_addSchool
| Controller_listSchools.

(** The [try] block of a handler. *)
Definition try_block {engine : Engine} (h : handler) : request -> M response :=
  match h with
  | Index_addSchool => Index.addSchool_try
  | Index_listSchools => Index.listSchools_try
  | Controller_addSchool => Controller.addSchool_try
  | Controller_listSchools => Controller.listSchools_try
  end.

(** The handler itself. *)
Definition run {engine : Engine} (h : handler) : request -> M response :=
  match h with
  | Index_addSchool => Index.addSchool
  | Index_listSchools => Index.listSchools
  | Controller_addSchool => Controller.addSchool
  | Controller_listSchools => Controller.listSchools
  end.

Definition of_index (h : handler) : bool :=
  match h with
  | Index_addSchool | Index_listSchools => true
  | _ => false
  end.

End Handlers.

(* ================================================================== *)
(** * Requests, environments and tables to run the handlers on *)
(* ================================================================== *)

Module Examples.
Import JS Http Props.

Definition production : environment :=
  {| NODE_ENV := Some (str "production");
     getConnection_rejects := None;
     query_rejects := None |}.

Definition ECONNREFUSED : error :=
  Error (str "Error") (str "connect ECONNREFUSED 127.0.0.1:3306").

Definition development_database_down : environment :=
  {| NODE_ENV := Some (str "development");
     getConnection_rejects := Some ECONNREFUSED;
     query_rejects := None |}.

Definition school_record (name address latitude longitude : value) : value :=
  VObject [ (str "name", name); (str "address", address);
            (str "latitude", latitude); (str "longitude", longitude) ].

(** [POST /addSchool] with the body [data] *)
Definition post (data : value) : request :=
  {| body := data; query := VObject [] |}.

(** [GET /listSchools?latitude=..&longitude=..] *)
Definition get (latitude longitude : string) : request :=
  {| body := VObject [];
     query := VObject [ (str "latitude", VString (str latitude));
                        (str "longitude", VString (str longitude)) ] |}.

(** [GET /listSchools] with the query parameters [latitude] and
    [longitude] as the query parser gives them. *)
Definition get_values (latitude longitude : value) : request :=
  {| body := VObject [];
     query := VObject [ (str "latitude", latitude); (str "longitude", longitude) ] |}.

(** [{"toString": 1}], and what [latitude[toString]=1] is parsed to: an
    object that [ToString] cannot convert. *)
Definition unconvertible : value := VObject [ (str "toString", VNumber (num 1)) ].
Definition unconvertible_parameter : value :=
  VObject [ (str "toString", VString (str "1")) ].

(** [{"name": " Equator School ", "address": "Null Island",
      "latitude": "0", "longitude": "0"}] *)
Definition equator_school : value :=
  school_record (VString (str " Equator School ")) (VString (str "Null Island"))
    (VString (str "0")) (VString (str "0")).

(** [{"name": "Delhi Public School", "address": "Mathura Road",
      "latitude": 28.6139, "longitude": "77.2090"}] *)
Definition delhi_school : value :=
  school_record (VString (str "Delhi Public School")) (VString (str "Mathura Road"))
    (VNumber (parseFloat_string (str "28.6139"))) (VString (str "77.2090")).

(** [{"name": "", "latitude": 0, "longitude": 200}] *)
Definition bad_school : value :=
  VObject [ (str "name", VString []); (str "latitude", VNumber (num 0));
            (str "longitude", VNumber (num 200)) ].

Definition school_at (id : Z) (name : string) (latitude longitude : string) : school :=
  {| Http.id := id; Http.name := str name; address := str "India";
     Http.latitude := parseFloat_string (str latitude);
     Http.longitude := parseFloat_string (str longitude) |}.

(** Three schools, retrieved in the order Delhi, Mumbai, Bengaluru. *)
Definition three_schools : world :=
  {| schools := [ school_at 1 "Delhi" "28.6139" "77.2090";
                  school_at 2 "Mumbai" "19.0760" "72.8777";
                  school_at 3 "Bengaluru" "12.9716" "77.5946" ];
     AUTO_INCREMENT := 4;
     log := [] |}.




End Examples.

(* ================================================================== *)
(** * The responses and the repository calls of a request *)
(* ================================================================== *)

Module Behaviour.
Import JS Http Rules Props Handlers.

(** The handlers of add-school, of either entry point; the others are
    those of list-schools. *)
Definition adds (h : handler) : bool :=
  match h with
  | Index_addSchool | Controller_addSchool => true
  | _ => false
  end.

(** The [catch] block of a handler. *)
Definition catch_block (h : handler) : error -> M response :=
  if of_index h then Index.internal_server_error
  else Controller.internal_server_error.

(** The handler of [src/controllers/schoolController.js] for the same
    route. *)
Definition counterpart (h : handler) : handler :=
  match h with
  | Index_addSchool => Controller_addSchool
  | Index_listSchools => Controller_listSchools
  | h => h
  end.

(** ** What the validator accepts *)

(** A coordinate that is present (truthy) and that [parseFloat] reads
    as a Number in [[-bound, bound]]. *)
Definition present_within (bound : Z) (v : value) : bool :=
  match parseFloat v with
  | Ok x => ToBoolean v && within bound x
  | Throw _ => false
  end.

(** A record with a name and an address that have text, and a latitude
    and a longitude that are present and in range. *)
Definition acceptable (data : value) : bool :=
  negb (is_nullish data)
  && has_text (property data (str "name"))
  && has_text (property data (str "address"))
  && present_within 90 (property data (str "latitude"))
  && present_within 180 (property data (str "longitude")).

(** The object a handler reads its fields from: the body for add-school,
    the query for list-schools. *)
Definition input_of (h : handler) (req : request) : value :=
  if adds h then body req else query req.

(** ** [Math]

    [Math.cos] is even. *)
Definition cos_is_even (math : Math) : Prop :=
  forall x : number, Math_cos (- x)%js = Math_cos x.

(** The two copies of [calculateDistance]. *)
Definition is_calculateDistance {math : Math}
    (f : number -> number -> number -> number -> number) : Prop :=
  f = Index.calculateDistance \/ f = Controller.calculateDistance.

(** ** Rounding to two decimals

    [d] is [x] rounded to two decimals, as [parseFloat(x.toFixed(2))]
    rounds it.  For a finite [x] of magnitude [m * 2^e] below [10^21]:
    the Number nearest to [n / 100], with the sign of [x], where [n] is
    the integer nearest to [100 * m * 2^e] (the larger one at a tie).
    For a zero: [+0].  Otherwise ([NaN], the infinities, and from
    [10^21] on, where [toFixed] prints as [toString] does): [x]. *)
Definition rounded_to_two_decimals (x d : number) : Prop :=
  match x with
  | S754_zero _ => d = S754_zero false
  | S754_finite s m e =>
      let P := 2 ^ Z.max e 0 in
      let Q := 2 ^ Z.max (- e) 0 in
      if 10 ^ 21 * Q <=? Z.pos m * P then d = x
      else exists n : Z,
             (2 * n - 1) * Q <= 200 * Z.pos m * P < (2 * n + 1) * Q
             /\ d = decimal_to_number s n (-2)
  | _ => d = x
  end.

(** ** Coordinates written with padding

    A plain decimal numeral: an optional sign, digits, and optionally a
    point and digits. *)
Definition is_digit (c : N) : bool := ((48 <=? c) && (c <=? 57))%N.

(** The value of a digit. *)
Definition digit (c : N) : Z := Z.of_N c - 48.

Definition is_plain_decimal (s : jsstring) : bool :=
  let '(ip, s2) := span_digits (snd (span_sign s)) in
  match ip, s2 with
  | [], _ => false
  | _, [] => true
  | _, 46%N :: s3 =>
      match snd (span_digits s3) with
      | [] => true
      | _ => false
      end
  | _, _ => false
  end.

(** Text that cannot continue a numeral: it is empty, or starts with a
    character other than a digit, a point, [e] and [E]. *)
Definition ends_numeral (rest : jsstring) : bool :=
  match rest with
  | [] => true
  | c :: _ => negb (is_digit c || (c =? 46) || (c =? 101) || (c =? 69))%N
  end.

(** [v] is [v'], or the numeral [v'] with white space before it and
    other text after it. *)
Inductive reads_as : value -> value -> Prop :=
| reads_as_itself (v : value) : reads_as v v
| reads_as_numeral (space numeral rest : jsstring) :
    Forall (fun c => isWhiteSpace c = true) space ->
    is_plain_decimal numeral = true ->
    ends_numeral rest = true ->
    reads_as (VString (space ++ numeral ++ rest)) (VString numeral).

(** ** Identifiers *)

(** The identifiers in the table are distinct and below the counter. *)
Definition identifiers_below_counter (w : world) : Prop :=
  NoDup (List.map id (schools w))
  /\ Forall (fun s => 1 <= id s < AUTO_INCREMENT w) (schools w).

(** ** Fields *)

(** The record has no field [key]. *)
Definition absent (data : value) (key : string) : Prop :=
  property data (str key) = VUndefined.

(** The "is required" messages, in the order of the fields. *)
Definition required_messages : list jsstring :=
  [ str "Name is required and must be a non-empty string";
    str "Address is required and must be a non-empty string";
    str "Latitude is required and must be a valid number";
    str "Longitude is required and must be a valid number" ].

(** Two values that are the same coordinate to the handlers: both truthy
    or both falsy, and [parseFloat] reads the same Number in both, or
    throws at both. *)
Definition same_coordinate (v v' : value) : Prop :=
  ToBoolean v = ToBoolean v' /\ parseFloat v = parseFloat v'.

(** ** The responses *)

(** The five responses of the source. *)
Definition created (insertId : Z) : response :=
  {| status := 201;
     sent := Created true (str "School added successfully") insertId |}.

Definition listing (schools : list school_with_distance) : response :=
  {| status := 200; sent := Listing true (List.length schools) schools |}.

Definition rejected_record (errors : list jsstring) : response :=
  {| status := 400; sent := Errors false errors |}.

Definition rejected_location : response :=
  {| status := 400;
     sent := Message false (str "Invalid latitude or longitude provided") None |}.

Definition server_error (detail : option jsstring) : response :=
  {| status := 500;
     sent := Message false (str "Internal server error") detail |}.

(** The query a handler runs: the INSERT of add-school, the SELECT of
    list-schools. *)
Definition query_of (h : handler) (ev : db_event) : Prop :=
  if adds h
  then exists name address latitude longitude,
         ev = Insert name address latitude longitude
  else ev = SelectAll.

(** The outcomes of add-school: the validator throws; it reports errors;
    the pool rejects; the query rejects; the row is written. *)
Inductive add_outcome (req : request) (env : environment) (w : world)
  : response -> world -> Prop :=
| add_throws e detail :
    Index.validateSchoolInput (body req) = Throw e ->
    add_outcome req env w (server_error detail) w
| add_invalid errors :
    Index.validateSchoolInput (body req) = Ok errors -> errors <> [] ->
    add_outcome req env w (rejected_record errors) w
| add_no_connection e detail :
    Index.validateSchoolInput (body req) = Ok [] ->
    getConnection_rejects env = Some e ->
    add_outcome req env w (server_error detail) (record GetConnection w)
| add_query_rejected n a e detail :
    Index.validateSchoolInput (body req) = Ok [] ->
    property (body req) (str "name") = VString n ->
    property (body req) (str "address") = VString a ->
    getConnection_rejects env = None ->
    query_rejects env = Some e ->
    add_outcome req env w (server_error detail)
      (record (insert_of (new_row w (body req) n a)) (record GetConnection w))
| add_created n a :
    Index.validateSchoolInput (body req) = Ok [] ->
    property (body req) (str "name") = VString n ->
    property (body req) (str "address") = VString a ->
    repository_up env ->
    add_outcome req env w (created (AUTO_INCREMENT w))
      {| schools := schools w ++ [new_row w (body req) n a];
         AUTO_INCREMENT := AUTO_INCREMENT w + 1;
         log := log w ++ [GetConnection; insert_of (new_row w (body req) n a);
                          Release] |}.

Section Listing.
Context {engine : Engine}.

(** The outcomes of list-schools: reading the query point throws (the
    query object is missing, or [parseFloat] throws); the location is
    invalid; the pool rejects; the query rejects; the listing is sent. *)
Inductive list_outcome (req : request) (env : environment) (w : world)
  : response -> world -> Prop :=
| list_throws e detail :
    query_point req = Throw e ->
    list_outcome req env w (server_error detail) w
| list_invalid userLat userLon :
    query_point req = Ok (userLat, userLon) ->
    invalid_location userLat userLon = true ->
    list_outcome req env w rejected_location w
| list_no_connection userLat userLon e detail :
    query_point req = Ok (userLat, userLon) ->
    invalid_location userLat userLon = false ->
    getConnection_rejects env = Some e ->
    list_outcome req env w (server_error detail) (record GetConnection w)
| list_query_rejected userLat userLon e detail :
    query_point req = Ok (userLat, userLon) ->
    invalid_location userLat userLon = false ->
    getConnection_rejects env = None ->
    query_rejects env = Some e ->
    list_outcome req env w (server_error detail)
      (record SelectAll (record GetConnection w))
| list_sent userLat userLon :
    query_point req = Ok (userLat, userLon) ->
    invalid_location userLat userLon = false ->
    repository_up env ->
    list_outcome req env w
      (listing (sorted_listing userLat userLon w))
      {| schools := schools w;
         AUTO_INCREMENT := AUTO_INCREMENT w;
         log := log w ++ [GetConnection; SelectAll; Release] |}.

End Listing.

End Behaviour.

(* ================================================================== *)
(** * Start-up: [initializeDatabase] and the callback of [app.listen] *)
(* ================================================================== *)

Module Startup.
Import JS Http.

Inductive console_line :=
| console_log_line (text : jsstring)
| console_error_line (text : jsstring) (error : error).

(** The repository calls of the start-up. *)
Inductive call :=
| getConnection
| CREATE_TABLE_IF_NOT_EXISTS
| release.

(** The process and its database: the rows and the AUTO_INCREMENT counter
    of the table [schools] when the table exists, the repository calls
    made and the lines written to the console (oldest first), and the
    code [process.exit] was called with. *)
Record process := {
  table : option (list school * Z);
  calls : list call;
  console : list console_line;
  exit_code : option Z
}.

(** How a statement ends: normally, by throwing, or with the process
    gone. *)
Inductive completion (A : Type) :=
| Normal (a : A)
| Abrupt (e : error)
| Exit.
Arguments Normal {A} a.
Arguments Abrupt {A} e.
Arguments Exit {A}.

Definition P (A : Type) : Type := environment -> process -> completion A * process.

Definition bind {A B} (m : P A) (k : A -> P B) : P B :=
  fun env p =>
    match m env p with
    | (Normal a, p') => k a env p'
    | (Abrupt e, p') => (Abrupt e, p')
    | (Exit, p') => (Exit, p')
    end.

(** [try { block } catch (error) { handler }] *)
Definition try_catch {A} (block : P A) (handler : error -> P A) : P A :=
  fun env p =>
    match block env p with
    | (Abrupt e, p') => handler e env p'
    | done => done
    end.

Declare Scope P_scope.
Delimit Scope P_scope with P.
Bind Scope P_scope with P.
Notation "m ;; k" := (bind m (fun _ => k))
  (at level 61, right associativity) : P_scope.

Definition called (c : call) (p : process) : process :=
  {| table := table p; calls := calls p ++ [c];
     console := console p; exit_code := exit_code p |}.

Definition written (line : console_line) (p : process) : process :=
  {| table := table p; calls := calls p;
     console := console p ++ [line]; exit_code := exit_code p |}.

(** [await pool.getConnection()] *)
Definition pool_getConnection : P unit :=
  fun env p =>
    match getConnection_rejects env with
    | Some e => (Abrupt e, called getConnection p)
    | None => (Normal tt, called getConnection p)
    end.

(** [await connection.query("CREATE TABLE IF NOT EXISTS schools (id INT
    AUTO_INCREMENT PRIMARY KEY, ...)")]: an existing table is left as it
    is; a new one is empty and its counter starts at 1. *)
Definition connection_query_CREATE_TABLE : P unit :=
  fun env p =>
    let p := called CREATE_TABLE_IF_NOT_EXISTS p in
    match query_rejects env with
    | Some e => (Abrupt e, p)
    | None =>
        (Normal tt,
         {| table := match table p with
                     | Some t => Some t
                     | None => Some ([], 1)
                     end;
            calls := calls p; console := console p; exit_code := exit_code p |})
    end.

(** [connection.release()] *)
Definition connection_release : P unit :=
  fun _ p => (Normal tt, called release p).

Definition console_log (text : jsstring) : P unit :=
  fun _ p => (Normal tt, written (console_log_line text) p).

Definition console_error (text : jsstring) (error : error) : P unit :=
  fun _ p => (Normal tt, written (console_error_line text error) p).

(** [process.exit(code)]: nothing runs after it. *)
Definition process_exit (code : Z) : P unit :=
  fun _ p =>
    (Exit,
     {| table := table p; calls := calls p; console := console p;
        exit_code := Some code |}).

(** Create tables if they don't exist *)
Definition initializeDatabase : P unit :=
  try_catch
    (pool_getConnection ;;
     (* Create schools table *)
     connection_query_CREATE_TABLE ;;
     console_log (str "Database initialized successfully") ;;
     connection_release)%P
    (fun error =>
       console_error (str "Database initialization failed:") error ;;
       process_exit 1)%P.

(** [process.env.PORT || 3000], as the template literal prints it: an
    unset and an empty [PORT] give 3000. *)
Definition port (PORT : option jsstring) : jsstring :=
  match PORT with
  | Some (c :: s) => c :: s
  | _ => str "3000"
  end.

(** Start the server: the callback of [app.listen(port, ...)] *)
Definition listening (PORT : option jsstring) : P unit :=
  (initializeDatabase ;;
   console_log (str "School Management API is running on port " ++ port PORT))%P.

(** The datastore the handlers start from. *)
Definition created_table : list school * Z :=
  (schools Props.initial, AUTO_INCREMENT Props.initial).

End Startup.

(* ================================================================== *)
(** * The handlers as asynchronous functions, and concurrent requests *)
(* ================================================================== *)

(** The handlers are [async] functions: each runs until its next [await]
    and is resumed when the awaited call has settled; between the two,
    other requests run.  Here the handlers are written with their
    [await]s, to be run one request at a time ([perform], which gives
    the handlers of [Index] and [Controller] back) or interleaved
    ([interleave]). *)
Module Async.
Import JS Http Handlers.

(** The repository calls a handler awaits, by the type of their result. *)
Inductive call : Type -> Type :=
| getConnection : call unit
| query_INSERT (name address : jsstring) (latitude longitude : number) : call Z
| query_SELECT : call (list school).

(** An asynchronous computation: it has returned or thrown; or it is at
    an [await], with what it does once the call has settled; or it is at
    [connection.release()]. *)
Inductive async (A : Type) : Type :=
| Settled (r : result A)
| Await {B : Type} (c : call B) (k : result B -> async A)
| Release (k : async A).
Arguments Settled {A} r.
Arguments Await {A B} c k.
Arguments Release {A} k.

Definition ret {A} (a : A) : async A := Settled (Ok a).

Definition lift {A} (r : result A) : async A := Settled r.

Fixpoint bind {A B} (m : async A) (k : A -> async B) : async B :=
  match m with
  | Settled (Ok a) => k a
  | Settled (Throw e) => Settled (Throw e)
  | Await c k' => Await c (fun r => bind (k' r) k)
  | Release k' => Release (bind k' k)
  end.

(** [await c]: the result of the call, or its rejection thrown. *)
Definition await {B} (c : call B) : async B := Await c Settled.

(** [connection.release()] *)
Definition release : async unit := Release (ret tt).

(** [try { block } catch (error) { handler }] *)
Fixpoint try_catch {A} (block : async A) (handler : error -> async A) : async A :=
  match block with
  | Settled (Ok a) => Settled (Ok a)
  | Settled (Throw e) => handler e
  | Await c k => Await c (fun r => try_catch (k r) handler)
  | Release k => Release (try_catch k handler)
  end.

Declare Scope async_scope.
Delimit Scope async_scope with async.
Bind Scope async_scope with async.
Notation "x <- m ;; k" := (bind m (fun x => k))
  (at level 61, m at next level, right associativity) : async_scope.
Notation "m ;; k" := (bind m (fun _ => k))
  (at level 61, right associativity) : async_scope.

(** ** The handlers *)

(** The [try] block of add-school (the same in both files). *)
Definition addSchool_try (req : request) : async response :=
  (let schoolData := body req in
   (* Validate input *)
   validationErrors <- lift (Index.validateSchoolInput schoolData) ;;
   if (0 <? List.length validationErrors)%nat then
     ret {| status := 400; sent := Errors false validationErrors |}
   else
     (* Insert school into database *)
     await getConnection ;;
     name <- lift (trim_ schoolData.["name"])%result ;;
     address <- lift (trim_ schoolData.["address"])%result ;;
     latitude <- lift (parseFloat_ schoolData.["latitude"])%result ;;
     longitude <- lift (parseFloat_ schoolData.["longitude"])%result ;;
     insertId <- await (query_INSERT name address latitude longitude) ;;
     release ;;
     ret {| status := 201;
            sent := Created true (str "School added successfully") insertId |})%async.

Section Listing.
Context {engine : Engine}.

(** The [try] block of list-schools (the same in both files). *)
Definition listSchools_try (req : request) : async response :=
  (userLat <- lift (parseFloat_ (query req).["latitude"])%result ;;
   userLon <- lift (parseFloat_ (query req).["longitude"])%result ;;
   if isNaN userLat
      || isNaN userLon
      || (userLat < - num 90)%js
      || (userLat > num 90)%js
      || (userLon < - num 180)%js
      || (userLon > num 180)%js
   then
     ret {| status := 400;
            sent := Message false (str "Invalid latitude or longitude provided") None |}
   else
     await getConnection ;;
     schools <- await query_SELECT ;;
     release ;;
     let schoolsWithDistance :=
       List.map (fun school =>
         {| school_of := school;
            distance :=
              parseFloat_fixed
                (Number_toFixed
                   (Index.calculateDistance userLat userLon
                      (latitude school) (longitude school)) 2) |}) schools in
     let schoolsWithDistance :=
       Array_sort (fun a b => (distance a - distance b)%js) schoolsWithDistance in
     ret {| status := 200;
            sent := Listing true (List.length schoolsWithDistance) schoolsWithDistance |})%async.

(** The [catch] block: of [src/index.js], with the error's message when
    [NODE_ENV] is ["development"]; of the controller, without. *)
Definition internal_server_error (h : handler) (env : environment) (error : error)
  : async response :=
  let development :=
    match NODE_ENV env with
    | Some s => jsstring_eqb s (str "development")
    | None => false
    end in
  ret {| status := 500;
         sent := Message false (str "Internal server error")
                   (if of_index h && development then Some (message error)
                    else None) |}.

(** A handler, in its environment. *)
Definition handle (h : handler) (req : request) (env : environment) : async response :=
  try_catch
    match h with
    | Index_addSchool | Controller_addSchool => addSchool_try req
    | Index_listSchools | Controller_listSchools => listSchools_try req
    end
    (internal_server_error h env).

End Listing.

(** ** One request at a time *)

(** The entry a call leaves in the log when it is made. *)
Definition issue {B} (c : call B) : db_event :=
  match c with
  | getConnection => GetConnection
  | query_INSERT name address latitude longitude =>
      Insert name address latitude longitude
  | query_SELECT => SelectAll
  end.

(** What the repository does with a call: the pool hands out a connection
    or rejects; the INSERT appends its row under the counter's value; the
    SELECT reads the rows. *)
Definition execute {B} (c : call B) (env : environment) (w : world)
  : result B * world :=
  match c in call B return result B * world with
  | getConnection =>
      (match getConnection_rejects env with
       | Some e => Throw e
       | None => Ok tt
       end, w)
  | query_INSERT name address latitude longitude =>
      match query_rejects env with
      | Some e => (Throw e, w)
      | None =>
          let insertId := AUTO_INCREMENT w in
          (Ok insertId,
           {| schools := schools w ++
                [ {| id := insertId; name := name; address := address;
                     latitude := latitude; longitude := longitude |} ];
              AUTO_INCREMENT := insertId + 1;
              log := log w |})
      end
  | query_SELECT =>
      match query_rejects env with
      | Some e => (Throw e, w)
      | None => (Ok (schools w), w)
      end
  end.

(** The computation run to its end, every call settling at once. *)
Fixpoint perform {A} (m : async A) (env : environment) (w : world)
  : result A * world :=
  match m with
  | Settled r => (r, w)
  | Await c k =>
      let '(r, w') := execute c env (record (issue c) w) in perform (k r) env w'
  | Release k => perform k env (record Http.Release w)
  end.

(** ** Concurrent requests *)

(** A request in flight: at a piece of code to run, or suspended at a
    call that has been made and has not settled, or answered. *)
Inductive state :=
| Ready (m : async response)
| Pending {B : Type} (c : call B) (k : result B -> async response)
| Finished (r : result response).

(** One step of a request: run to the next [await] and make its call
    (or call [release], or send the response); or, the call settling,
    take its result.  The steps are no coarser than what the event loop
    runs in one go, so their interleavings include its own. *)
Definition step (env : environment) (s : state) (w : world) : state * world :=
  match s with
  | Ready (Settled r) => (Finished r, w)
  | Ready (Await c k) => (Pending c k, record (issue c) w)
  | Ready (Release k) => (Ready k, record Http.Release w)
  | Pending c k => let '(r, w') := execute c env w in (Ready (k r), w')
  | Finished r => (Finished r, w)
  end.

(** A request with what it cannot control. *)
Record job := {
  handler_of : handler;
  request_of : request;
  environment_of : environment
}.

Fixpoint update {A} (i : nat) (a : A) (l : list A) : list A :=
  match l, i with
  | [], _ => []
  | _ :: l', O => a :: l'
  | b :: l', S i' => b :: update i' a l'
  end.

(** The request number [i] takes a step. *)
Definition step_at (jobs : list job) (i : nat) (cfg : list state * world)
  : list state * world :=
  match nth_error jobs i, nth_error (fst cfg) i with
  | Some t, Some s =>
      let '(s', w') := step (environment_of t) s (snd cfg) in
      (update i s' (fst cfg), w')
  | _, _ => cfg
  end.

(** The requests take steps in the order of the schedule. *)
Definition interleave (jobs : list job) (schedule : list nat)
    (cfg : list state * world) : list state * world :=
  fold_left (fun cfg i => step_at jobs i cfg) schedule cfg.

Definition is_finished (s : state) : Prop :=
  match s with
  | Finished _ => True
  | _ => False
  end.

Section Serial.
Context {engine : Engine}.

Definition start (t : job) : state :=
  Ready (handle (handler_of t) (request_of t) (environment_of t)).

(** The requests of [order] handled one after the other, each to its
    end, by the handlers of the two files: the responses in that order,
    and the datastore they leave. *)
Fixpoint serial (jobs : list job) (order : list nat) (w : world)
  : list (result response) * world :=
  match order with
  | [] => ([], w)
  | i :: rest =>
      match nth_error jobs i with
      | Some t =>
          let '(r, w1) :=
            run (handler_of t) (request_of t) (environment_of t) w in
          let '(rs, w2) := serial jobs rest w1 in
          (r :: rs, w2)
      | None => serial jobs rest w
      end
  end.

End Serial.

(** Two states of the datastore with the same table: the same rows and
    the same counter. *)
Definition same_table (w w' : world) : Prop :=
  schools w = schools w' /\ AUTO_INCREMENT w = AUTO_INCREMENT w'.

(** A request run to its end from where it stands, every call settling
    at once. *)
Definition complete (s : state) (env : environment) (w : world)
  : result response * world :=
  match s with
  | Ready m => perform m env w
  | Pending c k => let '(r, w') := execute c env w in perform (k r) env w'
  | Finished r => (r, w)
  end.

(** The calls that read or write the table: the queries. *)
Definition touches_table {B} (c : call B) : bool :=
  match c with
  | getConnection => false
  | _ => true
  end.

(** A computation that runs no query. *)
Fixpoint quiet {A} (m : async A) : Prop :=
  match m with
  | Settled _ => True
  | Await c k => touches_table c = false /\ forall r, quiet (k r)
  | Release k => quiet k
  end.

(** A computation that runs at most one query, whatever the calls
    return. *)
Fixpoint one_query {A} (m : async A) : Prop :=
  match m with
  | Settled _ => True
  | Await c k =>
      if touches_table c then forall r, quiet (k r)
      else forall r, one_query (k r)
  | Release k => one_query k
  end.

Definition quiet_state (s : state) : Prop :=
  match s with
  | Ready m => quiet m
  | Pending c k => touches_table c = false /\ forall r, quiet (k r)
  | Finished _ => True
  end.

Definition one_query_state (s : state) : Prop :=
  match s with
  | Ready m => one_query m
  | Pending c k =>
      if touches_table c then forall r, quiet (k r)
      else forall r, one_query (k r)
  | Finished _ => True
  end.

(** The request is suspended at a query that has not been executed. *)
Definition at_query (s : state) : bool :=
  match s with
  | Pending c _ => touches_table c
  | _ => false
  end.

(** ** Requests that have, and have not, run their query

    Of the requests in flight, some have run their query already, one
    after the other (the list [order], oldest first); they are answered,
    or will be, as when handled in that order one at a time.  The others
    stand as if they had not started. *)
Section Invariant.
Context {engine : Engine}.
Variable jobs : list job.
Variable w0 : world.

Definition run_job (t : job) (w : world) : result response * world :=
  run (handler_of t) (request_of t) (environment_of t) w.

(** From every datastore, [s] ends as the handler of [t] does when run
    at once. *)
Definition uncommitted (t : job) (s : state) : Prop :=
  one_query_state s
  /\ forall w_x : world,
       fst (complete s (environment_of t) w_x) = fst (run_job t w_x)
       /\ same_table (snd (complete s (environment_of t) w_x))
                     (snd (run_job t w_x)).

(** [s] runs no query any more and ends with the response [r]. *)
Definition committed (t : job) (s : state) (r : result response) : Prop :=
  quiet_state s
  /\ forall w_x : world, fst (complete s (environment_of t) w_x) = r.

Record invariant (cfg : list state * world) (order : list nat) : Prop := {
  inv_length : List.length (fst cfg) = List.length jobs;
  inv_NoDup : NoDup order;
  inv_responses :
    List.length (fst (serial jobs order w0)) = List.length order;
  inv_table : same_table (snd (serial jobs order w0)) (snd cfg);
  inv_committed :
    forall k i, nth_error order k = Some i ->
      exists t s r,
        nth_error jobs i = Some t
        /\ nth_error (fst cfg) i = Some s
        /\ nth_error (fst (serial jobs order w0)) k = Some r
        /\ committed t s r;
  inv_uncommitted :
    forall i t s, ~ In i order ->
      nth_error jobs i = Some t -> nth_error (fst cfg) i = Some s ->
      uncommitted t s
}.

(** The requests that are not in [order], by number. *)
Definition others (order : list nat) : list nat :=
  filter (fun i => negb (existsb (Nat.eqb i) order)) (seq 0 (List.length jobs)).

End Invariant.

End Async.

(* ================================================================== *)
(** * Lemmas and theorems *)
(* ================================================================== *)


(* ================================================================== *)
(** * Lemmas: [Array.prototype.sort] *)
(* ================================================================== *)

Section SortLemmas.
Import JS.
Context {A : Type}.
Variable comparefn : A -> A -> number.

(** [comparefn(a, b) > 0]: the sort moves [b] before [a]. *)
Let after (a b : A) : bool := (comparefn a b > num 0)%js.

Lemma sort_insert_length (a : A) (l : list A) :
  List.length (sort_insert comparefn a l) = S (List.length l).
Proof.
  induction l as [|b l IH]; [reflexivity|].
  cbn [sort_insert]. destruct (comparefn a b > num 0)%js; cbn [List.length];
    [rewrite IH|]; reflexivity.
Qed.

Lemma stable_sort_length (l : list A) :
  List.length (stable_sort comparefn l) = List.length l.
Proof.
  induction l as [|a l IH]; [reflexivity|].
  cbn [stable_sort]. rewrite sort_insert_length, IH. reflexivity.
Qed.

Lemma sort_insert_perm (a : A) (l : list A) :
  Permutation (sort_insert comparefn a l) (a :: l).
Proof.
  induction l as [|b l IH]; [apply Permutation_refl|].
  cbn [sort_insert]. destruct (comparefn a b > num 0)%js.
  - rewrite IH. apply perm_swap.
  - apply Permutation_refl.
Qed.

Lemma stable_sort_perm (l : list A) : Permutation (stable_sort comparefn l) l.
Proof.
  induction l as [|a l IH]; [apply Permutation_refl|].
  cbn [stable_sort]. rewrite sort_insert_perm. apply perm_skip, IH.
Qed.

(** *** A second sort changes nothing *)

Hypothesis after_asym : forall a b, after a b = true -> after b a = false.





(** *** The result is ordered, for a comparator that is consistent on
    the elements *)

Variable ok : A -> Prop.
Variable le : A -> A -> Prop.
Hypothesis le_of_not_after : forall a b, ok a -> ok b -> after a b = false -> le a b.
Hypothesis le_of_after : forall a b, ok a -> ok b -> after a b = true -> le b a.
Hypothesis le_trans : forall a b c, ok a -> ok b -> ok c -> le a b -> le b c -> le a c.

Lemma sort_insert_StronglySorted (a : A) (l : list A) :
  ok a -> Forall ok l ->
  StronglySorted le l -> StronglySorted le (sort_insert comparefn a l).
Proof.
  intros Ha Hok Hs. induction Hs as [|b l Hl IH Hb]; cbn [sort_insert].
  - repeat constructor.
  - apply Forall_cons_iff in Hok as [Hokb Hokl].
    fold (after a b). destruct (after a b) eqn:E.
    + constructor; [apply IH, Hokl|].
      apply (Permutation_Forall (Permutation_sym (sort_insert_perm a l))).
      constructor; [apply le_of_after; assumption | exact Hb].
    + constructor; [constructor; assumption|].
      assert (Hab : le a b) by (apply le_of_not_after; assumption).
      constructor; [exact Hab|].
      rewrite Forall_forall in *. intros c Hc.
      apply (le_trans a b c); auto.
Qed.

Lemma stable_sort_StronglySorted (l : list A) :
  Forall ok l -> StronglySorted le (stable_sort comparefn l).
Proof.
  induction l as [|a l IH]; intros Hok; [constructor|].
  apply Forall_cons_iff in Hok as [Ha Hl].
  cbn [stable_sort]. apply sort_insert_StronglySorted; auto.
  apply (Permutation_Forall (Permutation_sym (stable_sort_perm l))), Hl.
Qed.

(** *** The sort is stable: elements that tie keep their order *)



End SortLemmas.

(** What holds of the sort of every engine. *)

Section EngineSort.
Import JS.
Context {engine : Engine} {A : Type}.
Variable comparefn : A -> A -> number.

Lemma Array_sort_perm (l : list A) : Permutation (Array_sort comparefn l) l.
Proof.
  unfold Array_sort. destruct (consistent comparefn l).
  - apply stable_sort_perm.
  - apply Permutation_sym, sort_order_keeps.
Qed.

Lemma Array_sort_length (l : list A) :
  List.length (Array_sort comparefn l) = List.length l.
Proof. apply Permutation_length, Array_sort_perm. Qed.

Lemma Array_sort_consistent (l : list A) :
  consistent comparefn l = true -> Array_sort comparefn l = stable_sort comparefn l.
Proof. unfold Array_sort. intros ->. reflexivity. Qed.

(** *** A comparator that compares keys is consistent *)

Variable ok : A -> Prop.
Variable key : A -> Z.
Hypothesis precedes_key :
  forall a b, ok a -> ok b -> precedes comparefn a b = (key a <? key b).
Hypothesis follows_key :
  forall a b, ok a -> ok b -> follows comparefn a b = (key b <? key a).

Lemma consistent_at_keys (a b c : A) :
  ok a -> ok b -> ok c -> consistent_at comparefn a b c = true.
Proof.
  intros Ha Hb Hc. unfold consistent_at, ties.
  rewrite !precedes_key, !follows_key by assumption.
  destruct (Z.ltb_spec (key a) (key a)); [lia|].
  destruct (Z.ltb_spec (key a) (key b)), (Z.ltb_spec (key b) (key a)),
           (Z.ltb_spec (key b) (key c)), (Z.ltb_spec (key c) (key b)),
           (Z.ltb_spec (key a) (key c)), (Z.ltb_spec (key c) (key a));
    cbn; try reflexivity; lia.
Qed.

Lemma consistent_keys (l : list A) : Forall ok l -> consistent comparefn l = true.
Proof.
  intros Hl. rewrite Forall_forall in Hl. unfold consistent.
  apply forallb_forall. intros a Ha.
  apply forallb_forall. intros b Hb.
  apply forallb_forall. intros c Hc.
  apply consistent_at_keys; auto.
Qed.

Lemma Array_sort_keys (l : list A) :
  Forall ok l -> Array_sort comparefn l = stable_sort comparefn l.
Proof. intros Hl. apply Array_sort_consistent, consistent_keys, Hl. Qed.

End EngineSort.

(* ================================================================== *)
(** * Lemmas: strings *)
(* ================================================================== *)

Section Strings.
Import JS Props.

Lemma trimStart_clean (s : jsstring) : starts_clean (trimStart s).
Proof.
  induction s as [|c s IH]; simpl; [exact I|].
  destruct (isWhiteSpace c) eqn:E; [exact IH | exact E].
Qed.

Lemma trimStart_fixed (s : jsstring) : starts_clean s -> trimStart s = s.
Proof.
  destruct s as [|c s]; simpl; [reflexivity|].
  intros ->. reflexivity.
Qed.

Lemma trimStart_snoc (s : jsstring) (c : N) :
  isWhiteSpace c = false -> exists s', trimStart (s ++ [c]) = s' ++ [c].
Proof.
  intros Hc. induction s as [|a s IH]; simpl.
  - rewrite Hc. exists []. reflexivity.
  - destruct (isWhiteSpace a); [exact IH|].
    exists (a :: s). reflexivity.
Qed.

Lemma trimEnd_clean (s : jsstring) : starts_clean s -> starts_clean (trimEnd s).
Proof.
  unfold trimEnd. destruct s as [|c s]; simpl; [intros _; exact I|].
  intros Hc. destruct (trimStart_snoc (rev s) c Hc) as [s' ->].
  rewrite rev_app_distr. simpl. exact Hc.
Qed.

Lemma trimEnd_idempotent (s : jsstring) : trimEnd (trimEnd s) = trimEnd s.
Proof.
  unfold trimEnd. rewrite rev_involutive.
  rewrite (trimStart_fixed _ (trimStart_clean _)). reflexivity.
Qed.

Lemma trim_idempotent (s : jsstring) : trim (trim s) = trim s.
Proof.
  unfold trim.
  rewrite (trimStart_fixed (trimEnd (trimStart s))).
  - apply trimEnd_idempotent.
  - apply trimEnd_clean, trimStart_clean.
Qed.

Lemma jsstring_eqb_eq (s t : jsstring) : jsstring_eqb s t = true <-> s = t.
Proof.
  revert t. induction s as [|a s IH]; intros [|b t]; simpl; try easy.
  rewrite andb_true_iff, N.eqb_eq, IH. split.
  - intros [-> ->]. reflexivity.
  - intros E. injection E as -> ->. split; reflexivity.
Qed.

Lemma jsstring_eqb_nil (s : jsstring) : jsstring_eqb s [] = false <-> s <> [].
Proof. destruct s; simpl; split; congruence. Qed.

End Strings.

(* ================================================================== *)
(** * Lemmas: the validator *)
(* ================================================================== *)

Section Validator.
Import JS Http Rules.
Local Open Scope result_scope.

Lemma Get_property (data : value) (key : jsstring) :
  is_nullish data = false -> Get data key = Ok (property data key).
Proof. destruct data; simpl; intros H; try discriminate; reflexivity. Qed.

Lemma Get_nullish (data : value) (key : jsstring) :
  is_nullish data = true -> exists e, Get data key = Throw e.
Proof. destruct data; simpl; intros H; try discriminate; eexists; reflexivity. Qed.

Lemma text_check (v : value) :
  (not_ (Ok v) ||| typeof_ (Ok v) !== str "string" ||| trim_ (Ok v) === str "")
  = Ok (negb (has_text v)).
Proof.
  destruct v as [ | | b | x | s | l | ps]; try reflexivity.
  - destruct b; reflexivity.
  - destruct x as [ [|] | [|] | | [|] m e]; reflexivity.
  - destruct s as [|c s]; [reflexivity|].
    cbn -[trim]. change (str "") with (@nil N).
    destruct (jsstring_eqb (trim (c :: s)) []); reflexivity.
Qed.

Lemma parseFloat_Ok (v : value) :
  ToString_throws v = false -> parseFloat v = Ok (parsed v).
Proof. unfold parseFloat. intros ->. reflexivity. Qed.

Lemma parseFloat_Throw (v : value) :
  ToString_throws v = true -> parseFloat v = Throw cannot_convert.
Proof. unfold parseFloat. intros ->. reflexivity. Qed.

Lemma parseFloat_inv (v : value) (x : number) :
  parseFloat v = Ok x -> ToString_throws v = false /\ x = parsed v.
Proof.
  unfold parseFloat. destruct (ToString_throws v); [discriminate|].
  intros [= <-]. split; reflexivity.
Qed.

Lemma parseFloat_throws (v : value) (e : error) :
  parseFloat v = Throw e -> ToString_throws v = true /\ e = cannot_convert.
Proof.
  unfold parseFloat. destruct (ToString_throws v); [|discriminate].
  intros [= <-]. split; reflexivity.
Qed.

(** Only an object or an array makes [ToString] throw, and those are
    truthy. *)
Lemma ToString_throws_truthy (v : value) :
  ToString_throws v = true -> ToBoolean v = true.
Proof. destruct v; try discriminate; reflexivity. Qed.

(** The validator throws at a coordinate that [parseFloat] throws at;
    at every other record it is the conjunction of the four rules. *)
Lemma validateSchoolInput_rules (data : value) :
  is_nullish data = false ->
  Index.validateSchoolInput data
  = if ToString_throws (property data (str "latitude"))
       || ToString_throws (property data (str "longitude"))
    then Throw cannot_convert
    else Ok (validate data).
Proof.
  intros H. unfold Index.validateSchoolInput.
  rewrite !(Get_property data _ H), !text_check.
  unfold validate, name_rule, address_rule, latitude_rule, longitude_rule.
  set (n := property data (str "name")).
  set (a := property data (str "address")).
  set (la := property data (str "latitude")).
  set (lo := property data (str "longitude")).
  unfold text_rule, coordinate_rule.
  cbn [result_bind not_ isNaN_ parseFloat_ or_else].
  unfold logical_not, parseFloat.
  pose proof (ToString_throws_truthy la) as Tla.
  pose proof (ToString_throws_truthy lo) as Tlo.
  destruct (ToString_throws la);
    [rewrite (Tla eq_refl); cbn [negb orb result_bind isNaN_];
     destruct (has_text n), (has_text a); reflexivity|].
  clear Tla. cbn [orb].
  destruct (ToString_throws lo).
  - rewrite (Tlo eq_refl). cbn [negb orb result_bind isNaN_].
    destruct (has_text n), (has_text a); cbn [negb].
    all: destruct (ToBoolean la); cbn [negb result_bind orb app isNaN_].
    all: try destruct (isNaN (parsed la)); cbn [result_bind orb app isNaN_].
    all: try destruct ((parsed la < - num 90)%js || (parsed la > num 90)%js);
      cbn [result_bind orb app isNaN_].
    all: reflexivity.
  - clear Tlo.
    destruct (has_text n), (has_text a); cbn [negb].
    all: destruct (ToBoolean la); cbn [negb result_bind orb app isNaN_].
    all: destruct (ToBoolean lo); cbn [negb result_bind orb app isNaN_].
    all: try destruct (isNaN (parsed la)); cbn [result_bind orb app isNaN_].
    all: try destruct (isNaN (parsed lo)); cbn [result_bind orb app isNaN_].
    all: try destruct ((parsed la < - num 90)%js || (parsed la > num 90)%js);
      cbn [result_bind orb app isNaN_].
    all: try destruct ((parsed lo < - num 180)%js || (parsed lo > num 180)%js);
      cbn [result_bind orb app isNaN_].
    all: reflexivity.
Qed.

Lemma validateSchoolInput_reads (data : value) :
  is_nullish data = false ->
  ToString_throws (property data (str "latitude")) = false ->
  ToString_throws (property data (str "longitude")) = false ->
  Index.validateSchoolInput data = Ok (validate data).
Proof.
  intros H Hla Hlo. rewrite (validateSchoolInput_rules data H), Hla, Hlo.
  reflexivity.
Qed.

Lemma validateSchoolInput_nullish (data : value) :
  is_nullish data = true -> exists e, Index.validateSchoolInput data = Throw e.
Proof.
  intros H. destruct (Get_nullish data (str "name") H) as [e He].
  exists e. unfold Index.validateSchoolInput, not_, or_else.
  rewrite He. reflexivity.
Qed.

Lemma validateSchoolInput_Ok (data : value) (errors : list jsstring) :
  Index.validateSchoolInput data = Ok errors ->
  is_nullish data = false /\ errors = validate data.
Proof.
  intros H. destruct (is_nullish data) eqn:E.
  - destruct (validateSchoolInput_nullish data E) as [e He]. congruence.
  - rewrite (validateSchoolInput_rules data E) in H.
    destruct (_ || _); [discriminate|]. split; congruence.
Qed.

(** When the validator returns, [parseFloat] reads both coordinates. *)
Lemma validateSchoolInput_Ok_reads (data : value) (errors : list jsstring) :
  Index.validateSchoolInput data = Ok errors ->
  parseFloat (property data (str "latitude"))
  = Ok (parsed (property data (str "latitude")))
  /\ parseFloat (property data (str "longitude"))
     = Ok (parsed (property data (str "longitude"))).
Proof.
  intros H. destruct (validateSchoolInput_Ok _ _ H) as [E _].
  rewrite (validateSchoolInput_rules data E) in H.
  destruct (ToString_throws (property data (str "latitude"))) eqn:E1;
    [discriminate|].
  destruct (ToString_throws (property data (str "longitude"))) eqn:E2;
    [discriminate|].
  split; apply parseFloat_Ok; assumption.
Qed.

(** When the validator throws at a record, [parseFloat] threw. *)
Lemma validateSchoolInput_Throw (data : value) (e : error) :
  is_nullish data = false ->
  Index.validateSchoolInput data = Throw e ->
  e = cannot_convert
  /\ (ToString_throws (property data (str "latitude")) = true
      \/ ToString_throws (property data (str "longitude")) = true).
Proof.
  intros E H. rewrite (validateSchoolInput_rules data E) in H.
  destruct (ToString_throws (property data (str "latitude"))) eqn:E1;
    [injection H as <-; auto|].
  destruct (ToString_throws (property data (str "longitude"))) eqn:E2;
    [injection H as <-; auto | discriminate].
Qed.

Lemma text_rule_nil (msg : jsstring) (v : value) :
  text_rule msg v = [] -> exists s, v = VString s /\ trim s <> [].
Proof.
  unfold text_rule, has_text. destruct v; try discriminate.
  destruct (jsstring_eqb (trim s) []) eqn:E; [discriminate|].
  intros _. exists s. split; [reflexivity|]. apply jsstring_eqb_nil, E.
Qed.

Lemma coordinate_rule_nil (m1 m2 : jsstring) (bound : Z) (v : value) :
  coordinate_rule m1 m2 bound v = [] ->
  logical_not v = false /\ isNaN (parsed v) = false
  /\ (parsed v < - num bound)%js = false
  /\ (parsed v > num bound)%js = false.
Proof.
  unfold coordinate_rule.
  destruct (logical_not v); [discriminate|].
  destruct (isNaN (parsed v)); [discriminate|]. cbn [orb].
  destruct (parsed v < - num bound)%js; [discriminate|].
  destruct (parsed v > num bound)%js; [discriminate|].
  repeat split.
Qed.

Lemma validate_nil (data : value) :
  validate data = [] ->
  name_rule (property data (str "name")) = []
  /\ address_rule (property data (str "address")) = []
  /\ latitude_rule (property data (str "latitude")) = []
  /\ longitude_rule (property data (str "longitude")) = [].
Proof.
  unfold validate. intros H.
  apply app_eq_nil in H as [H1 H].
  apply app_eq_nil in H as [H2 H].
  apply app_eq_nil in H as [H3 H4]. repeat split; assumption.
Qed.

End Validator.

(* ================================================================== *)
(** * Lemmas: the handlers *)
(* ================================================================== *)

Section HandlerLemmas.
Import JS Http Rules Props.
Context {engine : Engine}.

Lemma Controller_validateSchoolInput_eq :
  Controller.validateSchoolInput = Index.validateSchoolInput.
Proof. reflexivity. Qed.

Lemma Controller_calculateDistance_eq (math : Math) :
  @Controller.calculateDistance math = @Index.calculateDistance math.
Proof. reflexivity. Qed.

Lemma Controller_addSchool_try_eq :
  Controller.addSchool_try = Index.addSchool_try.
Proof. reflexivity. Qed.

Lemma Controller_listSchools_try_eq :
  @Controller.listSchools_try engine = @Index.listSchools_try engine.
Proof. reflexivity. Qed.

(** A [try] block that returns: the handler returns the same. *)
Lemma try_catch_Ok {A} (block : M A) (handler : error -> M A) env w a w' :
  block env w = (Ok a, w') -> try_catch block handler env w = (Ok a, w').
Proof. unfold try_catch. intros ->. reflexivity. Qed.

Lemma try_catch_Throw {A} (block : M A) (handler : error -> M A) env w e w' :
  block env w = (Throw e, w') -> try_catch block handler env w = handler e env w'.
Proof. unfold try_catch. intros ->. reflexivity. Qed.

(** ** add-school *)

Lemma addSchool_try_invalid req env w (errors : list jsstring) :
  Index.validateSchoolInput (body req) = Ok errors -> errors <> [] ->
  Index.addSchool_try req env w
  = (Ok {| status := 400; sent := Errors false errors |}, w).
Proof.
  intros H Hne. unfold Index.addSchool_try, bind, lift. rewrite H.
  destruct errors; [congruence | reflexivity].
Qed.

Lemma addSchool_try_throws req env w (e : error) :
  Index.validateSchoolInput (body req) = Throw e ->
  Index.addSchool_try req env w = (Throw e, w).
Proof.
  intros H. unfold Index.addSchool_try, bind, lift. rewrite H. reflexivity.
Qed.

Lemma addSchool_try_valid req env w :
  Index.validateSchoolInput (body req) = Ok [] ->
  exists n a : jsstring,
    property (body req) (str "name") = VString n /\ trim n <> []
    /\ property (body req) (str "address") = VString a /\ trim a <> []
    /\ let r := new_row w (body req) n a in
       Index.addSchool_try req env w =
       match getConnection_rejects env, query_rejects env with
       | Some e, _ =>
           (Throw e, record GetConnection w)
       | None, Some e =>
           (Throw e, record (insert_of r) (record GetConnection w))
       | None, None =>
           (Ok {| status := 201;
                  sent := Created true (str "School added successfully") (id r) |},
            {| schools := schools w ++ [r];
               AUTO_INCREMENT := AUTO_INCREMENT w + 1;
               log := log w ++ [GetConnection; insert_of r; Release] |})
       end.
Proof.
  intros H. destruct (validateSchoolInput_Ok _ _ H) as [Hn Hv].
  symmetry in Hv. apply validate_nil in Hv as (H1 & H2 & _ & _).
  apply text_rule_nil in H1 as (n & En & Hn').
  apply text_rule_nil in H2 as (a & Ea & Ha').
  exists n, a. repeat (split; [assumption|]).
  unfold Index.addSchool_try, bind, lift. rewrite H.
  cbn [List.length Nat.ltb Nat.leb].
  unfold pool_getConnection.
  destruct (getConnection_rejects env) as [e|]; [reflexivity|].
  destruct (validateSchoolInput_Ok_reads _ _ H) as [Plat Plon].
  rewrite !(Get_property _ _ Hn), En, Ea.
  cbn [trim_ parseFloat_ result_bind call_trim]. rewrite Plat, Plon.
  unfold connection_query_INSERT.
  cbn [record schools AUTO_INCREMENT log].
  destruct (query_rejects env) as [e|]; [reflexivity|].
  unfold connection_release, ret, record, new_row, insert_of.
  cbn [schools AUTO_INCREMENT log id name address latitude longitude].
  rewrite <- !app_assoc. reflexivity.
Qed.

(** ** list-schools *)

Lemma SFcompare_swap (x y : number) :
  SFcompare y x = option_map CompOpp (SFcompare x y).
Proof.
  destruct x as [sx|sx| |sx mx ex], y as [sy|sy| |sy my ey];
    try destruct sx; try destruct sy; try reflexivity.
  all: cbn [SFcompare option_map].
  all: rewrite (Z.compare_antisym ey ex).
  all: destruct (ey ?= ex)%Z; cbn [CompOpp]; try reflexivity.
  all: change PosDef.Pos.compare_cont with Pos.compare_cont.
  all: rewrite (Pos.compare_cont_antisym mx my Eq); cbn [CompOpp];
    try rewrite CompOpp_involutive; reflexivity.
Qed.

Lemma SFltb_false_SFleb (x y : number) :
  isNaN x = false -> isNaN y = false ->
  SFltb x y = false <-> SFleb y x = true.
Proof.
  intros Hx Hy. unfold SFltb, SFleb. rewrite (SFcompare_swap x y).
  destruct (SFcompare x y) as [[| |]|] eqn:E; cbn; try easy.
  destruct x, y; try discriminate; simpl in E; try discriminate;
  repeat match type of E with
  | context [match ?b with _ => _ end] => destruct b
  end; discriminate.
Qed.

(** The two forms of the range check agree. *)
Lemma within_spec (bound : Z) (x : number) :
  isNaN (num bound) = false ->
  isNaN x = false ->
  within bound x = negb ((x < - num bound)%js || (x > num bound)%js).
Proof.
  intros Hp Hx. unfold within.
  assert (Hm : isNaN (- num bound)%js = false) by (destruct (num bound); easy).
  destruct (x < - num bound)%js eqn:E1.
  - apply not_false_iff_true in E1.
    rewrite (SFltb_false_SFleb _ _ Hx Hm) in E1.
    apply not_true_is_false in E1. rewrite E1. reflexivity.
  - apply (SFltb_false_SFleb _ _ Hx Hm) in E1. rewrite E1. cbn [andb orb].
    destruct (x > num bound)%js eqn:E2.
    + apply not_false_iff_true in E2.
      rewrite (SFltb_false_SFleb _ _ Hp Hx) in E2.
      apply not_true_is_false in E2. rewrite E2. reflexivity.
    + apply (SFltb_false_SFleb _ _ Hp Hx) in E2. rewrite E2. reflexivity.
Qed.

Lemma within_NaN (bound : Z) : within bound NaN = false.
Proof. unfold within. rewrite andb_false_iff. right. reflexivity. Qed.

Lemma location_check (userLat userLon : number) :
  isNaN userLat || isNaN userLon
  || (userLat < - num 90)%js || (userLat > num 90)%js
  || (userLon < - num 180)%js || (userLon > num 180)%js
  = invalid_location userLat userLon.
Proof.
  unfold invalid_location.
  destruct (isNaN userLat) eqn:E1; [reflexivity|].
  destruct (isNaN userLon) eqn:E2; [reflexivity|].
  rewrite (within_spec 90 _ eq_refl E1), (within_spec 180 _ eq_refl E2).
  rewrite !negb_involutive.
  cbn [orb]. rewrite orb_assoc. reflexivity.
Qed.

(** The query point: [parseFloat] reads both parameters, or throws. *)
Lemma query_point_eval (req : request) :
  is_nullish (query req) = false ->
  query_point req
  = if ToString_throws (property (query req) (str "latitude"))
       || ToString_throws (property (query req) (str "longitude"))
    then Throw cannot_convert
    else Ok (parsed (property (query req) (str "latitude")),
             parsed (property (query req) (str "longitude"))).
Proof.
  intros Hq. unfold query_point. rewrite !(Get_property _ _ Hq).
  cbn [parseFloat_ result_bind]. unfold parseFloat.
  destruct (ToString_throws (property (query req) (str "latitude")));
    [reflexivity|].
  destruct (ToString_throws (property (query req) (str "longitude")));
    reflexivity.
Qed.

Lemma query_point_nullish (req : request) :
  is_nullish (query req) = true -> exists e, query_point req = Throw e.
Proof.
  intros Hq. destruct (Get_nullish _ (str "latitude") Hq) as [e He].
  exists e. unfold query_point, parseFloat_. rewrite He. reflexivity.
Qed.

Lemma query_point_Ok (req : request) (userLat userLon : number) :
  query_point req = Ok (userLat, userLon) ->
  is_nullish (query req) = false
  /\ parseFloat (property (query req) (str "latitude")) = Ok userLat
  /\ parseFloat (property (query req) (str "longitude")) = Ok userLon.
Proof.
  intros H. destruct (is_nullish (query req)) eqn:Hq.
  - destruct (query_point_nullish req Hq) as [e He]. congruence.
  - split; [reflexivity|]. rewrite (query_point_eval req Hq) in H.
    unfold parseFloat.
    destruct (ToString_throws (property (query req) (str "latitude")));
      [discriminate|].
    destruct (ToString_throws (property (query req) (str "longitude")));
      [discriminate|].
    injection H as <- <-. split; reflexivity.
Qed.

Lemma query_point_parsed (req : request) (userLat userLon : number) :
  query_point req = Ok (userLat, userLon) ->
  userLat = parsed (property (query req) (str "latitude"))
  /\ userLon = parsed (property (query req) (str "longitude")).
Proof.
  intros H. destruct (query_point_Ok _ _ _ H) as (_ & H1 & H2).
  split; [apply (parseFloat_inv _ _ H1) | apply (parseFloat_inv _ _ H2)].
Qed.

Lemma query_point_read (req : request) (userLat userLon : number) :
  is_nullish (query req) = false ->
  parseFloat (property (query req) (str "latitude")) = Ok userLat ->
  parseFloat (property (query req) (str "longitude")) = Ok userLon ->
  query_point req = Ok (userLat, userLon).
Proof.
  intros Hq H1 H2. unfold query_point. rewrite !(Get_property _ _ Hq).
  cbn [parseFloat_ result_bind]. rewrite H1, H2. reflexivity.
Qed.

Lemma listSchools_try_throws req env w (e : error) :
  query_point req = Throw e ->
  Index.listSchools_try req env w = (Throw e, w).
Proof.
  unfold query_point, Index.listSchools_try, bind, lift.
  destruct (parseFloat_ (Get (query req) (str "latitude"))) as [a|e'];
    cbn [result_bind]; [|intros [= <-]; reflexivity].
  destruct (parseFloat_ (Get (query req) (str "longitude"))) as [b|e'];
    cbn [result_bind]; [discriminate | intros [= <-]; reflexivity].
Qed.

Lemma listSchools_try_eval req env w (userLat userLon : number) :
  query_point req = Ok (userLat, userLon) ->
  Index.listSchools_try req env w =
  if invalid_location userLat userLon then
    (Ok {| status := 400;
           sent := Message false (str "Invalid latitude or longitude provided") None |},
     w)
  else
    match getConnection_rejects env, query_rejects env with
    | Some e, _ => (Throw e, record GetConnection w)
    | None, Some e => (Throw e, record SelectAll (record GetConnection w))
    | None, None =>
        (Ok {| status := 200;
               sent := Listing true (List.length (schools w))
                         (sorted_listing userLat userLon w) |},
         {| schools := schools w;
            AUTO_INCREMENT := AUTO_INCREMENT w;
            log := log w ++ [GetConnection; SelectAll; Release] |})
    end.
Proof.
  intros Hp. unfold query_point in Hp.
  unfold Index.listSchools_try, bind, lift.
  destruct (parseFloat_ (Get (query req) (str "latitude"))) as [a|e'];
    cbn [result_bind] in Hp; [|discriminate].
  destruct (parseFloat_ (Get (query req) (str "longitude"))) as [b|e'];
    cbn [result_bind] in Hp; [|discriminate].
  injection Hp as -> ->.
  rewrite location_check.
  destruct (invalid_location userLat userLon); [reflexivity|].
  unfold pool_getConnection.
  destruct (getConnection_rejects env) as [e|]; [reflexivity|].
  unfold connection_query_SELECT.
  destruct (query_rejects env) as [e|]; [reflexivity|].
  unfold connection_release, ret, record.
  cbn [schools AUTO_INCREMENT log].
  rewrite <- !app_assoc. cbn [app].
  unfold sorted_listing.
  fold (annotate userLat userLon).
  change (fun a b => (distance a - distance b)%js) with by_distance.
  rewrite Array_sort_length, length_map. reflexivity.
Qed.

End HandlerLemmas.

(* ================================================================== *)
(** * Lemmas: binary64 arithmetic *)
(* ================================================================== *)

Section Signs.
Import JS.

(** The rounding does not look at the sign. *)
Lemma binary_round_aux_opp (s : bool) (m e : Z) (l : location) :
  (- binary_round_aux prec emax s m e l)%js
  = binary_round_aux prec emax (negb s) m e l.
Proof.
  unfold binary_round_aux.
  destruct (shr_fexp prec emax m e l) as [mrs' e'].
  destruct (shr_fexp prec emax _ e' loc_Exact) as [mrs'' e''].
  destruct (shr_m mrs''); try reflexivity.
  destruct (e'' <=? emax - prec); reflexivity.
Qed.

Lemma binary_round_opp (s : bool) (m : positive) (e : Z) :
  (- binary_round prec emax s m e)%js = binary_round prec emax (negb s) m e.
Proof.
  unfold binary_round. destruct (shl_align m e _) as [mz ez].
  apply binary_round_aux_opp.
Qed.

Lemma SFmul_comm (x y : number) : (x * y = y * x)%js.
Proof.
  destruct x as [sx|sx| |sx mx ex], y as [sy|sy| |sy my ey]; cbn [SFmul];
    try rewrite (xorb_comm sx sy); try reflexivity.
  rewrite (Pos.mul_comm mx my), (Z.add_comm ex ey). reflexivity.
Qed.

Lemma SFmul_opp_l (x y : number) : (- x * y = - (x * y))%js.
Proof.
  destruct x as [sx|sx| |sx mx ex], y as [sy|sy| |sy my ey];
    cbn [SFmul SFopp]; try rewrite binary_round_aux_opp;
    try rewrite negb_xorb_l; reflexivity.
Qed.

Lemma SFmul_opp_r (x y : number) : (x * - y = - (x * y))%js.
Proof. rewrite (SFmul_comm x), SFmul_opp_l, (SFmul_comm y). reflexivity. Qed.

Lemma SFmul_opp_opp (x y : number) : (- x * - y = x * y)%js.
Proof.
  rewrite SFmul_opp_l, SFmul_opp_r.
  destruct (x * y)%js as [[|]|[|]| |[|] m e]; reflexivity.
Qed.

Lemma SFdiv_opp_l (x y : number) : (- x / y = - (x / y))%js.
Proof.
  destruct x as [sx|sx| |sx mx ex], y as [sy|sy| |sy my ey];
    cbn [SFdiv SFopp]; try rewrite negb_xorb_l; try reflexivity.
  destruct (SFdiv_core_binary prec emax (Z.pos mx) ex (Z.pos my) ey) as [[mz ez] lz].
  rewrite binary_round_aux_opp, negb_xorb_l. reflexivity.
Qed.

(** [y - x] is [-(x - y)], except that both are [+0] when [x] and [y] are
    the same finite value. *)
Lemma SFsub_swap (x y : number) :
  (y - x = - (x - y))%js
  \/ ((x - y)%js = S754_zero false /\ (y - x)%js = S754_zero false).
Proof.
  destruct x as [sx|sx| |sx mx ex], y as [sy|sy| |sy my ey];
    try (destruct sx; destruct sy; cbn; auto; fail);
    try (destruct sx; cbn; auto; fail);
    try (destruct sy; cbn; auto; fail);
    try (cbn; rewrite ?negb_involutive; auto; fail).
  cbn [SFsub]. rewrite (Z.min_comm ey ex).
  set (a := cond_Zopp sx (Z.pos (fst (shl_align mx ex (Z.min ex ey))))).
  set (b := cond_Zopp sy (Z.pos (fst (shl_align my ey (Z.min ex ey))))).
  replace (b - a) with (- (a - b)) by ring.
  destruct (a - b) as [|p|p]; cbn [Z.opp binary_normalize].
  - right. split; reflexivity.
  - left. rewrite binary_round_opp. reflexivity.
  - left. rewrite binary_round_opp. reflexivity.
Qed.

End Signs.

Section Rounding.
Import JS Props.

Lemma digits2_pos_bounds (m : positive) :
  2 ^ (Z.pos (digits2_pos m) - 1) <= Z.pos m < 2 ^ Z.pos (digits2_pos m).
Proof.
  induction m as [m IH|m IH|]; cbn [digits2_pos];
    try (rewrite Pos2Z.inj_succ;
         replace (Z.succ (Z.pos (digits2_pos m)) - 1)
           with (Z.succ (Z.pos (digits2_pos m) - 1)) by lia;
         rewrite !Z.pow_succ_r by lia; lia).
  cbn. lia.
Qed.

Lemma shr_1_m (r : shr_record) : 0 <= shr_m r -> shr_m (shr_1 r) = shr_m r / 2.
Proof.
  destruct r as [m b s]. cbn [shr_m]. intros H. rewrite <- Z.div2_div.
  destruct m as [|[p|p|]|p]; try reflexivity; lia.
Qed.

Lemma iter_pos_shr_m (p : positive) (r : shr_record) :
  0 <= shr_m r -> shr_m (iter_pos shr_1 p r) = shr_m r / 2 ^ Z.pos p.
Proof.
  assert (Hnn : forall a k, 0 <= a -> 0 <= a / 2 ^ Z.pos k).
  { intros a k Ha. apply Z.div_pos; [exact Ha|]. apply Z.pow_pos_nonneg; lia. }
  assert (Hpow : forall k, 0 < 2 ^ Z.pos k) by (intros; apply Z.pow_pos_nonneg; lia).
  revert r. induction p as [p IH|p IH|]; intros r Hr; cbn [iter_pos].
  - assert (H1 : shr_m (shr_1 r) = shr_m r / 2) by (apply shr_1_m, Hr).
    assert (H1' : 0 <= shr_m (shr_1 r)) by (rewrite H1; apply Z.div_pos; lia).
    assert (H2 := IH _ H1').
    assert (H2' : 0 <= shr_m (iter_pos shr_1 p (shr_1 r)))
      by (rewrite H2; apply Hnn, H1').
    rewrite (IH _ H2'), H2, H1.
    pose proof (Hpow p).
    rewrite !Z.div_div by lia.
    f_equal. replace (Z.pos p~1) with (Z.pos p + Z.pos p + 1) by lia.
    rewrite !Z.pow_add_r by lia. change (2 ^ 1) with 2. ring.
  - assert (H2 := IH _ Hr).
    assert (H2' : 0 <= shr_m (iter_pos shr_1 p r)) by (rewrite H2; apply Hnn, Hr).
    rewrite (IH _ H2'), H2.
    pose proof (Hpow p).
    rewrite !Z.div_div by lia.
    f_equal. replace (Z.pos p~0) with (Z.pos p + Z.pos p) by lia.
    rewrite Z.pow_add_r by lia. ring.
  - rewrite shr_1_m by exact Hr. reflexivity.
Qed.

Lemma shr_m_of_loc (m : Z) (l : location) : shr_m (shr_record_of_loc m l) = m.
Proof. destruct l as [|[]]; reflexivity. Qed.

(** Shifting to the format's exponent keeps a positive mantissa positive,
    as long as the exponent is not below the smallest one. *)
Lemma shr_fexp_pos (m e : Z) (l : location) :
  0 < m -> emin prec emax <= e ->
  0 < shr_m (fst (shr_fexp prec emax m e l))
  /\ emin prec emax <= snd (shr_fexp prec emax m e l).
Proof.
  intros Hm He. unfold shr_fexp, shr.
  destruct m as [|m|m]; try lia. cbn [Zdigits2].
  pose proof (digits2_pos_bounds m) as Hd.
  destruct (fexp prec emax (Z.pos (digits2_pos m) + e) - e) as [|p|p] eqn:En;
    cbn [fst snd]; rewrite ?shr_m_of_loc; try (split; lia).
  unfold fexp in En. unfold emin, prec, emax in *.
  rewrite iter_pos_shr_m by (rewrite shr_m_of_loc; lia).
  rewrite shr_m_of_loc. split; [|lia].
  apply Z.div_str_pos. split; [apply Z.pow_pos_nonneg; lia|].
  apply (Z.le_trans _ (2 ^ (Z.pos (digits2_pos m) - 1))); [|lia].
  apply Z.pow_le_mono_r; lia.
Qed.

Lemma round_nearest_even_pos (m : Z) (l : location) :
  0 < m -> 0 < round_nearest_even m l.
Proof. destruct l as [|[]]; cbn; try destruct (Z.even m); lia. Qed.

Lemma binary_round_aux_signed (s : bool) (m e : Z) (l : location) :
  0 < m -> emin prec emax <= e ->
  signed s (binary_round_aux prec emax s m e l).
Proof.
  intros Hm He. unfold binary_round_aux.
  destruct (shr_fexp_pos m e l Hm He) as [H1 H2].
  destruct (shr_fexp prec emax m e l) as [mrs' e']. cbn [fst snd] in *.
  pose proof (round_nearest_even_pos _ (loc_of_shr_record mrs') H1) as H3.
  destruct (shr_fexp_pos _ e' loc_Exact H3 H2) as [H4 H5].
  destruct (shr_fexp prec emax _ e' loc_Exact) as [mrs'' e'']. cbn [fst snd] in *.
  destruct (shr_m mrs'') as [|p|p]; try lia.
  destruct (e'' <=? emax - prec); [left; eauto | right; reflexivity].
Qed.

Lemma binary_round_signed (s : bool) (m : positive) (e : Z) :
  emin prec emax <= e -> signed s (binary_round prec emax s m e).
Proof.
  intros He. unfold binary_round, shl_align.
  destruct (fexp prec emax (Z.pos (digits2_pos m) + e) - e) eqn:En;
    apply binary_round_aux_signed; try lia.
  unfold fexp in *. lia.
Qed.

End Rounding.

Section Order.
Import JS Props.

Lemma valid_finite_bounds (s : bool) (m : positive) (e : Z) :
  is_double (S754_finite s m e) = true ->
  -1074 <= e <= 971
  /\ Z.pos (digits2_pos m) <= 53
  /\ (-1074 < e -> Z.pos (digits2_pos m) = 53).
Proof.
  unfold is_double, valid_binary, bounded, canonical_mantissa, fexp, emin, prec, emax.
  rewrite andb_true_iff, Z.eqb_eq, Z.leb_le. lia.
Qed.

Lemma pow2_pos (k : Z) : 0 <= k -> 0 < 2 ^ k.
Proof. intros. apply Z.pow_pos_nonneg; lia. Qed.

Lemma scaled_finite_bound (s : bool) (m : positive) (e : Z) :
  is_double (S754_finite s m e) = true ->
  0 < Z.pos m * 2 ^ (e + 1074) < 2 ^ 2100.
Proof.
  intros H. apply valid_finite_bounds in H as (He & Hd & _).
  pose proof (digits2_pos_bounds m) as [_ Hm].
  pose proof (pow2_pos (e + 1074) ltac:(lia)) as Hp.
  assert (H53 : Z.pos m < 2 ^ 53).
  { eapply Z.lt_le_trans; [exact Hm|]. apply Z.pow_le_mono_r; lia. }
  assert (H2047 : 2 ^ (e + 1074) < 2 ^ 2047) by (apply Z.pow_lt_mono_r; lia).
  split; [lia|].
  replace (2 ^ 2100) with (2 ^ 53 * 2 ^ 2047)
    by (rewrite <- Z.pow_add_r by (apply Pos2Z.is_nonneg); reflexivity).
  apply Z.mul_lt_mono_nonneg; [apply Pos2Z.is_nonneg | exact H53 | | exact H2047].
  apply Z.lt_le_incl, Hp.
Qed.

Lemma scaled_compare_pos (mx : positive) (ex : Z) (my : positive) (ey : Z) :
  is_double (S754_finite false mx ex) = true ->
  is_double (S754_finite false my ey) = true ->
  match ex ?= ey with
  | Lt => Lt
  | Gt => Gt
  | Eq => Pos.compare_cont Eq mx my
  end = (Z.pos mx * 2 ^ (ex + 1074) ?= Z.pos my * 2 ^ (ey + 1074)).
Proof.
  intros Hx Hy.
  apply valid_finite_bounds in Hx as (Hex & Hdx & Hnx).
  apply valid_finite_bounds in Hy as (Hey & Hdy & Hny).
  pose proof (digits2_pos_bounds mx) as [Hlx Hux].
  pose proof (digits2_pos_bounds my) as [Hly Huy].
  assert (Hlt : forall (m m' : positive) (e e' : Z),
             -1074 <= e < e' -> Z.pos m < 2 ^ 53 -> 2 ^ 52 <= Z.pos m' ->
             Z.pos m * 2 ^ (e + 1074) < Z.pos m' * 2 ^ (e' + 1074)).
  { intros m m' e e' He Hm Hm'.
    replace (e' + 1074) with ((e' - e) + (e + 1074)) by lia.
    rewrite (Z.pow_add_r 2 (e' - e) (e + 1074)) by lia.
    pose proof (pow2_pos (e + 1074) ltac:(lia)).
    assert (2 ^ 1 <= 2 ^ (e' - e)) by (apply Z.pow_le_mono_r; lia).
    change (2 ^ 1) with 2 in *. change (2 ^ 53) with (2 ^ 52 * 2) in Hm.
    rewrite Z.mul_assoc. apply Z.mul_lt_mono_pos_r; [assumption|]. nia. }
  assert (H53 : forall (m : positive), Z.pos (digits2_pos m) <= 53 ->
             Z.pos m < 2 ^ Z.pos (digits2_pos m) -> Z.pos m < 2 ^ 53).
  { intros m Hd Hm. eapply Z.lt_le_trans; [exact Hm|].
    apply Z.pow_le_mono_r; lia. }
  destruct (Z.compare_spec ex ey) as [E|E|E].
  - subst ey. change (Pos.compare_cont Eq mx my) with (Z.pos mx ?= Z.pos my).
    pose proof (pow2_pos (ex + 1074) ltac:(lia)).
    destruct (Z.compare_spec (Z.pos mx) (Z.pos my)); symmetry;
      [apply Z.compare_eq_iff | apply Z.compare_lt_iff | apply Z.compare_gt_iff]; nia.
  - symmetry. apply Z.compare_lt_iff. apply Hlt; [lia|auto|].
    rewrite Hny in Hly by lia. exact Hly.
  - symmetry. apply Z.compare_gt_iff. apply Hlt; [lia|auto|].
    rewrite Hnx in Hlx by lia. exact Hlx.
Qed.

(** Comparison of well-formed doubles is comparison of their scaled
    values. *)
Lemma SFcompare_scaled (x y : number) :
  is_double x = true -> is_double y = true ->
  isNaN x = false -> isNaN y = false ->
  SFcompare x y = Some (scaled x ?= scaled y).
Proof.
  intros Vx Vy Nx Ny.
  destruct x as [sx|sx| |sx mx ex]; try discriminate;
  destruct y as [sy|sy| |sy my ey]; try discriminate.
  all: try pose proof (scaled_finite_bound _ _ _ Vx) as Bx.
  all: try pose proof (scaled_finite_bound _ _ _ Vy) as By.
  all: cbn [SFcompare scaled].
  all: try (destruct sx; destruct sy; cbn [cond_Zopp]; symmetry; f_equal;
            first [ apply Z.compare_eq_iff; lia
                  | apply Z.compare_lt_iff; lia
                  | apply Z.compare_gt_iff; lia ]; fail).
  all: try (destruct sx; cbn [cond_Zopp]; symmetry; f_equal;
            first [ apply Z.compare_eq_iff; lia
                  | apply Z.compare_lt_iff; lia
                  | apply Z.compare_gt_iff; lia ]; fail).
  all: try (destruct sy; cbn [cond_Zopp]; symmetry; f_equal;
            first [ apply Z.compare_eq_iff; lia
                  | apply Z.compare_lt_iff; lia
                  | apply Z.compare_gt_iff; lia ]; fail).
  f_equal. destruct sx, sy; cbn [cond_Zopp].
  - rewrite Z.compare_opp.
    rewrite <- (scaled_compare_pos my ey mx ex Vy Vx).
    rewrite (Z.compare_antisym ey ex).
    destruct (ey ?= ex); cbn [CompOpp]; try reflexivity.
    change PosDef.Pos.compare_cont with Pos.compare_cont.
    rewrite (Pos.compare_cont_antisym mx my Eq). reflexivity.
  - symmetry. apply Z.compare_lt_iff. lia.
  - symmetry. apply Z.compare_gt_iff. lia.
  - apply (scaled_compare_pos mx ex my ey Vx Vy).
Qed.

Lemma SFltb_scaled (x y : number) :
  is_double x = true -> is_double y = true ->
  isNaN x = false -> isNaN y = false ->
  SFltb x y = (scaled x <? scaled y).
Proof.
  intros. unfold SFltb, Z.ltb. rewrite SFcompare_scaled by assumption.
  destruct (scaled x ?= scaled y); reflexivity.
Qed.


Lemma SFeqb_scaled (x y : number) :
  is_double x = true -> is_double y = true ->
  isNaN x = false -> isNaN y = false ->
  SFeqb x y = (scaled x =? scaled y).
Proof.
  intros. unfold SFeqb. rewrite SFcompare_scaled by assumption.
  destruct (Z.compare_spec (scaled x) (scaled y)); symmetry;
    [apply Z.eqb_eq | apply Z.eqb_neq | apply Z.eqb_neq]; lia.
Qed.

Lemma pos_iter_xO (m d : positive) :
  Z.pos (Pos.iter xO m d) = Z.pos m * 2 ^ Z.pos d.
Proof.
  induction d as [|d IH] using Pos.peano_ind.
  - cbn. lia.
  - rewrite Pos.iter_succ, Pos2Z.inj_succ, Z.pow_succ_r by lia.
    rewrite Pos2Z.inj_xO, IH. ring.
Qed.

Lemma shl_align_fst (m : positive) (e e' : Z) :
  e' <= e -> Z.pos (fst (shl_align m e e')) = Z.pos m * 2 ^ (e - e').
Proof.
  intros H. unfold shl_align. destruct (e' - e) as [|d|d] eqn:E; try lia.
  - replace (e - e') with 0 by lia. cbn [fst]. lia.
  - cbn [fst]. rewrite pos_iter_xO. f_equal. f_equal. lia.
Qed.

Lemma signed_positive (x : number) :
  signed false x -> SFltb (S754_zero false) x = true.
Proof. intros [(m & e & ->)| ->]; reflexivity. Qed.

Lemma signed_negative (x : number) :
  signed true x -> SFltb (S754_zero false) x = false.
Proof. intros [(m & e & ->)| ->]; reflexivity. Qed.

(** [x - y > 0] exactly when [y < x]: a difference of two doubles never
    rounds to zero. *)
Lemma SFsub_positive (x y : number) :
  is_double x = true -> is_double y = true ->
  isNaN x = false -> isNaN y = false ->
  (x - y > num 0)%js = (scaled y <? scaled x).
Proof.
  intros Vx Vy Nx Ny. change (num 0) with (S754_zero false).
  destruct x as [sx|sx| |sx mx ex]; try discriminate;
  destruct y as [sy|sy| |sy my ey]; try discriminate.
  all: try pose proof (scaled_finite_bound _ _ _ Vx) as Bx.
  all: try pose proof (scaled_finite_bound _ _ _ Vy) as By.
  all: try (destruct sx; destruct sy; cbn -[Z.pow Z.ltb Z.mul Z.opp]; symmetry;
            first [reflexivity | apply Z.ltb_lt; lia | apply Z.ltb_ge; lia]; fail).
  all: try (destruct sx; cbn -[Z.pow Z.ltb Z.mul Z.opp]; symmetry;
            first [reflexivity | apply Z.ltb_lt; lia | apply Z.ltb_ge; lia]; fail).
  all: try (destruct sy; cbn -[Z.pow Z.ltb Z.mul Z.opp]; symmetry;
            first [reflexivity | apply Z.ltb_lt; lia | apply Z.ltb_ge; lia]; fail).
  cbn [SFsub scaled].
  pose proof (valid_finite_bounds _ _ _ Vx) as (Hex & _).
  pose proof (valid_finite_bounds _ _ _ Vy) as (Hey & _).
  set (ez := Z.min ex ey).
  rewrite (shl_align_fst mx ex ez), (shl_align_fst my ey ez) by (unfold ez; lia).
  pose proof (pow2_pos (ez + 1074) ltac:(unfold ez; lia)) as Hz.
  assert (Ex : 2 ^ (ex + 1074) = 2 ^ (ex - ez) * 2 ^ (ez + 1074)).
  { rewrite <- Z.pow_add_r by (unfold ez; lia). f_equal. lia. }
  assert (Ey : 2 ^ (ey + 1074) = 2 ^ (ey - ez) * 2 ^ (ez + 1074)).
  { rewrite <- Z.pow_add_r by (unfold ez; lia). f_equal. lia. }
  rewrite Ex, Ey.
  set (a := cond_Zopp sx (Z.pos mx * 2 ^ (ex - ez))).
  set (b := cond_Zopp sy (Z.pos my * 2 ^ (ey - ez))).
  assert (Ea : cond_Zopp sx (Z.pos mx * (2 ^ (ex - ez) * 2 ^ (ez + 1074)))
               = a * 2 ^ (ez + 1074)) by (unfold a; destruct sx; cbn [cond_Zopp]; ring).
  assert (Eb : cond_Zopp sy (Z.pos my * (2 ^ (ey - ez) * 2 ^ (ez + 1074)))
               = b * 2 ^ (ez + 1074)) by (unfold b; destruct sy; cbn [cond_Zopp]; ring).
  rewrite Ea, Eb.
  destruct (a - b) as [|p|p] eqn:E; cbn [binary_normalize].
  - symmetry. apply Z.ltb_ge. nia.
  - rewrite signed_positive by (apply binary_round_signed; unfold emin, prec, emax, ez; lia).
    symmetry. apply Z.ltb_lt. nia.
  - rewrite signed_negative by (apply binary_round_signed; unfold emin, prec, emax, ez; lia).
    symmetry. apply Z.ltb_ge. nia.
Qed.

End Order.

Section WellFormed.
Import JS Props.

Lemma Zdigits2_log2 (m : Z) : 0 < m -> Zdigits2 m = Z.log2 m + 1.
Proof.
  destruct m as [|p|p]; try lia. intros _. cbn [Zdigits2].
  pose proof (digits2_pos_bounds p) as Hd.
  assert (0 < Z.pos (digits2_pos p)) by lia.
  rewrite (Z.log2_unique (Z.pos p) (Z.pos (digits2_pos p) - 1)); try lia.
  replace (Z.succ (Z.pos (digits2_pos p) - 1)) with (Z.pos (digits2_pos p)) by lia.
  exact Hd.
Qed.

Lemma Zdigits2_nonneg (m : Z) : 0 <= Zdigits2 m.
Proof. destruct m; cbn; lia. Qed.

Lemma Zdigits2_mono (a b : Z) : 0 <= a <= b -> Zdigits2 a <= Zdigits2 b.
Proof.
  intros [Ha Hab]. destruct (Z.eq_dec a 0) as [->|Hn].
  - apply Zdigits2_nonneg.
  - rewrite !Zdigits2_log2 by lia. pose proof (Z.log2_le_mono a b Hab). lia.
Qed.

Lemma Zdigits2_lower (m k : Z) : 0 <= k -> 2 ^ k <= m -> k < Zdigits2 m.
Proof.
  intros Hk H. assert (0 < m) by (pose proof (pow2_pos k Hk); lia).
  rewrite Zdigits2_log2 by lia.
  apply (Z.log2_le_pow2 m k) in H; lia.
Qed.

Lemma Zdigits2_div_pow2 (m n : Z) :
  0 <= n -> 0 < m / 2 ^ n -> Zdigits2 (m / 2 ^ n) = Zdigits2 m - n.
Proof.
  intros Hn Hq. pose proof (pow2_pos n Hn) as Hp.
  assert (Hm : 2 ^ n <= m).
  { destruct (Z.lt_ge_cases m (2 ^ n)) as [Hlt|]; [|assumption].
    destruct (Z.lt_ge_cases m 0) as [Hneg|Hpos].
    - assert (m / 2 ^ n < 0) by (apply Z.div_lt_upper_bound; lia). lia.
    - rewrite Z.div_small in Hq by lia. lia. }
  assert (0 < m) by lia.
  rewrite !Zdigits2_log2 by lia.
  rewrite <- Z.shiftr_div_pow2, Z.log2_shiftr by lia.
  apply (Z.log2_le_pow2 m n) in Hm; lia.
Qed.

Lemma fexp_mono (a b : Z) : a <= b -> fexp prec emax a <= fexp prec emax b.
Proof. unfold fexp. lia. Qed.

Lemma fexp_emin (a : Z) : emin prec emax <= fexp prec emax a.
Proof. unfold fexp. lia. Qed.

(** Shifting a mantissa to the exponent of the format. *)
Lemma shr_fexp_canonical (m e : Z) (l : location) :
  0 <= m -> e <= fexp prec emax (Zdigits2 m + e) ->
  let m' := shr_m (fst (shr_fexp prec emax m e l)) in
  let e' := snd (shr_fexp prec emax m e l) in
  0 <= m'
  /\ e' = fexp prec emax (Zdigits2 m + e)
  /\ (0 < m' -> Zdigits2 m' + e' = Zdigits2 m + e)
  /\ (m' = 0 -> e' = emin prec emax).
Proof.
  intros Hm He. cbn zeta.
  set (n := fexp prec emax (Zdigits2 m + e) - e).
  assert (Hn : 0 <= n) by (unfold n; lia).
  assert (E : shr_m (fst (shr_fexp prec emax m e l)) = m / 2 ^ n
              /\ snd (shr_fexp prec emax m e l) = e + n).
  { unfold shr_fexp, shr. fold n. destruct n as [|p|p]; try lia; cbn [fst snd].
    - rewrite shr_m_of_loc, Z.pow_0_r, Z.div_1_r. split; lia.
    - rewrite iter_pos_shr_m, shr_m_of_loc by (rewrite shr_m_of_loc; exact Hm).
      split; reflexivity. }
  destruct E as [-> ->]. pose proof (pow2_pos n Hn) as Hp.
  split; [apply Z.div_pos; lia|]. split; [unfold n; lia|]. split.
  - intros Hq. rewrite (Zdigits2_div_pow2 m n Hn Hq). lia.
  - intros Hq. unfold n in *. clear n.
    assert (Hd : Zdigits2 m + e <= fexp prec emax (Zdigits2 m + e)).
    { destruct (Z.eq_dec m 0) as [->|Hm0]; [cbn [Zdigits2] in *; lia|].
      apply Z.div_small_iff in Hq; [|lia].
      destruct Hq as [[_ Hlt]|]; [|lia].
      destruct (Z.lt_ge_cases (fexp prec emax (Zdigits2 m + e) - e) (Zdigits2 m))
        as [Hc|]; [|lia].
      exfalso.
      assert (Hle : 2 ^ (fexp prec emax (Zdigits2 m + e) - e) <= m).
      { apply Z.log2_le_pow2; [lia|].
        rewrite (Zdigits2_log2 m) in Hc at 2 by lia. lia. }
      lia. }
    revert Hd. generalize (Zdigits2 m + e). intros z Hz.
    clear - Hz. unfold fexp, emin, prec, emax in *. lia.
Qed.

Lemma round_nearest_even_bounds (m : Z) (l : location) :
  m <= round_nearest_even m l <= m + 1.
Proof. destruct l as [|[]]; cbn; try destruct (Z.even m); lia. Qed.

(** The rounding yields a well-formed double. *)
Lemma binary_round_aux_valid (s : bool) (m e : Z) (l : location) :
  0 <= m -> e <= fexp prec emax (Zdigits2 m + e) ->
  is_double (binary_round_aux prec emax s m e l) = true.
Proof.
  intros Hm He. unfold binary_round_aux.
  destruct (shr_fexp_canonical m e l Hm He) as (H1 & E1 & D1 & Z1).
  destruct (shr_fexp prec emax m e l) as [mrs' e']. cbn [fst snd] in *.
  set (m1 := round_nearest_even (shr_m mrs') (loc_of_shr_record mrs')).
  pose proof (round_nearest_even_bounds (shr_m mrs') (loc_of_shr_record mrs')) as Hr.
  fold m1 in Hr.
  assert (He' : e' <= fexp prec emax (Zdigits2 m1 + e')).
  { destruct (Z.eq_dec (shr_m mrs') 0) as [E0|N0].
    - rewrite (Z1 E0). apply fexp_emin.
    - assert (Hd := D1 ltac:(lia)).
      rewrite E1 at 1. rewrite <- Hd. apply fexp_mono.
      pose proof (Zdigits2_mono (shr_m mrs') m1 ltac:(lia)). lia. }
  destruct (shr_fexp_canonical m1 e' loc_Exact ltac:(lia) He') as (H2 & E2 & D2 & _).
  destruct (shr_fexp prec emax m1 e' loc_Exact) as [mrs'' e'']. cbn [fst snd] in *.
  destruct (shr_m mrs'') as [|p|p] eqn:Ep; try reflexivity.
  destruct (e'' <=? emax - prec) eqn:Eb; [|reflexivity].
  unfold is_double, valid_binary, bounded, canonical_mantissa.
  rewrite Eb, andb_true_r. apply Z.eqb_eq.
  change (Z.pos (digits2_pos p)) with (Zdigits2 (Z.pos p)).
  rewrite (D2 ltac:(lia)). symmetry. exact E2.
Qed.

(** A quotient is well-formed, whatever the operands are. *)
Lemma SFdiv_valid (x y : number) : is_double (x / y)%js = true.
Proof.
  destruct x as [sx|sx| |sx mx ex], y as [sy|sy| |sy my ey]; try reflexivity.
  cbn [SFdiv]. unfold SFdiv_core_binary.
  remember (Zdigits2 (Z.pos mx)) as d1 eqn:Ed1.
  remember (Zdigits2 (Z.pos my)) as d2 eqn:Ed2.
  remember (Z.min (fexp prec emax (d1 + ex - (d2 + ey))) (ex - ey)) as e' eqn:Ee'.
  remember (ex - ey - e') as s eqn:Es.
  assert (Hs : 0 <= s) by lia.
  remember (match s with
            | 0 => Z.pos mx
            | Z.pos _ => Z.shiftl (Z.pos mx) s
            | Z.neg _ => 0
            end) as m' eqn:Em'.
  assert (Hm' : m' = Z.pos mx * 2 ^ s).
  { subst m'. clear Es. destruct s as [|p|p]; try lia.
    apply Z.shiftl_mul_pow2. lia. }
  clear Em'.
  pose proof (Z.div_eucl_eq m' (Z.pos my) ltac:(lia)) as Hdiv.
  pose proof (Z.mod_pos_bound m' (Z.pos my) ltac:(lia)) as Hmod.
  unfold Z.modulo in Hmod.
  assert (Hq : fst (Z.div_eucl m' (Z.pos my)) = m' / Z.pos my).
  { unfold Z.div. destruct (Z.div_eucl m' (Z.pos my)). reflexivity. }
  destruct (Z.div_eucl m' (Z.pos my)) as [q r]. cbn [fst] in Hq. subst q.
  pose proof (pow2_pos s Hs) as Hp.
  apply binary_round_aux_valid.
  - apply Z.div_pos; lia.
  - apply (Z.le_trans _ (fexp prec emax (d1 + ex - (d2 + ey)))); [lia|].
    apply fexp_mono.
    assert (Hk : d1 + s - d2 <= Zdigits2 (m' / Z.pos my)).
    { destruct (Z.le_gt_cases (d1 + s - d2) 0) as [Hle|Hgt].
      - pose proof (Zdigits2_nonneg (m' / Z.pos my)). lia.
      - assert (Hlow : 2 ^ (d1 + s - d2 - 1) <= m' / Z.pos my).
        { apply Z.div_le_lower_bound; [lia|].
          pose proof (digits2_pos_bounds mx) as [Hmx _].
          pose proof (digits2_pos_bounds my) as [_ Hmy].
          change (Z.pos (digits2_pos mx)) with (Zdigits2 (Z.pos mx)) in Hmx.
          change (Z.pos (digits2_pos my)) with (Zdigits2 (Z.pos my)) in Hmy.
          rewrite <- Ed1 in Hmx. rewrite <- Ed2 in Hmy.
          assert (0 < d1) by (subst d1; cbn; lia).
          assert (0 < d2) by (subst d2; cbn; lia).
          pose proof (pow2_pos (d1 + s - d2 - 1) ltac:(lia)) as Hp1.
          apply (Z.le_trans _ (2 ^ d2 * 2 ^ (d1 + s - d2 - 1))).
          - apply Z.mul_le_mono_nonneg_r; lia.
          - rewrite <- Z.pow_add_r by lia. rewrite Hm'.
            replace (d2 + (d1 + s - d2 - 1)) with ((d1 - 1) + s) by lia.
            rewrite Z.pow_add_r by lia.
            apply Z.mul_le_mono_nonneg_r; lia. }
        pose proof (Zdigits2_lower (m' / Z.pos my) (d1 + s - d2 - 1) ltac:(lia) Hlow).
        lia. }
    lia.
Qed.

(** The product of a normal double and any value is well-formed. *)
Lemma SFmul_normal_valid (s : bool) (m : positive) (e : Z) (y : number) :
  Z.pos (digits2_pos m) = 53 ->
  is_double (S754_finite s m e * y)%js = true.
Proof.
  intros Hd. destruct y as [sy|sy| |sy my ey]; try reflexivity.
  cbn [SFmul]. apply binary_round_aux_valid; [lia|].
  assert (53 <= Zdigits2 (Z.pos (m * my))).
  { rewrite <- Hd. change (Z.pos (digits2_pos m)) with (Zdigits2 (Z.pos m)).
    apply Zdigits2_mono. nia. }
  unfold fexp, emin, prec, emax. cbn [Zdigits2] in *. lia.
Qed.

Lemma parseFloat_string_valid (s : jsstring) : is_double (parseFloat_string s) = true.
Proof.
  unfold parseFloat_string.
  destruct (span_sign (trimStart s)) as [neg s1].
  destruct (strip_prefix (str "Infinity") s1); [reflexivity|].
  destruct (span_digits s1) as [ip s2].
  destruct (match s2 with
            | 46%N :: s2' => span_digits s2'
            | _ => ([], s2)
            end) as [fp s3].
  destruct (ip ++ fp); [reflexivity|].
  unfold decimal_to_number.
  destruct (digits_value _); try reflexivity. apply SFdiv_valid.
Qed.

Lemma parseFloat_fixed_valid (x : number) (f : nat) :
  is_double x = true -> is_double (parseFloat_fixed (Number_toFixed x f)) = true.
Proof.
  intros Hx. unfold Number_toFixed.
  destruct x as [sx|sx| |sx mx ex]; cbn [parseFloat_fixed parsed];
    try reflexivity; try apply parseFloat_string_valid.
  destruct (_ <=? _); cbn [parseFloat_fixed parsed];
    [exact Hx | apply parseFloat_string_valid].
Qed.

Lemma calculateDistance_valid (math : Math) (lat1 lon1 lat2 lon2 : number) :
  is_double (Index.calculateDistance lat1 lon1 lat2 lon2) = true.
Proof.
  unfold Index.calculateDistance. cbn zeta.
  change (num 6371) with (S754_finite false 7004988580560896 (-40)).
  apply SFmul_normal_valid. reflexivity.
Qed.

(** Every distance list-schools sends is a well-formed double. *)
Lemma annotate_valid (math : Math) (userLat userLon : number) (s : Http.school) :
  is_double (Http.distance (annotate userLat userLon s)) = true.
Proof.
  unfold annotate. cbn [Http.distance].
  apply parseFloat_fixed_valid, calculateDistance_valid.
Qed.

End WellFormed.

(* ================================================================== *)
(** * The two copies of the pure functions *)
(* ================================================================== *)

Section Copies.
Import JS.

(** C9: the duplicated pure functions of the two entry points are
    extensionally equal: for every input, [validateSchoolInput] of
    [src/index.js] returns what [validateSchoolInput] of
    [src/controllers/schoolController.js] returns (the same error list, or
    the same exception), and for every four numbers, under every
    implementation of [Math], the two [calculateDistance] return the same
    Number. *)
Theorem duplicated_functions_agree
    (math : Math) (data : value) (lat1 lon1 lat2 lon2 : number) :
  Index.validateSchoolInput data = Controller.validateSchoolInput data
  /\ Index.calculateDistance lat1 lon1 lat2 lon2
     = Controller.calculateDistance lat1 lon1 lat2 lon2.
Proof. split; reflexivity. Qed.

End Copies.

(* ================================================================== *)
(** * The validator *)
(* ================================================================== *)

Section ValidatorTheorems.
Import JS Http Rules Props Examples.

Lemma text_rule_cases (msg : jsstring) (v : value) :
  text_rule msg v = [] \/ text_rule msg v = [msg].
Proof. unfold text_rule. destruct (has_text v); auto. Qed.

Lemma coordinate_rule_cases (m1 m2 : jsstring) (bound : Z) (v : value) :
  coordinate_rule m1 m2 bound v = []
  \/ coordinate_rule m1 m2 bound v = [m1]
  \/ coordinate_rule m1 m2 bound v = [m2].
Proof.
  unfold coordinate_rule. destruct (logical_not v || isNaN (parsed v)); auto.
  destruct ((parsed v < - num bound)%js || (parsed v > num bound)%js); auto.
Qed.

(** C10: [validateSchoolInput] returns at most one message per field, in
    the fixed order name, address, latitude, longitude; hence at most
    four messages.  It returns for every record but these, at which it
    throws a TypeError: [undefined] and [null]; and a record whose
    latitude or longitude [parseFloat] cannot convert to a string (an
    object with an entry [toString], or an array that holds one).  Both
    copies. *)
Theorem validateSchoolInput_one_error_per_field (data : value) :
  if is_nullish data
     || ToString_throws (property data (str "latitude"))
     || ToString_throws (property data (str "longitude"))
  then
    exists e : error,
      Index.validateSchoolInput data = Throw e
      /\ Controller.validateSchoolInput data = Throw e
      /\ error_name e = str "TypeError"
  else
    exists e_name e_address e_latitude e_longitude : list jsstring,
      Index.validateSchoolInput data
      = Ok (e_name ++ e_address ++ e_latitude ++ e_longitude)
      /\ Controller.validateSchoolInput data
         = Ok (e_name ++ e_address ++ e_latitude ++ e_longitude)
      /\ (e_name = []
          \/ e_name = [str "Name is required and must be a non-empty string"])
      /\ (e_address = []
          \/ e_address = [str "Address is required and must be a non-empty string"])
      /\ (e_latitude = []
          \/ e_latitude = [str "Latitude is required and must be a valid number"]
          \/ e_latitude = [str "Latitude must be between -90 and 90"])
      /\ (e_longitude = []
          \/ e_longitude = [str "Longitude is required and must be a valid number"]
          \/ e_longitude = [str "Longitude must be between -180 and 180"])
      /\ (List.length (e_name ++ e_address ++ e_latitude ++ e_longitude) <= 4)%nat.
Proof.
  rewrite Controller_validateSchoolInput_eq.
  destruct (is_nullish data) eqn:H; cbn [orb].
  { destruct data; try discriminate H; eexists; repeat split; reflexivity. }
  pose proof (validateSchoolInput_rules data H) as Hv.
  destruct (ToString_throws (property data (str "latitude"))
            || ToString_throws (property data (str "longitude"))).
  { exists cannot_convert. repeat split; exact Hv. }
  exists (name_rule (property data (str "name"))),
         (address_rule (property data (str "address"))),
         (latitude_rule (property data (str "latitude"))),
         (longitude_rule (property data (str "longitude"))).
  pose proof (text_rule_cases
    (str "Name is required and must be a non-empty string")
    (property data (str "name"))) as H1.
  pose proof (text_rule_cases
    (str "Address is required and must be a non-empty string")
    (property data (str "address"))) as H2.
  pose proof (coordinate_rule_cases
    (str "Latitude is required and must be a valid number")
    (str "Latitude must be between -90 and 90") 90
    (property data (str "latitude"))) as H3.
  pose proof (coordinate_rule_cases
    (str "Longitude is required and must be a valid number")
    (str "Longitude must be between -180 and 180") 180
    (property data (str "longitude"))) as H4.
  fold name_rule in H1. fold address_rule in H2.
  fold latitude_rule in H3. fold longitude_rule in H4.
  repeat split; try assumption.
  rewrite !length_app.
  destruct H1 as [-> | ->], H2 as [-> | ->], H3 as [-> | [-> | ->]],
           H4 as [-> | [-> | ->]]; cbn; lia.
Qed.

Lemma validateSchoolInput_one_error_per_field_witness :
  exists e_name e_address e_latitude e_longitude : list jsstring,
    Index.validateSchoolInput bad_school
    = Ok (e_name ++ e_address ++ e_latitude ++ e_longitude)
    /\ Controller.validateSchoolInput bad_school
       = Ok (e_name ++ e_address ++ e_latitude ++ e_longitude)
    /\ (e_name = []
        \/ e_name = [str "Name is required and must be a non-empty string"])
    /\ (e_address = []
        \/ e_address = [str "Address is required and must be a non-empty string"])
    /\ (e_latitude = []
        \/ e_latitude = [str "Latitude is required and must be a valid number"]
        \/ e_latitude = [str "Latitude must be between -90 and 90"])
    /\ (e_longitude = []
        \/ e_longitude = [str "Longitude is required and must be a valid number"]
        \/ e_longitude = [str "Longitude must be between -180 and 180"])
    /\ (List.length (e_name ++ e_address ++ e_latitude ++ e_longitude) <= 4)%nat.
Proof. exact (validateSchoolInput_one_error_per_field bad_school). Defined.

(** A record whose latitude is [{"toString": 1}] makes the validator
    throw, in an array too; add-school answers 500 and writes nothing. *)
Lemma validateSchoolInput_throws_at_unconvertible :
  let record latitude :=
    school_record (VString (str "S")) (VString (str "A")) latitude
      (VNumber (num 5)) in
  Index.validateSchoolInput (record unconvertible) = Throw cannot_convert
  /\ Index.validateSchoolInput (record (VArray [VNumber (num 5); unconvertible]))
     = Throw cannot_convert
  /\ Index.addSchool (post (record unconvertible)) production initial
     = (Ok {| status := 500;
              sent := Message false (str "Internal server error") None |},
        initial).
Proof. repeat split; vm_compute; reflexivity. Qed.

End ValidatorTheorems.

(* ================================================================== *)
(** * add-school *)
(* ================================================================== *)

Section AddSchool.
Import JS Http Rules Props Examples.

(** C4: for every input record on which the validator returns at least
    one error, add-school responds 400 with the validator's list, which
    is the complete list (the messages of the four rules, each applied to
    its own field), and the datastore is left as it was: no row, no
    repository call.  Both entry points. *)
Theorem addSchool_invalid_input_400
    (req : request) (env : environment) (w : world) (errors : list jsstring) :
  Index.validateSchoolInput (body req) = Ok errors ->
  errors <> [] ->
  errors = name_rule (property (body req) (str "name"))
           ++ address_rule (property (body req) (str "address"))
           ++ latitude_rule (property (body req) (str "latitude"))
           ++ longitude_rule (property (body req) (str "longitude"))
  /\ Index.addSchool req env w
     = (Ok {| status := 400; sent := Errors false errors |}, w)
  /\ Controller.addSchool req env w
     = (Ok {| status := 400; sent := Errors false errors |}, w).
Proof.
  intros H Hne. split; [apply (validateSchoolInput_Ok _ _ H)|].
  split; apply try_catch_Ok, addSchool_try_invalid; assumption.
Qed.

Lemma addSchool_invalid_input_400_witness :
  let errors :=
    [ str "Name is required and must be a non-empty string";
      str "Address is required and must be a non-empty string";
      str "Latitude is required and must be a valid number";
      str "Longitude must be between -180 and 180" ] in
  Index.validateSchoolInput (body (post bad_school)) = Ok errors
  /\ errors <> []
  /\ Index.addSchool (post bad_school) production initial
     = (Ok {| status := 400; sent := Errors false errors |}, initial)
  /\ Controller.addSchool (post bad_school) production initial
     = (Ok {| status := 400; sent := Errors false errors |}, initial).
Proof.
  intros errors.
  assert (H : Index.validateSchoolInput (body (post bad_school)) = Ok errors)
    by reflexivity.
  assert (Hne : errors <> []) by discriminate.
  split; [exact H|]. split; [exact Hne|].
  apply (addSchool_invalid_input_400 (post bad_school) production initial errors H Hne).
Defined.

(** C3: for every input record on which the validator returns no error,
    and when the repository answers, add-school inserts exactly one row
    (the trimmed name, the trimmed address, the latitude and longitude
    that [parseFloat] reads, under the identifier the datastore assigns)
    and responds 201 with that identifier.  Both entry points. *)
Theorem addSchool_valid_input_201
    (req : request) (env : environment) (w : world) :
  Index.validateSchoolInput (body req) = Ok [] ->
  repository_up env ->
  exists (n a : jsstring) (lat lon : number),
    property (body req) (str "name") = VString n
    /\ property (body req) (str "address") = VString a
    /\ parseFloat (property (body req) (str "latitude")) = Ok lat
    /\ parseFloat (property (body req) (str "longitude")) = Ok lon
    /\ let row :=
         {| id := AUTO_INCREMENT w;
            name := trim n;
            address := trim a;
            latitude := lat;
            longitude := lon |} in
       let created :=
         {| status := 201;
            sent := Created true (str "School added successfully") (id row) |} in
       let w' :=
         {| schools := schools w ++ [row];
            AUTO_INCREMENT := AUTO_INCREMENT w + 1;
            log := log w ++ [GetConnection; insert_of row; Release] |} in
       Index.addSchool req env w = (Ok created, w')
       /\ Controller.addSchool req env w = (Ok created, w').
Proof.
  intros H [Hc Hq].
  destruct (addSchool_try_valid req env w H) as (n & a & En & _ & Ea & _ & Htry).
  destruct (validateSchoolInput_Ok_reads _ _ H) as [Plat Plon].
  exists n, a, (parsed (property (body req) (str "latitude"))),
         (parsed (property (body req) (str "longitude"))).
  split; [exact En|]. split; [exact Ea|].
  split; [exact Plat|]. split; [exact Plon|].
  cbn zeta in *. rewrite Hc, Hq in Htry.
  split; apply try_catch_Ok; exact Htry.
Qed.

Lemma addSchool_valid_input_201_witness :
  Index.validateSchoolInput (body (post delhi_school)) = Ok []
  /\ repository_up production
  /\ exists (n a : jsstring) (lat lon : number),
    property (body (post delhi_school)) (str "name") = VString n
    /\ property (body (post delhi_school)) (str "address") = VString a
    /\ parseFloat (property (body (post delhi_school)) (str "latitude")) = Ok lat
    /\ parseFloat (property (body (post delhi_school)) (str "longitude")) = Ok lon
    /\ let row :=
         {| id := AUTO_INCREMENT initial;
            name := trim n;
            address := trim a;
            latitude := lat;
            longitude := lon |} in
       let created :=
         {| status := 201;
            sent := Created true (str "School added successfully") (id row) |} in
       let w' :=
         {| schools := schools initial ++ [row];
            AUTO_INCREMENT := AUTO_INCREMENT initial + 1;
            log := log initial ++ [GetConnection; insert_of row; Release] |} in
       Index.addSchool (post delhi_school) production initial = (Ok created, w')
       /\ Controller.addSchool (post delhi_school) production initial
          = (Ok created, w').
Proof.
  assert (H : Index.validateSchoolInput (body (post delhi_school)) = Ok [])
    by (vm_compute; reflexivity).
  assert (Hup : repository_up production) by (split; reflexivity).
  split; [exact H|]. split; [exact Hup|].
  apply (addSchool_valid_input_201 (post delhi_school) production initial H Hup).
Defined.

End AddSchool.

(* ================================================================== *)
(** * list-schools: the location check *)
(* ================================================================== *)

Section ListSchoolsValidation.
Import JS Http Rules Props Examples.

(** C6, as the code has it: for every query whose latitude or longitude
    is missing or not numeric ([parseFloat] reads [NaN] in it: so for
    [undefined], and for a string with no numeric prefix) or out of
    range, list-schools responds 400 and makes no repository call: the
    world, its log included, is unchanged.  That is when [parseFloat]
    reads both parameters; when it throws at one (an object with an
    entry [toString], as the query parser makes of
    [latitude[toString]=1]), the response is 500, and again no
    repository call is made.  Both entry points, under every [Engine]. *)
Theorem listSchools_invalid_location_400
    (engine : Engine) (req : request) (env : environment) (w : world) :
  is_nullish (query req) = false ->
  let latitude := property (query req) (str "latitude") in
  let longitude := property (query req) (str "longitude") in
  (forall userLat userLon : number,
     parseFloat latitude = Ok userLat ->
     parseFloat longitude = Ok userLon ->
     invalid_location userLat userLon = true ->
     let rejected :=
       {| status := 400;
          sent := Message false (str "Invalid latitude or longitude provided")
                    None |} in
     Index.listSchools req env w = (Ok rejected, w)
     /\ Controller.listSchools req env w = (Ok rejected, w))
  /\ (forall e : error,
        parseFloat latitude = Throw e \/ parseFloat longitude = Throw e ->
        exists detail : option jsstring,
          Index.listSchools req env w
          = (Ok {| status := 500;
                   sent := Message false (str "Internal server error") detail |},
             w)
          /\ Controller.listSchools req env w
             = (Ok {| status := 500;
                      sent := Message false (str "Internal server error") None |},
                w)).
Proof.
  intros Hq latitude longitude. split.
  - intros userLat userLon Hlat Hlon Hinv rejected.
    pose proof (listSchools_try_eval req env w userLat userLon
                  (query_point_read req _ _ Hq Hlat Hlon)) as Htry.
    rewrite Hinv in Htry.
    split; apply try_catch_Ok; exact Htry.
  - intros e He.
    assert (Hp : query_point req = Throw cannot_convert).
    { rewrite (query_point_eval req Hq). fold latitude longitude.
      destruct He as [He|He]; apply parseFloat_throws in He as [-> _];
        [|rewrite orb_true_r]; reflexivity. }
    pose proof (listSchools_try_throws req env w _ Hp) as Htry.
    eexists. split.
    + unfold Index.listSchools. rewrite (try_catch_Throw _ _ _ _ _ _ Htry).
      reflexivity.
    + unfold Controller.listSchools. rewrite Controller_listSchools_try_eq.
      rewrite (try_catch_Throw _ _ _ _ _ _ Htry). reflexivity.
Qed.

Lemma listSchools_invalid_location_400_witness :
  let req := get "200" "77.2090" in
  let req' := get_values unconvertible_parameter (VString (str "77.2090")) in
  (is_nullish (query req) = false
   /\ exists userLat userLon : number,
        parseFloat (property (query req) (str "latitude")) = Ok userLat
        /\ parseFloat (property (query req) (str "longitude")) = Ok userLon
        /\ invalid_location userLat userLon = true
        /\ Index.listSchools (engine := Series.engine) req production three_schools
           = (Ok {| status := 400;
                    sent := Message false
                              (str "Invalid latitude or longitude provided") None |},
              three_schools)
        /\ Controller.listSchools (engine := Series.engine) req production three_schools
           = (Ok {| status := 400;
                    sent := Message false
                              (str "Invalid latitude or longitude provided") None |},
              three_schools))
  /\ (is_nullish (query req') = false
      /\ parseFloat (property (query req') (str "latitude")) = Throw cannot_convert
      /\ exists detail : option jsstring,
           Index.listSchools (engine := Series.engine) req' production three_schools
           = (Ok {| status := 500;
                    sent := Message false (str "Internal server error") detail |},
              three_schools)
           /\ Controller.listSchools (engine := Series.engine) req' production
                three_schools
              = (Ok {| status := 500;
                       sent := Message false (str "Internal server error") None |},
                 three_schools)).
Proof.
  intros req req'. split.
  - assert (Hq : is_nullish (query req) = false) by reflexivity.
    split; [exact Hq|].
    exists (parseFloat_string (str "200")), (parseFloat_string (str "77.2090")).
    assert (Hlat : parseFloat (property (query req) (str "latitude"))
                   = Ok (parseFloat_string (str "200"))) by reflexivity.
    assert (Hlon : parseFloat (property (query req) (str "longitude"))
                   = Ok (parseFloat_string (str "77.2090"))) by reflexivity.
    assert (Hinv : invalid_location (parseFloat_string (str "200"))
                     (parseFloat_string (str "77.2090")) = true)
      by (vm_compute; reflexivity).
    split; [exact Hlat|]. split; [exact Hlon|]. split; [exact Hinv|].
    apply (proj1 (listSchools_invalid_location_400 Series.engine req production
                    three_schools Hq) _ _ Hlat Hlon Hinv).
  - assert (Hq : is_nullish (query req') = false) by reflexivity.
    assert (Hlat : parseFloat (property (query req') (str "latitude"))
                   = Throw cannot_convert) by reflexivity.
    split; [exact Hq|]. split; [exact Hlat|].
    apply (proj2 (listSchools_invalid_location_400 Series.engine req' production
                    three_schools Hq) _ (or_introl Hlat)).
Defined.

(** C6 fails where a parameter is not numeric and [parseFloat] cannot
    read it: [GET /listSchools?latitude[toString]=1&longitude=77.2090]
    is answered 500, by both entry points.  And a parameter that is text
    after a numeric prefix is read as its prefix:
    [GET /listSchools?latitude=12abc&longitude=77.2090] is answered
    200. *)
Lemma listSchools_answers_500_where_parseFloat_throws :
  let req := get_values unconvertible_parameter (VString (str "77.2090")) in
  Index.listSchools (engine := Series.engine) req production initial
  = (Ok {| status := 500;
           sent := Message false (str "Internal server error") None |},
     initial)
  /\ Controller.listSchools (engine := Series.engine) req production initial
     = (Ok {| status := 500;
              sent := Message false (str "Internal server error") None |},
        initial)
  /\ Index.listSchools (engine := Series.engine) (get "12abc" "77.2090")
       production initial
     = (Ok {| status := 200; sent := Listing true 0 [] |},
        {| schools := []; AUTO_INCREMENT := 1;
           log := [GetConnection; SelectAll; Release] |}).
Proof. repeat split; vm_compute; reflexivity. Qed.

(** A missing query parameter, and one with no numeric prefix, are
    invalid locations; a numeric prefix is enough to be numeric. *)
Lemma parseFloat_examples :
  parseFloat VUndefined = Ok NaN
  /\ parseFloat (VString (str "north")) = Ok NaN
  /\ parseFloat (VString (str "12abc")) = Ok (num 12)
  /\ parseFloat unconvertible_parameter = Throw cannot_convert
  /\ invalid_location (parseFloat_string (str "200")) (num 0) = true.
Proof. repeat split; vm_compute; reflexivity. Qed.

End ListSchoolsValidation.

(* ================================================================== *)
(** * Failures *)
(* ================================================================== *)

Section Failures.
Import JS Http Rules Props Examples Handlers.

Lemma NODE_ENV_development (env : environment) :
  match NODE_ENV env with
  | Some s => jsstring_eqb s (str "development")
  | None => false
  end = true <-> NODE_ENV env = Some (str "development").
Proof.
  destruct (NODE_ENV env) as [s|]; [|split; discriminate].
  rewrite jsstring_eqb_eq. split; [intros ->; reflexivity | congruence].
Qed.

(** C8: for each of the four handlers, whenever the [try] block throws
    (the repository rejects, or the code hits a runtime error), the
    response is 500 with the generic message; the error's own message is
    sent only by the handlers of [src/index.js] and only when [NODE_ENV]
    is ["development"] (there it is sent), never otherwise. *)
Theorem failure_yields_generic_500
    (engine : Engine) (h : handler) (req : request) (env : environment)
    (w w' : world) (error : error) :
  try_block h req env w = (Throw error, w') ->
  exists detail : option jsstring,
    run h req env w
    = (Ok {| status := 500;
             sent := Message false (str "Internal server error") detail |}, w')
    /\ (detail = None
        \/ detail = Some (message error)
           /\ NODE_ENV env = Some (str "development") /\ of_index h = true)
    /\ (NODE_ENV env = Some (str "development") -> of_index h = true ->
        detail = Some (message error)).
Proof.
  intros H.
  assert (Index_case :
    forall block : M response,
      block env w = (Throw error, w') ->
      exists detail : option jsstring,
        try_catch block Index.internal_server_error env w
        = (Ok {| status := 500;
                 sent := Message false (str "Internal server error") detail |}, w')
        /\ (detail = None
            \/ detail = Some (message error)
               /\ NODE_ENV env = Some (str "development") /\ true = true)
        /\ (NODE_ENV env = Some (str "development") -> true = true ->
            detail = Some (message error))).
  { intros block Hb. rewrite (try_catch_Throw _ _ _ _ _ _ Hb).
    unfold Index.internal_server_error, bind, NODE_ENV_is_development, ret.
    pose proof (NODE_ENV_development env) as Hdev.
    destruct (match NODE_ENV env with
              | Some s => jsstring_eqb s (str "development")
              | None => false
              end) eqn:E.
    - exists (Some (message error)). split; [reflexivity|].
      split; [right; repeat split; apply Hdev; reflexivity | auto].
    - exists None. split; [reflexivity|]. split; [left; reflexivity|].
      intros Hd _. apply Hdev in Hd. discriminate. }
  assert (Controller_case :
    forall block : M response,
      block env w = (Throw error, w') ->
      exists detail : option jsstring,
        try_catch block Controller.internal_server_error env w
        = (Ok {| status := 500;
                 sent := Message false (str "Internal server error") detail |}, w')
        /\ (detail = None
            \/ detail = Some (message error)
               /\ NODE_ENV env = Some (str "development") /\ false = true)
        /\ (NODE_ENV env = Some (str "development") -> false = true ->
            detail = Some (message error))).
  { intros block Hb. rewrite (try_catch_Throw _ _ _ _ _ _ Hb).
    exists None. split; [reflexivity|]. split; [left; reflexivity|].
    intros _ Hf. discriminate. }
  destruct h; cbn [try_block run of_index] in *;
    [ apply (Index_case _ H) | apply (Index_case _ H)
    | apply (Controller_case _ H) | apply (Controller_case _ H) ].
Qed.

Lemma failure_yields_generic_500_witness :
  try_block (engine := Series.engine) Index_addSchool (post delhi_school)
    development_database_down initial
  = (Throw ECONNREFUSED, record GetConnection initial)
  /\ exists detail : option jsstring,
    run (engine := Series.engine) Index_addSchool (post delhi_school)
      development_database_down initial
    = (Ok {| status := 500;
             sent := Message false (str "Internal server error") detail |},
       record GetConnection initial)
    /\ (detail = None
        \/ detail = Some (message ECONNREFUSED)
           /\ NODE_ENV development_database_down = Some (str "development")
           /\ of_index Index_addSchool = true)
    /\ (NODE_ENV development_database_down = Some (str "development") ->
        of_index Index_addSchool = true ->
        detail = Some (message ECONNREFUSED)).
Proof.
  assert (H : try_block (engine := Series.engine) Index_addSchool (post delhi_school)
                development_database_down initial
              = (Throw ECONNREFUSED, record GetConnection initial))
    by (vm_compute; reflexivity).
  split; [exact H|].
  apply (failure_yields_generic_500 Series.engine Index_addSchool (post delhi_school)
           development_database_down initial (record GetConnection initial)
           ECONNREFUSED H).
Defined.

(** The failures the [try] blocks can meet: the pool or the query
    rejects once the request has passed validation; a body that is
    [undefined] or [null] makes the validator throw; and so does a
    coordinate that [parseFloat] cannot convert, in the validator and in
    list-schools. *)
Lemma repository_failure_throws
    (engine : Engine) (req : request) (env : environment) (w : world) (e : error) :
  (Index.validateSchoolInput (body req) = Ok [] ->
   getConnection_rejects env = Some e ->
   Index.addSchool_try req env w = (Throw e, record GetConnection w))
  /\ (is_nullish (body req) = true ->
      exists e', Index.addSchool_try req env w = (Throw e', w))
  /\ (forall userLat userLon : number,
      query_point req = Ok (userLat, userLon) ->
      invalid_location userLat userLon = false ->
      getConnection_rejects env = None -> query_rejects env = Some e ->
      Index.listSchools_try req env w
      = (Throw e, record SelectAll (record GetConnection w)))
  /\ (is_nullish (body req) = false ->
      parseFloat (property (body req) (str "latitude")) = Throw e ->
      Index.addSchool_try req env w = (Throw e, w))
  /\ (is_nullish (query req) = false ->
      parseFloat (property (query req) (str "latitude")) = Throw e ->
      Index.listSchools_try req env w = (Throw e, w)).
Proof.
  split; [|split; [|split; [|split]]].
  - intros H Hc.
    destruct (addSchool_try_valid req env w H) as (n & a & _ & _ & _ & _ & Htry).
    cbn zeta in Htry. rewrite Hc in Htry. exact Htry.
  - intros H. destruct (validateSchoolInput_nullish _ H) as [e' He'].
    exists e'. apply addSchool_try_throws, He'.
  - intros userLat userLon Hp Hinv Hc Hs.
    pose proof (listSchools_try_eval req env w _ _ Hp) as Htry.
    rewrite Hinv, Hc, Hs in Htry. exact Htry.
  - intros Hb He. apply parseFloat_throws in He as [He ->].
    apply addSchool_try_throws.
    rewrite (validateSchoolInput_rules _ Hb), He. reflexivity.
  - intros Hq He. apply parseFloat_throws in He as [He ->].
    apply listSchools_try_throws.
    rewrite (query_point_eval _ Hq), He. reflexivity.
Qed.

End Failures.

(* ================================================================== *)
(** * A coordinate of zero *)
(* ================================================================== *)

Section ZeroCoordinate.
Import JS Http Rules Props Examples.

Lemma within_not_NaN (bound : Z) (x : number) :
  within bound x = true -> isNaN x = false.
Proof. destruct x; try reflexivity. rewrite within_NaN. discriminate. Qed.

Lemma within_zero (s : bool) :
  within 90 (S754_zero s) = true /\ within 180 (S754_zero s) = true.
Proof. destruct s; split; reflexivity. Qed.

Lemma valid_location (userLat userLon : number) :
  within 90 userLat = true -> within 180 userLon = true ->
  invalid_location userLat userLon = false.
Proof.
  intros H1 H2. unfold invalid_location.
  rewrite (within_not_NaN _ _ H1), (within_not_NaN _ _ H2), H1, H2. reflexivity.
Qed.

Lemma listSchools_accepted
    (engine : Engine) (req : request) (env : environment) (w : world)
    (userLat userLon : number) :
  query_point req = Ok (userLat, userLon) ->
  repository_up env ->
  invalid_location userLat userLon = false ->
  let listed :=
    {| status := 200;
       sent := Listing true (List.length (schools w))
                 (sorted_listing userLat userLon w) |} in
  let w' :=
    {| schools := schools w;
       AUTO_INCREMENT := AUTO_INCREMENT w;
       log := log w ++ [GetConnection; SelectAll; Release] |} in
  Index.listSchools req env w = (Ok listed, w')
  /\ Controller.listSchools req env w = (Ok listed, w').
Proof.
  intros Hp [Hc Hs] Hv listed w'.
  pose proof (listSchools_try_eval req env w _ _ Hp) as Htry.
  rewrite Hv, Hc, Hs in Htry.
  split; apply try_catch_Ok; exact Htry.
Qed.

(** The records of a listing, without their distances, are the rows of
    the table. *)
Lemma sorted_listing_rows (engine : Engine) (userLat userLon : number) (w : world) :
  Permutation (List.map school_of (sorted_listing userLat userLon w)) (schools w).
Proof.
  unfold sorted_listing.
  rewrite (Permutation_map school_of (Array_sort_perm by_distance _)).
  rewrite map_map. cbn [annotate school_of]. rewrite map_id.
  apply Permutation_refl.
Qed.

(** C1, as the code has it: on the add-school path a latitude or
    longitude that is the Number 0 counts as missing, and the response is
    400 with that field's "is required" message (when [parseFloat] reads
    both coordinates: where it throws at the other one, so does the
    validator); the list-schools path has no such rule: a latitude or
    longitude that parses to 0 is in range, and the request is accepted
    (200 with the records of every row, when the repository answers)
    whenever the other coordinate is in range.  Both entry points. *)
Theorem zero_is_missing_on_add_and_valid_on_list
    (engine : Engine) (req : request) (env : environment) (w : world) :
  is_nullish (body req) = false ->
  is_nullish (query req) = false ->
  repository_up env ->
  let latitude := property (body req) (str "latitude") in
  let longitude := property (body req) (str "longitude") in
  (forall lat lon : number,
     parseFloat latitude = Ok lat -> parseFloat longitude = Ok lon ->
     is_zero_number latitude = true \/ is_zero_number longitude = true ->
     exists errors : list jsstring,
       Index.addSchool req env w
       = (Ok {| status := 400; sent := Errors false errors |}, w)
       /\ Controller.addSchool req env w
          = (Ok {| status := 400; sent := Errors false errors |}, w)
       /\ (is_zero_number latitude = true ->
           In (str "Latitude is required and must be a valid number") errors)
       /\ (is_zero_number longitude = true ->
           In (str "Longitude is required and must be a valid number") errors))
  /\ (forall userLat userLon : number,
        parseFloat (property (query req) (str "latitude")) = Ok userLat ->
        parseFloat (property (query req) (str "longitude")) = Ok userLon ->
        is_zero userLat = true /\ within 180 userLon = true
        \/ within 90 userLat = true /\ is_zero userLon = true ->
        exists listed : list school_with_distance,
          let response :=
            {| status := 200;
               sent := Listing true (List.length (schools w)) listed |} in
          let w' :=
            {| schools := schools w;
               AUTO_INCREMENT := AUTO_INCREMENT w;
               log := log w ++ [GetConnection; SelectAll; Release] |} in
          Index.listSchools req env w = (Ok response, w')
          /\ Controller.listSchools req env w = (Ok response, w')
          /\ Permutation (List.map school_of listed) (schools w)).
Proof.
  intros Hb Hq Hup latitude longitude. split.
  - intros lat lon Plat Plon Hz.
    assert (Hlat : is_zero_number latitude = true ->
              latitude_rule latitude
              = [str "Latitude is required and must be a valid number"]).
    { destruct latitude as [ | | | x | | | ]; try discriminate.
      destruct x; try discriminate. reflexivity. }
    assert (Hlon : is_zero_number longitude = true ->
              longitude_rule longitude
              = [str "Longitude is required and must be a valid number"]).
    { destruct longitude as [ | | | x | | | ]; try discriminate.
      destruct x; try discriminate. reflexivity. }
    pose proof (validateSchoolInput_reads _ Hb
                  (proj1 (parseFloat_inv _ _ Plat))
                  (proj1 (parseFloat_inv _ _ Plon))) as Hv.
    exists (validate (body req)).
    assert (Hne : validate (body req) <> []).
    { intros E. apply validate_nil in E as (_ & _ & E3 & E4).
      fold latitude in E3. fold longitude in E4.
      destruct Hz as [Hz|Hz]; [rewrite (Hlat Hz) in E3 | rewrite (Hlon Hz) in E4];
        discriminate. }
    split; [apply try_catch_Ok, addSchool_try_invalid; assumption|].
    split; [apply try_catch_Ok, addSchool_try_invalid; assumption|].
    unfold validate. fold latitude longitude. split.
    + intros Hz'. rewrite (Hlat Hz'). rewrite !in_app_iff. cbn. auto.
    + intros Hz'. rewrite (Hlon Hz'). rewrite !in_app_iff. cbn. auto.
  - intros userLat userLon Plat Plon Hz.
    exists (sorted_listing userLat userLon w). cbn zeta.
    assert (Hv : invalid_location userLat userLon = false).
    { destruct Hz as [[Hz Hw]|[Hw Hz]]; apply valid_location; try assumption.
      + destruct userLat; try discriminate. apply within_zero.
      + destruct userLon; try discriminate. apply within_zero. }
    destruct (listSchools_accepted engine req env w userLat userLon
                (query_point_read req _ _ Hq Plat Plon) Hup Hv) as [HI HC].
    split; [exact HI|]. split; [exact HC|]. apply sorted_listing_rows.
Qed.

Lemma zero_is_missing_on_add_and_valid_on_list_witness :
  let req :=
    {| body := bad_school;
       query := VObject [ (str "latitude", VString (str "0"));
                          (str "longitude", VString (str "0")) ] |} in
  (is_nullish (body req) = false /\ is_nullish (query req) = false
   /\ repository_up production
   /\ parseFloat (property (body req) (str "latitude")) = Ok (S754_zero false)
   /\ parseFloat (property (body req) (str "longitude")) = Ok (num 200)
   /\ is_zero_number (property (body req) (str "latitude")) = true
   /\ parseFloat (property (query req) (str "latitude")) = Ok (S754_zero false)
   /\ parseFloat (property (query req) (str "longitude")) = Ok (S754_zero false)
   /\ is_zero (S754_zero false) = true /\ within 180 (S754_zero false) = true)
  /\ (exists errors : list jsstring,
       Index.addSchool req production three_schools
       = (Ok {| status := 400; sent := Errors false errors |}, three_schools)
       /\ In (str "Latitude is required and must be a valid number") errors)
  /\ (exists listed : list school_with_distance,
       Index.listSchools (engine := Series.engine) req production three_schools
       = (Ok {| status := 200; sent := Listing true 3 listed |},
          {| schools := schools three_schools;
             AUTO_INCREMENT := 4;
             log := [GetConnection; SelectAll; Release] |})
       /\ Permutation (List.map school_of listed) (schools three_schools)).
Proof.
  intros req.
  assert (Hb : is_nullish (body req) = false) by reflexivity.
  assert (Hq : is_nullish (query req) = false) by reflexivity.
  assert (Hup : repository_up production) by (split; reflexivity).
  assert (Plat : parseFloat (property (body req) (str "latitude"))
                 = Ok (S754_zero false)) by reflexivity.
  assert (Plon : parseFloat (property (body req) (str "longitude"))
                 = Ok (num 200)) by reflexivity.
  assert (Hz : is_zero_number (property (body req) (str "latitude")) = true)
    by reflexivity.
  assert (Qlat : parseFloat (property (query req) (str "latitude"))
                 = Ok (S754_zero false)) by reflexivity.
  assert (Qlon : parseFloat (property (query req) (str "longitude"))
                 = Ok (S754_zero false)) by reflexivity.
  assert (Hl : is_zero (S754_zero false) = true
               /\ within 180 (S754_zero false) = true)
    by (split; reflexivity).
  destruct (zero_is_missing_on_add_and_valid_on_list Series.engine req production
              three_schools Hb Hq Hup) as [Hadd Hlist].
  split; [tauto|]. split.
  - destruct (Hadd _ _ Plat Plon (or_introl Hz)) as (errors & H1 & _ & H3 & _).
    exists errors. split; [exact H1 | exact (H3 Hz)].
  - destruct (Hlist _ _ Qlat Qlon (or_introl Hl)) as (listed & H1 & _ & H3).
    exists listed. split; [exact H1 | exact H3].
Defined.

(** C1 fails on the list path: [GET /listSchools?latitude=0&longitude=0]
    is answered 200, by both entry points. *)
Lemma listSchools_accepts_zero_coordinates :
  Index.listSchools (engine := Series.engine) (get "0" "0") production initial
  = (Ok {| status := 200; sent := Listing true 0 [] |},
     {| schools := []; AUTO_INCREMENT := 1;
        log := [GetConnection; SelectAll; Release] |})
  /\ Controller.listSchools (engine := Series.engine) (get "0" "0") production initial
     = (Ok {| status := 200; sent := Listing true 0 [] |},
        {| schools := []; AUTO_INCREMENT := 1;
           log := [GetConnection; SelectAll; Release] |}).
Proof. split; vm_compute; reflexivity. Qed.

End ZeroCoordinate.

(* ================================================================== *)
(** * The persisted schools *)
(* ================================================================== *)

Section Persisted.
Import JS Http Rules Props Examples.

Lemma new_row_satisfies_constraints (w : world) (data : value) (n a : jsstring) :
  validate data = [] -> trim n <> [] -> trim a <> [] ->
  satisfies_constraints (new_row w data n a).
Proof.
  intros Hv Hn Ha. apply validate_nil in Hv as (_ & _ & H3 & H4).
  apply coordinate_rule_nil in H3 as (_ & N3 & L3 & G3).
  apply coordinate_rule_nil in H4 as (_ & N4 & L4 & G4).
  unfold satisfies_constraints, new_row.
  cbn [name address latitude longitude].
  rewrite !trim_idempotent.
  rewrite (within_spec 90 _ eq_refl N3), (within_spec 180 _ eq_refl N4).
  rewrite L3, G3, L4, G4. repeat split; assumption.
Qed.

Lemma Index_catch_keeps_schools : keeps_schools Index.internal_server_error.
Proof. intros e env w. reflexivity. Qed.

Lemma Controller_catch_keeps_schools : keeps_schools Controller.internal_server_error.
Proof. intros e env w. reflexivity. Qed.

Lemma addSchool_schools (handler : error -> M response) req env w :
  keeps_schools handler ->
  let w' := snd (try_catch (Index.addSchool_try req) handler env w) in
  schools w' = schools w
  \/ exists r, satisfies_constraints r /\ schools w' = schools w ++ [r].
Proof.
  intros Hk. cbn zeta. unfold try_catch.
  destruct (Index.validateSchoolInput (body req)) as [errors|e] eqn:H.
  - destruct errors as [|m errors].
    + destruct (addSchool_try_valid req env w H) as (n & a & _ & Hn & _ & Ha & Htry).
      cbn zeta in Htry. rewrite Htry.
      destruct (getConnection_rejects env) as [e|];
        [left; rewrite Hk; reflexivity|].
      destruct (query_rejects env) as [e|];
        [left; rewrite Hk; reflexivity|].
      right. exists (new_row w (body req) n a). split; [|reflexivity].
      apply new_row_satisfies_constraints; try assumption.
      symmetry. apply (validateSchoolInput_Ok _ _ H).
    + rewrite (addSchool_try_invalid req env w _ H) by discriminate.
      left. reflexivity.
  - rewrite (addSchool_try_throws req env w _ H). left. apply Hk.
Qed.

Lemma listSchools_schools (engine : Engine) (handler : error -> M response) req env w :
  keeps_schools handler ->
  schools (snd (try_catch (Index.listSchools_try req) handler env w)) = schools w.
Proof.
  intros Hk. unfold try_catch.
  destruct (query_point req) as [[userLat userLon]|e] eqn:Hp.
  - rewrite (listSchools_try_eval req env w _ _ Hp).
    destruct (invalid_location _ _); [reflexivity|].
    destruct (getConnection_rejects env) as [e|]; [rewrite Hk; reflexivity|].
    destruct (query_rejects env) as [e|]; [rewrite Hk; reflexivity|].
    reflexivity.
  - rewrite (listSchools_try_throws req env w _ Hp). apply Hk.
Qed.

Lemma reachable_constraints (w : world) :
  reachable w -> Forall satisfies_constraints (schools w).
Proof.
  induction 1 as [ | req env w Hw IH | engine req env w Hw IH
                   | req env w Hw IH | engine req env w Hw IH ].
  - constructor.
  - destruct (addSchool_schools _ req env w Index_catch_keeps_schools)
      as [E | (r & Hr & E)]; unfold Index.addSchool; rewrite E; [exact IH|].
    apply Forall_app. split; [exact IH | apply Forall_cons; [exact Hr | apply Forall_nil]].
  - unfold Index.listSchools.
    rewrite (listSchools_schools engine _ req env w Index_catch_keeps_schools).
    exact IH.
  - destruct (addSchool_schools _ req env w Controller_catch_keeps_schools)
      as [E | (r & Hr & E)]; unfold Controller.addSchool;
      rewrite Controller_addSchool_try_eq, E; [exact IH|].
    apply Forall_app. split; [exact IH | apply Forall_cons; [exact Hr | apply Forall_nil]].
  - unfold Controller.listSchools. rewrite Controller_listSchools_try_eq.
    rewrite (listSchools_schools engine _ req env w Controller_catch_keeps_schools).
    exact IH.
Qed.

Lemma coordinate_rule_stored (m1 m2 : jsstring) (bound : Z) (x : number) :
  isNaN (num bound) = false ->
  within bound x = true ->
  coordinate_rule m1 m2 bound (VNumber x) = if is_zero x then [m1] else [].
Proof.
  intros Hb Hw. pose proof (within_not_NaN _ _ Hw) as Hn.
  unfold coordinate_rule.
  destruct x as [s|s| |s m e]; try discriminate; try reflexivity.
  - cbn [logical_not ToBoolean negb parsed orb is_zero].
    rewrite (within_spec bound _ Hb Hn) in Hw.
    apply negb_true_iff in Hw. rewrite Hw. reflexivity.
  - cbn [logical_not ToBoolean negb parsed orb is_zero].
    rewrite (within_spec bound _ Hb Hn) in Hw.
    apply negb_true_iff in Hw. rewrite Hw. reflexivity.
Qed.

Lemma validate_row (s : school) :
  satisfies_constraints s -> validate (row_object s) = zero_errors s.
Proof.
  intros (Hn & Tn & Ha & Ta & Hlat & Hlon).
  unfold validate, zero_errors.
  change (property (row_object s) (str "name")) with (VString (name s)).
  change (property (row_object s) (str "address")) with (VString (address s)).
  change (property (row_object s) (str "latitude")) with (VNumber (latitude s)).
  change (property (row_object s) (str "longitude")) with (VNumber (longitude s)).
  unfold name_rule, address_rule, text_rule, has_text.
  rewrite Tn, Ta.
  apply jsstring_eqb_nil in Hn, Ha. rewrite Hn, Ha. cbn [negb app].
  unfold latitude_rule, longitude_rule.
  rewrite (coordinate_rule_stored _ _ 90 _ eq_refl Hlat).
  rewrite (coordinate_rule_stored _ _ 180 _ eq_refl Hlon).
  reflexivity.
Qed.

(** X1 (the part of C5 that holds): in every reachable state of the
    datastore every persisted school satisfies the four field constraints
    (non-empty trimmed name and address, latitude in [-90, 90], longitude
    in [-180, 180]); and the validator (either copy), applied to the
    persisted record, reports nothing but the coordinates that are zero. *)
Theorem persisted_schools_satisfy_constraints (w : world) (s : school) :
  reachable w ->
  In s (schools w) ->
  satisfies_constraints s
  /\ Index.validateSchoolInput (row_object s) = Ok (zero_errors s)
  /\ Controller.validateSchoolInput (row_object s) = Ok (zero_errors s).
Proof.
  intros Hw Hs.
  assert (Hc : satisfies_constraints s).
  { apply reachable_constraints in Hw. rewrite Forall_forall in Hw. auto. }
  split; [exact Hc|].
  rewrite Controller_validateSchoolInput_eq.
  rewrite (validateSchoolInput_reads (row_object s) eq_refl eq_refl eq_refl).
  rewrite (validate_row s Hc). split; reflexivity.
Qed.

Lemma persisted_schools_satisfy_constraints_witness :
  let w := snd (Index.addSchool (post delhi_school) production initial) in
  let s :=
    {| id := 1; name := str "Delhi Public School"; address := str "Mathura Road";
       latitude := parseFloat_string (str "28.6139");
       longitude := parseFloat_string (str "77.2090") |} in
  reachable w /\ In s (schools w)
  /\ satisfies_constraints s
  /\ Index.validateSchoolInput (row_object s) = Ok (zero_errors s)
  /\ Controller.validateSchoolInput (row_object s) = Ok (zero_errors s).
Proof.
  intros w s.
  assert (Hw : reachable w)
    by apply reachable_Index_addSchool, reachable_initial.
  assert (Hs : In s (schools w)) by (left; vm_compute; reflexivity).
  split; [exact Hw|]. split; [exact Hs|].
  apply (persisted_schools_satisfy_constraints w s Hw Hs).
Defined.

(** C5: the datastore can hold a record that the validator rejects.
    [POST /addSchool] with latitude ["0"] and longitude ["0"] (strings,
    which pass the validator's [!data.latitude]) is answered 201, and the
    row it leaves in the reachable state has the Numbers 0 as coordinates,
    for which the same check reports both as missing. *)
Lemma datastore_holds_a_record_the_validator_rejects :
  let after := Index.addSchool (post equator_school) production initial in
  let s :=
    {| id := 1; name := str "Equator School"; address := str "Null Island";
       latitude := S754_zero false; longitude := S754_zero false |} in
  reachable (snd after)
  /\ fst after
     = Ok {| status := 201;
             sent := Created true (str "School added successfully") 1 |}
  /\ schools (snd after) = [s]
  /\ Index.validateSchoolInput (row_object s)
     = Ok [ str "Latitude is required and must be a valid number";
            str "Longitude is required and must be a valid number" ].
Proof.
  intros after s. split.
  - apply reachable_Index_addSchool, reachable_initial.
  - repeat split; vm_compute; reflexivity.
Qed.

End Persisted.

(* ================================================================== *)
(** * The distance *)
(* ================================================================== *)

Section Distance.
Import JS Http Props Examples.

Lemma SFsub_diag (x : number) :
  is_finite x = true -> (x - x)%js = S754_zero false.
Proof.
  destruct x as [[|]| | |s m e]; try discriminate; try reflexivity.
  intros _. cbn [SFsub]. rewrite Z.sub_diag. reflexivity.
Qed.

Lemma degrees_swap (x y : number) :
  let d := ((y - x) * Math_PI / num 180)%js in
  let d' := ((x - y) * Math_PI / num 180)%js in
  d = d' \/ d = (- d')%js.
Proof.
  cbn zeta. destruct (SFsub_swap x y) as [E | [E1 E2]].
  - right. rewrite E, SFmul_opp_l, SFdiv_opp_l. reflexivity.
  - left. rewrite E1, E2. reflexivity.
Qed.

Section WithMath.
Context (math : Math).
Hypothesis sin_odd : sin_is_odd math.

Lemma half_sine_swap (c d d' : number) :
  d = d' \/ d = (- d')%js ->
  (c * Math_sin (d / num 2) * Math_sin (d / num 2)
   = c * Math_sin (d' / num 2) * Math_sin (d' / num 2))%js.
Proof.
  intros [-> | ->]; [reflexivity|].
  rewrite SFdiv_opp_l, sin_odd, (SFmul_opp_r c), SFmul_opp_opp. reflexivity.
Qed.

Lemma half_sine_squared_swap (d d' : number) :
  d = d' \/ d = (- d')%js ->
  (Math_sin (d / num 2) * Math_sin (d / num 2)
   = Math_sin (d' / num 2) * Math_sin (d' / num 2))%js.
Proof.
  intros [-> | ->]; [reflexivity|].
  rewrite SFdiv_opp_l, sin_odd, SFmul_opp_opp. reflexivity.
Qed.

Lemma calculateDistance_symmetric (lat1 lon1 lat2 lon2 : number) :
  Index.calculateDistance lat1 lon1 lat2 lon2
  = Index.calculateDistance lat2 lon2 lat1 lon1.
Proof.
  unfold Index.calculateDistance. cbn zeta.
  rewrite (half_sine_squared_swap _ _ (degrees_swap lat1 lat2)).
  rewrite (half_sine_swap _ _ _ (degrees_swap lon1 lon2)).
  rewrite (SFmul_comm (Math_cos (lat1 * Math_PI / num 180)%js)).
  reflexivity.
Qed.

Hypothesis at_zero : exact_at_zero math.

Lemma calculateDistance_diagonal (lat lon : number) :
  is_finite lat = true -> is_finite lon = true ->
  is_finite (cosine_squared lat) = true ->
  Index.calculateDistance lat lon lat lon = S754_zero false.
Proof.
  intros Hlat Hlon Hcos. destruct at_zero as [Hsin Hatan].
  unfold Index.calculateDistance. cbn zeta.
  rewrite (SFsub_diag lat Hlat), (SFsub_diag lon Hlon).
  change (S754_zero false * Math_PI / num 180 / num 2)%js with (S754_zero false).
  rewrite Hsin. fold (cosine_squared lat).
  assert (Ha : (S754_zero false * S754_zero false
                + cosine_squared lat * S754_zero false * S754_zero false)%js
               = S754_zero false).
  { destruct (cosine_squared lat) as [[|]| | |[|] m e]; try discriminate;
      reflexivity. }
  rewrite Ha.
  change (Math_sqrt (S754_zero false)) with (S754_zero false).
  change (Math_sqrt (num 1 - S754_zero false)%js) with (num 1).
  rewrite Hatan. reflexivity.
Qed.

End WithMath.

(** C7: the distance is a function of the two points (and of the
    implementation of [Math], which ECMAScript leaves open): under every
    [Math] whose sine is odd it is symmetric, for all Numbers; and when
    moreover [sin(+0)] and [atan2(+0, 1)] are [+0], as ECMAScript
    requires, it is [+0] from a point to itself, for finite coordinates
    at which the squared cosine of the latitude is finite.  Both
    copies. *)
Theorem calculateDistance_symmetric_and_zero_at_a_point (math : Math) :
  sin_is_odd math ->
  exact_at_zero math ->
  (forall lat1 lon1 lat2 lon2 : number,
     Index.calculateDistance lat1 lon1 lat2 lon2
     = Index.calculateDistance lat2 lon2 lat1 lon1
     /\ Controller.calculateDistance lat1 lon1 lat2 lon2
        = Controller.calculateDistance lat2 lon2 lat1 lon1)
  /\ (forall lat lon : number,
        is_finite lat = true -> is_finite lon = true ->
        is_finite (cosine_squared lat) = true ->
        Index.calculateDistance lat lon lat lon = S754_zero false
        /\ Controller.calculateDistance lat lon lat lon = S754_zero false).
Proof.
  intros Hodd Hzero. split.
  - intros.
    split; exact (calculateDistance_symmetric math Hodd _ _ _ _).
  - intros lat lon H1 H2 H3.
    split; exact (calculateDistance_diagonal math Hzero lat lon H1 H2 H3).
Qed.

Lemma Series_sin_is_odd : sin_is_odd Series.math.
Proof.
  intros x. cbn [Math_sin Series.math]. unfold Series.sin. cbn zeta.
  rewrite SFmul_opp_opp, SFmul_opp_l. reflexivity.
Qed.

Lemma Series_exact_at_zero : exact_at_zero Series.math.
Proof. split; vm_compute; reflexivity. Qed.

Lemma calculateDistance_symmetric_and_zero_at_a_point_witness :
  let delhi := (parseFloat_string (str "28.6139"), parseFloat_string (str "77.2090")) in
  let mumbai := (parseFloat_string (str "19.0760"), parseFloat_string (str "72.8777")) in
  sin_is_odd Series.math /\ exact_at_zero Series.math
  /\ Index.calculateDistance (math := Series.math)
       (fst delhi) (snd delhi) (fst mumbai) (snd mumbai)
     = Index.calculateDistance (math := Series.math)
         (fst mumbai) (snd mumbai) (fst delhi) (snd delhi)
  /\ is_finite (fst delhi) = true /\ is_finite (snd delhi) = true
  /\ is_finite (cosine_squared (math := Series.math) (fst delhi)) = true
  /\ Index.calculateDistance (math := Series.math)
       (fst delhi) (snd delhi) (fst delhi) (snd delhi)
     = S754_zero false.
Proof.
  intros delhi mumbai.
  destruct (calculateDistance_symmetric_and_zero_at_a_point Series.math
              Series_sin_is_odd Series_exact_at_zero) as [Hsym Hzero].
  assert (H1 : is_finite (fst delhi) = true) by (vm_compute; reflexivity).
  assert (H2 : is_finite (snd delhi) = true) by (vm_compute; reflexivity).
  assert (H3 : is_finite (cosine_squared (math := Series.math) (fst delhi)) = true)
    by (vm_compute; reflexivity).
  split; [exact Series_sin_is_odd|]. split; [exact Series_exact_at_zero|].
  split; [apply Hsym|]. repeat (split; [assumption|]).
  apply (Hzero _ _ H1 H2 H3).
Defined.

(** The known value of the specification: from (0, 0) to (0, 1) is
    111.19 km, here with the series implementation of [Math]. *)
Lemma known_distance :
  Number_toFixed
    (Index.calculateDistance (math := Series.math) (num 0) (num 0) (num 0) (num 1)) 2
  = FixedDigits (str "111.19").
Proof. vm_compute. reflexivity. Qed.

End Distance.

(* ================================================================== *)
(** * list-schools: the sorted listing *)
(* ================================================================== *)

Section SortedListing.
Import JS Http Rules Props Examples.

Lemma comparable_spec (x : number) :
  comparable x = true <-> is_double x = true /\ isNaN x = false.
Proof. unfold comparable. rewrite andb_true_iff, negb_true_iff. tauto. Qed.



Lemma by_distance_after (a b : school_with_distance) :
  comparable (distance a) = true -> comparable (distance b) = true ->
  (by_distance a b > num 0)%js = (scaled (distance b) <? scaled (distance a)).
Proof.
  rewrite !comparable_spec. intros [Va Na] [Vb Nb].
  apply SFsub_positive; assumption.
Qed.



Lemma SFltb_opp_zero (x : number) :
  SFltb (- x)%js (S754_zero false) = SFltb (S754_zero false) x.
Proof. destruct x as [[|]|[|]| |[|] m e]; reflexivity. Qed.

Lemma by_distance_before (a b : school_with_distance) :
  comparable (distance a) = true -> comparable (distance b) = true ->
  (by_distance a b < num 0)%js = (scaled (distance a) <? scaled (distance b)).
Proof.
  intros Ha Hb. rewrite <- (by_distance_after b a Hb Ha).
  unfold by_distance. change (num 0) with (S754_zero false).
  destruct (SFsub_swap (distance b) (distance a)) as [E | [E E']].
  - rewrite E. apply SFltb_opp_zero.
  - rewrite E, E'. reflexivity.
Qed.

(** On records whose distances are comparable the comparator is
    consistent: it compares the distances. *)
Lemma by_distance_consistent (l : list school_with_distance) :
  Forall (fun s => comparable (distance s) = true) l ->
  consistent by_distance l = true.
Proof.
  apply (consistent_keys by_distance (fun s => comparable (distance s) = true)
           (fun s => scaled (distance s))).
  - intros a b Ha Hb. apply by_distance_before; assumption.
  - intros a b Ha Hb. apply by_distance_after; assumption.
Qed.






(** The scenario of the specification: of three schools retrieved as
    Delhi, Mumbai, Bengaluru, a caller near Pune is sent Mumbai,
    Bengaluru, Delhi, with their distances and [count] 3. *)
Lemma three_schools_listing :
  fst (Index.listSchools (engine := Series.engine) (get "18.52" "73.85")
         production three_schools)
  = Ok {| status := 200;
          sent := Listing true 3
            [ {| school_of := school_at 2 "Mumbai" "19.0760" "72.8777";
                 distance := parseFloat_string (str "119.57") |};
              {| school_of := school_at 3 "Bengaluru" "12.9716" "77.5946";
                 distance := parseFloat_string (str "735.58") |};
              {| school_of := school_at 1 "Delhi" "28.6139" "77.2090";
                 distance := parseFloat_string (str "1173.24") |} ] |}.
Proof. vm_compute. reflexivity. Qed.

End SortedListing.

(* ================================================================== *)
(** * Every outcome of a request *)
(* ================================================================== *)

Section Outcomes.
Import JS Http Rules Props Handlers Behaviour.
Context {engine : Engine}.

Lemma run_try_catch (h : handler) (req : request) :
  run h req = try_catch (try_block h req) (catch_block h).
Proof. destruct h; reflexivity. Qed.

Lemma try_block_adds (h : handler) (req : request) :
  adds h = true -> try_block h req = Index.addSchool_try req.
Proof. destruct h; intros H; try discriminate; reflexivity. Qed.

Lemma try_block_lists (h : handler) (req : request) :
  adds h = false -> try_block h req = Index.listSchools_try req.
Proof. destruct h; intros H; try discriminate; reflexivity. Qed.

(** The [catch] blocks send the generic 500 and touch nothing. *)
Lemma catch_block_response (h : handler) (e : error) env w :
  exists detail : option jsstring,
    catch_block h e env w = (Ok (server_error detail), w).
Proof.
  destruct h; cbn [catch_block of_index];
    try (exists None; reflexivity).
  all: unfold Index.internal_server_error, bind, NODE_ENV_is_development, ret;
    eexists; reflexivity.
Qed.

Lemma addSchool_outcome (h : handler) req env w :
  adds h = true ->
  exists resp w', run h req env w = (Ok resp, w') /\ add_outcome req env w resp w'.
Proof.
  intros Hh. rewrite run_try_catch, (try_block_adds h req Hh).
  destruct (Index.validateSchoolInput (body req)) as [errors|e] eqn:H.
  - destruct errors as [|m errors].
    + destruct (addSchool_try_valid req env w H) as (n & a & En & _ & Ea & _ & Htry).
      cbn zeta in Htry.
      destruct (getConnection_rejects env) as [e|] eqn:Hc.
      * rewrite (try_catch_Throw _ _ _ _ _ _ Htry).
        destruct (catch_block_response h e env (record GetConnection w)) as [d Hd].
        rewrite Hd. do 2 eexists. split; [reflexivity|].
        eapply add_no_connection; eassumption.
      * destruct (query_rejects env) as [e|] eqn:Hq.
        -- rewrite (try_catch_Throw _ _ _ _ _ _ Htry).
           destruct (catch_block_response h e env
                       (record (insert_of (new_row w (body req) n a))
                          (record GetConnection w))) as [d Hd].
           rewrite Hd. do 2 eexists. split; [reflexivity|].
           eapply add_query_rejected; eassumption.
        -- rewrite (try_catch_Ok _ _ _ _ _ _ Htry).
           do 2 eexists. split; [reflexivity|].
           apply add_created; try assumption. split; assumption.
    + rewrite (try_catch_Ok _ _ _ _ _ _
                 (addSchool_try_invalid req env w _ H ltac:(discriminate))).
      do 2 eexists. split; [reflexivity|].
      apply add_invalid; [assumption | discriminate].
  - rewrite (try_catch_Throw _ _ _ _ _ _ (addSchool_try_throws req env w e H)).
    destruct (catch_block_response h e env w) as [d Hd]. rewrite Hd.
    do 2 eexists. split; [reflexivity|]. eapply add_throws; eassumption.
Qed.

Lemma sorted_listing_length (userLat userLon : number) (w : world) :
  List.length (sorted_listing userLat userLon w) = List.length (schools w).
Proof. unfold sorted_listing. rewrite Array_sort_length, length_map. reflexivity. Qed.

Lemma listSchools_outcome (h : handler) req env w :
  adds h = false ->
  exists resp w', run h req env w = (Ok resp, w') /\ list_outcome req env w resp w'.
Proof.
  intros Hh. rewrite run_try_catch, (try_block_lists h req Hh).
  destruct (query_point req) as [[userLat userLon]|e] eqn:Hp.
  - pose proof (listSchools_try_eval req env w _ _ Hp) as Htry.
    destruct (invalid_location userLat userLon) eqn:Hv.
    + rewrite (try_catch_Ok _ _ _ _ _ _ Htry).
      do 2 eexists. split; [reflexivity|]. eapply list_invalid; eassumption.
    + destruct (getConnection_rejects env) as [e|] eqn:Hc.
      * rewrite (try_catch_Throw _ _ _ _ _ _ Htry).
        destruct (catch_block_response h e env (record GetConnection w)) as [d Hd].
        rewrite Hd. do 2 eexists. split; [reflexivity|].
        eapply list_no_connection; eassumption.
      * destruct (query_rejects env) as [e|] eqn:Hs.
        -- rewrite (try_catch_Throw _ _ _ _ _ _ Htry).
           destruct (catch_block_response h e env
                       (record SelectAll (record GetConnection w))) as [d Hd].
           rewrite Hd. do 2 eexists. split; [reflexivity|].
           eapply list_query_rejected; eassumption.
        -- rewrite (try_catch_Ok _ _ _ _ _ _ Htry).
           exists (listing (sorted_listing userLat userLon w)).
           eexists. split.
           ++ unfold listing. rewrite sorted_listing_length. reflexivity.
           ++ apply list_sent; try assumption. split; assumption.
  - rewrite (try_catch_Throw _ _ _ _ _ _ (listSchools_try_throws req env w e Hp)).
    destruct (catch_block_response h e env w) as [d Hd]. rewrite Hd.
    do 2 eexists. split; [reflexivity|]. eapply list_throws; eassumption.
Qed.

(** What a request does to the table and to the counter. *)
Lemma run_table (h : handler) req env w :
  let w' := snd (run h req env w) in
  (schools w' = schools w /\ AUTO_INCREMENT w' = AUTO_INCREMENT w)
  \/ (exists row : school,
        schools w' = schools w ++ [row]
        /\ id row = AUTO_INCREMENT w
        /\ AUTO_INCREMENT w' = AUTO_INCREMENT w + 1).
Proof.
  cbn zeta. destruct (adds h) eqn:Hh.
  - destruct (addSchool_outcome h req env w Hh) as (resp & w' & Hrun & Hout).
    rewrite Hrun. cbn [snd].
    destruct Hout as [ | | | | n a _ _ _ _]; try (left; split; reflexivity).
    right. exists (new_row w (body req) n a). repeat split.
  - destruct (listSchools_outcome h req env w Hh) as (resp & w' & Hrun & Hout).
    rewrite Hrun. cbn [snd].
    destruct Hout; left; split; reflexivity.
Qed.

End Outcomes.

(* ================================================================== *)
(** * What a request can and cannot do *)
(* ================================================================== *)

Section Requests.
Import JS Http Rules Props Handlers Behaviour.

(** X2: no exception escapes a handler.  For every request and datastore
    state, and whether the repository calls resolve or reject (they are
    taken to settle), each of the four handlers sends exactly one
    response, and it is one of the source's: add-school answers 201 with
    the new identifier, 400 with a non-empty error list, or the generic
    500; list-schools answers 200 with a listing and its length as
    [count], 400 with the location message, or the generic 500. *)
Theorem every_request_is_answered
    (engine : Engine) (h : handler) (req : request) (env : environment) (w : world) :
  exists (resp : response) (w' : world),
    run h req env w = (Ok resp, w')
    /\ if adds h then
         (exists insertId : Z, resp = created insertId)
         \/ (exists errors : list jsstring,
               errors <> [] /\ resp = rejected_record errors)
         \/ (exists detail : option jsstring, resp = server_error detail)
       else
         (exists records : list school_with_distance, resp = listing records)
         \/ resp = rejected_location
         \/ (exists detail : option jsstring, resp = server_error detail).
Proof.
  destruct (adds h) eqn:Hh.
  - destruct (addSchool_outcome h req env w Hh) as (resp & w' & Hrun & Hout).
    exists resp, w'. split; [exact Hrun|].
    destruct Hout; eauto.
  - destruct (listSchools_outcome h req env w Hh) as (resp & w' & Hrun & Hout).
    exists resp, w'. split; [exact Hrun|].
    destruct Hout; eauto.
Qed.

(** X3: the table only grows, and only by the row of a 201.  Whatever
    the request and the environment, a handler leaves the stored rows and
    the identifier counter as they were, unless the response is 201; then
    add-school has appended exactly one row, whose identifier is the
    former value of the counter and the [schoolId] of the response, and
    has advanced the counter by one.  No handler deletes or changes a
    row, and list-schools never writes. *)
Theorem table_grows_only_by_the_created_row
    (engine : Engine) (h : handler) (req : request) (env : environment) (w : world) :
  exists (resp : response) (w' : world),
    run h req env w = (Ok resp, w')
    /\ ((status resp = 201 /\ adds h = true
         /\ exists row : school,
              schools w' = schools w ++ [row]
              /\ id row = AUTO_INCREMENT w
              /\ resp = created (id row)
              /\ AUTO_INCREMENT w' = AUTO_INCREMENT w + 1)
        \/ (status resp <> 201
            /\ schools w' = schools w
            /\ AUTO_INCREMENT w' = AUTO_INCREMENT w)).
Proof.
  destruct (adds h) eqn:Hh.
  - destruct (addSchool_outcome h req env w Hh) as (resp & w' & Hrun & Hout).
    exists resp, w'. split; [exact Hrun|].
    destruct Hout as [ | | | | n a _ _ _ _];
      try (right; repeat split; cbn; congruence).
    left. split; [reflexivity|]. split; [reflexivity|].
    exists (new_row w (body req) n a). repeat split.
  - destruct (listSchools_outcome h req env w Hh) as (resp & w' & Hrun & Hout).
    exists resp, w'. split; [exact Hrun|].
    destruct Hout; right; repeat split; cbn; congruence.
Qed.

(** X4: a request takes at most one connection and runs at most one
    query, its own (the INSERT of add-school, the SELECT of
    list-schools), and only after validation has passed: the repository
    calls it makes are none (400, or 500 when the validator or the
    reading of the query point throws), [getConnection] alone (the pool
    rejects: 500),
    [getConnection] and the query (the query rejects: 500), or
    [getConnection], the query and [release] (200 or 201).  So the
    connection is released exactly when the query succeeds; when the
    query rejects, the connection that was obtained is never released. *)
Theorem connection_is_released_unless_the_query_rejects
    (engine : Engine) (h : handler) (req : request) (env : environment) (w : world) :
  exists (resp : response) (w' : world) (calls : list db_event),
    run h req env w = (Ok resp, w')
    /\ log w' = log w ++ calls
    /\ ((calls = [] /\ (status resp = 400 \/ status resp = 500))
        \/ (calls = [GetConnection]
            /\ getConnection_rejects env <> None /\ status resp = 500)
        \/ (exists q : db_event,
              query_of h q /\ calls = [GetConnection; q]
              /\ getConnection_rejects env = None /\ query_rejects env <> None
              /\ status resp = 500)
        \/ (exists q : db_event,
              query_of h q /\ calls = [GetConnection; q; Release]
              /\ repository_up env
              /\ status resp = (if adds h then 201 else 200))).
Proof.
  destruct (adds h) eqn:Hh.
  - destruct (addSchool_outcome h req env w Hh) as (resp & w' & Hrun & Hout).
    exists resp, w'.
    destruct Hout as [e d _ | errors _ _ | e d _ Hc | n a e d _ _ _ Hc Hq
                     | n a _ _ _ Hup].
    + exists []. rewrite app_nil_r. auto 6.
    + exists []. rewrite app_nil_r. auto 6.
    + exists [GetConnection]. split; [exact Hrun|]. split; [reflexivity|].
      right. left. repeat split. congruence.
    + exists [GetConnection; insert_of (new_row w (body req) n a)].
      split; [exact Hrun|]. split; [cbn; rewrite <- app_assoc; reflexivity|].
      right. right. left. eexists. split; [|repeat split; try eassumption; congruence].
      unfold query_of. rewrite Hh. unfold insert_of. eauto.
    + exists [GetConnection; insert_of (new_row w (body req) n a); Release].
      split; [exact Hrun|]. split; [reflexivity|].
      right. right. right. eexists. split; [|repeat split; apply Hup].
      unfold query_of. rewrite Hh. unfold insert_of. eauto.
  - destruct (listSchools_outcome h req env w Hh) as (resp & w' & Hrun & Hout).
    exists resp, w'.
    destruct Hout as [e d _ | userLat userLon _ _ | userLat userLon e d _ _ Hc
                     | userLat userLon e d _ _ Hc Hq | userLat userLon _ _ Hup].
    + exists []. rewrite app_nil_r. auto 6.
    + exists []. rewrite app_nil_r. auto 6.
    + exists [GetConnection]. split; [exact Hrun|]. split; [reflexivity|].
      right. left. repeat split. congruence.
    + exists [GetConnection; SelectAll].
      split; [exact Hrun|]. split; [cbn; rewrite <- app_assoc; reflexivity|].
      right. right. left. exists SelectAll.
      split; [unfold query_of; rewrite Hh; reflexivity|].
      repeat split; try assumption; congruence.
    + exists [GetConnection; SelectAll; Release].
      split; [exact Hrun|]. split; [reflexivity|].
      right. right. right. exists SelectAll.
      split; [unfold query_of; rewrite Hh; reflexivity|].
      repeat split; apply Hup.
Qed.

End Requests.

(* ================================================================== *)
(** * Identifiers, and a school from its creation to the listing *)
(* ================================================================== *)

Section Identifiers.
Import JS Http Rules Props Handlers Behaviour Examples.

Lemma identifiers_step (engine : Engine) (h : handler) req env w :
  1 <= AUTO_INCREMENT w ->
  identifiers_below_counter w ->
  1 <= AUTO_INCREMENT (snd (run h req env w))
  /\ identifiers_below_counter (snd (run h req env w)).
Proof.
  intros Hc [Hnd Hlt].
  destruct (run_table h req env w) as [[Es Ec] | (row & Es & Ei & Ec)];
    unfold identifiers_below_counter; rewrite Es, Ec.
  - repeat split; assumption.
  - split; [lia|]. split.
    + rewrite map_app. cbn [List.map]. apply NoDup_app; [exact Hnd | | ].
      * repeat constructor. intros [].
      * intros x Hx [<-|[]]. apply in_map_iff in Hx as (s & Es' & Hs).
        rewrite Forall_forall in Hlt. specialize (Hlt s Hs). lia.
    + apply Forall_app. split.
      * eapply Forall_impl; [|exact Hlt]. cbn. intros s Hs. lia.
      * repeat constructor; lia.
Qed.

Lemma reachable_identifiers (w : world) :
  reachable w -> 1 <= AUTO_INCREMENT w /\ identifiers_below_counter w.
Proof.
  induction 1 as [ | req env w Hw [IH1 IH2] | engine req env w Hw [IH1 IH2]
                   | req env w Hw [IH1 IH2] | engine req env w Hw [IH1 IH2] ].
  - split; [cbn; lia|]. split; constructor.
  - apply (identifiers_step Series.engine Index_addSchool req env w IH1 IH2).
  - apply (identifiers_step engine Index_listSchools req env w IH1 IH2).
  - apply (identifiers_step Series.engine Controller_addSchool req env w IH1 IH2).
  - apply (identifiers_step engine Controller_listSchools req env w IH1 IH2).
Qed.

(** X5: identifiers are unique and never reused.  In every state of the
    datastore reachable from the empty table through the four handlers,
    the identifiers of the stored schools are pairwise distinct and lie
    between 1 and the counter, so the identifier the next 201 returns
    (the counter's value) is that of no stored school. *)
Theorem identifiers_are_unique_and_fresh (w : world) :
  reachable w ->
  NoDup (List.map id (schools w))
  /\ Forall (fun s => 1 <= id s < AUTO_INCREMENT w) (schools w)
  /\ ~ In (AUTO_INCREMENT w) (List.map id (schools w)).
Proof.
  intros Hw. destruct (reachable_identifiers w Hw) as [_ [Hnd Hlt]].
  split; [exact Hnd|]. split; [exact Hlt|].
  intros Hin. apply in_map_iff in Hin as (s & Es & Hs).
  rewrite Forall_forall in Hlt. specialize (Hlt s Hs). lia.
Qed.

Lemma identifiers_are_unique_and_fresh_witness :
  let w := snd (Controller.addSchool (post delhi_school) production
                  (snd (Index.addSchool (post equator_school) production initial))) in
  reachable w
  /\ List.map id (schools w) = [1; 2]
  /\ AUTO_INCREMENT w = 3
  /\ NoDup (List.map id (schools w))
  /\ Forall (fun s => 1 <= id s < AUTO_INCREMENT w) (schools w)
  /\ ~ In (AUTO_INCREMENT w) (List.map id (schools w)).
Proof.
  intros w.
  assert (Hw : reachable w)
    by apply reachable_Controller_addSchool, reachable_Index_addSchool,
             reachable_initial.
  split; [exact Hw|].
  split; [vm_compute; reflexivity|]. split; [vm_compute; reflexivity|].
  apply (identifiers_are_unique_and_fresh w Hw).
Defined.

End Identifiers.

Section CreatedThenListed.
Import JS Http Rules Props Handlers Behaviour Examples.

Lemma Permutation_filter {A} (p : A -> bool) (l l' : list A) :
  Permutation l l' -> Permutation (filter p l) (filter p l').
Proof.
  induction 1 as [ | x l l' _ IH | x y l | l l' l'' _ IH1 _ IH2 ]; cbn [filter].
  - constructor.
  - destruct (p x); [apply perm_skip|]; exact IH.
  - destruct (p x), (p y); try apply Permutation_refl. apply perm_swap.
  - exact (Permutation_trans IH1 IH2).
Qed.

Lemma filter_fresh_identifier
    (engine : Engine) (userLat userLon : number) (counter : Z) (l : list school) :
  Forall (fun s => 1 <= id s < counter) l ->
  filter (fun r => id (school_of r) =? counter)
    (List.map (annotate userLat userLon) l) = [].
Proof.
  induction 1 as [|s l Hs _ IH]; [reflexivity|].
  cbn [List.map filter annotate school_of].
  destruct (Z.eqb_spec (id s) counter) as [E|_]; [lia | exact IH].
Qed.

(** The one outcome of add-school for a valid record, when the repository
    answers. *)
Lemma addSchool_created (engine : Engine) (h : handler) req env w :
  adds h = true ->
  Index.validateSchoolInput (body req) = Ok [] ->
  repository_up env ->
  exists n a : jsstring,
    property (body req) (str "name") = VString n
    /\ property (body req) (str "address") = VString a
    /\ run h req env w
       = (Ok (created (AUTO_INCREMENT w)),
          {| schools := schools w ++ [new_row w (body req) n a];
             AUTO_INCREMENT := AUTO_INCREMENT w + 1;
             log := log w ++ [GetConnection; insert_of (new_row w (body req) n a);
                              Release] |}).
Proof.
  intros Hh Hv [Hc Hq].
  destruct (addSchool_outcome h req env w Hh) as (resp & w' & Hrun & Hout).
  destruct Hout as [e d H | errors H Hne | e d _ Hc' | n a e d _ _ _ _ Hq'
                   | n a _ En Ea _]; try congruence.
  exists n, a. repeat split; assumption.
Qed.

(** The one outcome of list-schools for a valid location, when the
    repository answers. *)
Lemma listSchools_sent (engine : Engine) (h : handler) req env w
    (userLat userLon : number) :
  adds h = false ->
  query_point req = Ok (userLat, userLon) ->
  repository_up env ->
  invalid_location userLat userLon = false ->
  run h req env w
  = (Ok (listing (sorted_listing userLat userLon w)),
     {| schools := schools w;
        AUTO_INCREMENT := AUTO_INCREMENT w;
        log := log w ++ [GetConnection; SelectAll; Release] |}).
Proof.
  intros Hh Hp [Hc Hq] Hv.
  destruct (listSchools_outcome h req env w Hh) as (resp & w' & Hrun & Hout).
  destruct Hout as [e d Hp' | lat lon Hp' Hv' | lat lon e d Hp' _ Hc'
                   | lat lon e d Hp' _ _ Hq' | lat lon Hp' _ _];
    congruence.
Qed.

(** X6: a school can be read back under the identifier add-school
    returned.  From a reachable state, when a valid record is added (201
    with [schoolId]) and list-schools is then asked from any valid
    location, the repository answering both times, the listing has one
    record more than the table had, and exactly one of its records
    carries that [schoolId]: the row the INSERT has stored under it, with
    its distance from the query point.  Any add-school handler with any
    list-schools handler. *)
Theorem created_school_is_listed_under_its_identifier
    (engine : Engine) (h_add h_list : handler) (add_request list_request : request)
    (env : environment) (w : world) (userLat userLon : number) :
  reachable w ->
  adds h_add = true -> adds h_list = false ->
  Index.validateSchoolInput (body add_request) = Ok [] ->
  repository_up env ->
  is_nullish (query list_request) = false ->
  parseFloat (property (query list_request) (str "latitude")) = Ok userLat ->
  parseFloat (property (query list_request) (str "longitude")) = Ok userLon ->
  within 90 userLat = true -> within 180 userLon = true ->
  exists (schoolId : Z) (row : school) (w1 w2 : world)
         (listed : list school_with_distance),
    run h_add add_request env w = (Ok (created schoolId), w1)
    /\ schools w1 = schools w ++ [row]
    /\ id row = schoolId
    /\ run h_list list_request env w1 = (Ok (listing listed), w2)
    /\ List.length listed = S (List.length (schools w))
    /\ filter (fun r => id (school_of r) =? schoolId) listed
       = [annotate userLat userLon row].
Proof.
  intros Hw Ha Hl Hv Hup Hq Plat Plon Hlat Hlon.
  destruct (addSchool_created engine h_add add_request env w Ha Hv Hup)
    as (n & a & En & Ea & Hadd).
  set (row := new_row w (body add_request) n a) in *.
  set (w1 := {| schools := schools w ++ [row];
                AUTO_INCREMENT := AUTO_INCREMENT w + 1;
                log := log w ++ [GetConnection; insert_of row; Release] |}) in *.
  pose proof (listSchools_sent engine h_list list_request env w1 userLat userLon Hl
                (query_point_read _ _ _ Hq Plat Plon) Hup
                (valid_location _ _ Hlat Hlon)) as Hlist.
  exists (AUTO_INCREMENT w), row, w1. eexists. eexists.
  split; [exact Hadd|]. split; [reflexivity|]. split; [reflexivity|].
  split; [exact Hlist|]. split.
  - rewrite sorted_listing_length. cbn [schools w1].
    rewrite length_app. cbn [List.length]. lia.
  - apply Permutation_length_1_inv. symmetry.
    unfold sorted_listing.
    rewrite (Permutation_filter _ _ _ (Array_sort_perm by_distance _)).
    cbn [schools w1]. rewrite map_app, filter_app.
    assert (Hold : filter (fun r => id (school_of r) =? AUTO_INCREMENT w)
                     (List.map (annotate userLat userLon) (schools w)) = []).
    { destruct (reachable_identifiers w Hw) as [_ [_ Hlt]].
      apply filter_fresh_identifier, Hlt. }
    rewrite Hold. cbn [List.map filter app annotate school_of row new_row id].
    rewrite Z.eqb_refl. apply Permutation_refl.
Qed.

Lemma created_school_is_listed_under_its_identifier_witness :
  let list_request := get "18.52" "73.85" in
  let userLat := parseFloat_string (str "18.52") in
  let userLon := parseFloat_string (str "73.85") in
  exists (schoolId : Z) (row : school) (w1 w2 : world)
         (listed : list school_with_distance),
    run (engine := Series.engine) Controller_addSchool (post delhi_school)
      production initial
    = (Ok (created schoolId), w1)
    /\ schools w1 = schools initial ++ [row]
    /\ id row = schoolId
    /\ run (engine := Series.engine) Index_listSchools list_request production w1
       = (Ok (listing listed), w2)
    /\ List.length listed = S (List.length (schools initial))
    /\ filter (fun r => id (school_of r) =? schoolId) listed
       = [annotate (math := Series.math) userLat userLon row].
Proof.
  intros list_request userLat userLon.
  apply (created_school_is_listed_under_its_identifier Series.engine
           Controller_addSchool Index_listSchools (post delhi_school) list_request
           production initial userLat userLon).
  - apply reachable_initial.
  - reflexivity.
  - reflexivity.
  - vm_compute. reflexivity.
  - split; reflexivity.
  - reflexivity.
  - reflexivity.
  - reflexivity.
  - vm_compute. reflexivity.
  - vm_compute. reflexivity.
Defined.

(** X7: list-schools returns the table, whole and unaltered.  Whenever a
    list-schools handler answers 200 (whatever the distances, [NaN]
    included), the response is a listing whose [count] is its length and
    the number of stored rows; without their distances its records are
    the stored rows, each exactly once, none altered; and the distance of
    each record is the one computed from the query point and that
    record's own coordinates. *)
Theorem listing_returns_every_row
    (engine : Engine) (h : handler) (req : request) (env : environment)
    (w w' : world) (resp : response) :
  adds h = false ->
  run h req env w = (Ok resp, w') ->
  status resp = 200 ->
  let userLat := parsed (property (query req) (str "latitude")) in
  let userLon := parsed (property (query req) (str "longitude")) in
  exists listed : list school_with_distance,
    sent resp = Listing true (List.length listed) listed
    /\ List.length listed = List.length (schools w)
    /\ Permutation (List.map school_of listed) (schools w)
    /\ Forall (fun r => r = annotate userLat userLon (school_of r)) listed.
Proof.
  intros Hh Hrun Hs userLat userLon.
  destruct (listSchools_outcome h req env w Hh) as (resp' & w'' & Hrun' & Hout).
  rewrite Hrun in Hrun'. injection Hrun' as <- <-.
  destruct Hout as [ | | | | lat lon Hp _ _]; try discriminate Hs.
  destruct (query_point_parsed _ _ _ Hp) as [-> ->]. fold userLat userLon.
  exists (sorted_listing userLat userLon w).
  split; [reflexivity|]. split; [apply sorted_listing_length|].
  split; [apply sorted_listing_rows|].
  unfold sorted_listing.
  apply (Permutation_Forall (Permutation_sym (Array_sort_perm by_distance _))).
  apply Forall_forall. intros r Hr.
  apply in_map_iff in Hr as (s & <- & _). reflexivity.
Qed.

Lemma listing_returns_every_row_witness :
  let req := get "18.52" "73.85" in
  let userLat := parsed (property (query req) (str "latitude")) in
  let userLon := parsed (property (query req) (str "longitude")) in
  let out := run (engine := Series.engine) Controller_listSchools req production
               three_schools in
  exists resp : response,
    fst out = Ok resp
    /\ status resp = 200
    /\ exists listed : list school_with_distance,
         sent resp = Listing true (List.length listed) listed
         /\ List.length listed = List.length (schools three_schools)
         /\ Permutation (List.map school_of listed) (schools three_schools)
         /\ Forall (fun r => r = annotate (math := Series.math) userLat userLon
                                   (school_of r)) listed.
Proof.
  intros req userLat userLon out.
  assert (Hrun : out
                 = (Ok (listing (sorted_listing (engine := Series.engine)
                                   userLat userLon three_schools)),
                    {| schools := schools three_schools;
                       AUTO_INCREMENT := AUTO_INCREMENT three_schools;
                       log := log three_schools
                              ++ [GetConnection; SelectAll; Release] |})).
  { apply (listSchools_sent Series.engine Controller_listSchools req production
             three_schools);
      [reflexivity | reflexivity | split; reflexivity | vm_compute; reflexivity]. }
  eexists. split; [rewrite Hrun; reflexivity|]. split; [reflexivity|].
  apply (listing_returns_every_row Series.engine Controller_listSchools req production
           three_schools _ _ eq_refl Hrun eq_refl).
Defined.

End CreatedThenListed.

(* ================================================================== *)
(** * What the validator accepts *)
(* ================================================================== *)

Section Acceptance.
Import JS Http Rules Props Handlers Behaviour Examples.

Lemma text_rule_accepts (msg : jsstring) (v : value) :
  text_rule msg v = [] <-> has_text v = true.
Proof.
  unfold text_rule. destruct (has_text v); split; congruence.
Qed.

(** Where [parseFloat] reads the value, the rule of a coordinate passes
    exactly when the value is truthy and parses into the range. *)
Lemma coordinate_rule_accepts (m1 m2 : jsstring) (bound : Z) (v : value) :
  isNaN (num bound) = false ->
  ToString_throws v = false ->
  coordinate_rule m1 m2 bound v = [] <-> present_within bound v = true.
Proof.
  intros Hb Hv. unfold coordinate_rule, present_within, logical_not.
  rewrite (parseFloat_Ok v Hv).
  destruct (ToBoolean v); cbn [negb orb andb]; [|split; discriminate].
  destruct (isNaN (parsed v)) eqn:Hn.
  - split; [discriminate|]. intros H. apply within_not_NaN in H. congruence.
  - rewrite (within_spec bound _ Hb Hn).
    destruct ((parsed v < - num bound)%js || (parsed v > num bound)%js);
      split; cbn; congruence.
Qed.

Lemma present_within_reads (bound : Z) (v : value) :
  present_within bound v = true -> ToString_throws v = false.
Proof.
  unfold present_within, parseFloat.
  destruct (ToString_throws v); [discriminate | reflexivity].
Qed.

(** A falsy value that parses is the Number zero: the other falsy values
    ([undefined], [null], [false], [NaN], the empty string) parse to
    [NaN]. *)
Lemma falsy_parses_only_at_zero (v : value) :
  ToBoolean v = false -> isNaN (parsed v) = false -> is_zero_number v = true.
Proof.
  destruct v as [ | | b | x | s | l | ps]; cbn; try discriminate.
  - destruct x; cbn; congruence.
  - destruct s; [cbn; discriminate | discriminate].
Qed.

Lemma present_within_spec (bound : Z) (v : value) :
  ToString_throws v = false ->
  present_within bound v
  = within bound (parsed v) && negb (is_zero_number v).
Proof.
  intros Hv. unfold present_within. rewrite (parseFloat_Ok v Hv).
  destruct (within bound (parsed v)) eqn:Hw;
    [|rewrite andb_false_r; reflexivity].
  rewrite andb_true_r. cbn [andb].
  destruct (ToBoolean v) eqn:Ht.
  - destruct v as [ | | b | x | s | l | ps]; try reflexivity.
    destruct x; try reflexivity; discriminate.
  - rewrite (falsy_parses_only_at_zero v Ht (within_not_NaN _ _ Hw)).
    reflexivity.
Qed.

Lemma validate_accepts (data : value) :
  ToString_throws (property data (str "latitude")) = false ->
  ToString_throws (property data (str "longitude")) = false ->
  validate data = []
  <-> has_text (property data (str "name")) = true
      /\ has_text (property data (str "address")) = true
      /\ present_within 90 (property data (str "latitude")) = true
      /\ present_within 180 (property data (str "longitude")) = true.
Proof.
  intros Tlat Tlon.
  unfold validate, name_rule, address_rule, latitude_rule, longitude_rule.
  split.
  - intros H. apply app_eq_nil in H as [H1 H].
    apply app_eq_nil in H as [H2 H]. apply app_eq_nil in H as [H3 H4].
    apply text_rule_accepts in H1, H2.
    apply (coordinate_rule_accepts _ _ 90 _ eq_refl Tlat) in H3.
    apply (coordinate_rule_accepts _ _ 180 _ eq_refl Tlon) in H4.
    repeat split; assumption.
  - intros (H1 & H2 & H3 & H4).
    apply (text_rule_accepts
             (str "Name is required and must be a non-empty string")) in H1.
    apply (text_rule_accepts
             (str "Address is required and must be a non-empty string")) in H2.
    apply (coordinate_rule_accepts
             (str "Latitude is required and must be a valid number")
             (str "Latitude must be between -90 and 90") 90 _ eq_refl Tlat) in H3.
    apply (coordinate_rule_accepts
             (str "Longitude is required and must be a valid number")
             (str "Longitude must be between -180 and 180") 180 _ eq_refl Tlon)
      in H4.
    rewrite H1, H2, H3, H4. reflexivity.
Qed.

(** X8: the records the validator accepts.  [validateSchoolInput]
    returns no error exactly for a value that is neither [undefined] nor
    [null], whose name and address are strings with a character other
    than white space, and whose latitude and longitude are truthy values
    that [parseFloat] reads (it throws at none of the two) as a Number
    in [[-90, 90]] and in [[-180, 180]], bounds included.  Both
    copies. *)
Theorem validateSchoolInput_accepts_exactly_the_acceptable (data : value) :
  (Index.validateSchoolInput data = Ok [] <-> acceptable data = true)
  /\ (Controller.validateSchoolInput data = Ok [] <-> acceptable data = true).
Proof.
  assert (H : Index.validateSchoolInput data = Ok [] <-> acceptable data = true).
  { unfold acceptable. destruct (is_nullish data) eqn:Hn.
    - destruct (validateSchoolInput_nullish data Hn) as [e He]. rewrite He.
      split; discriminate.
    - rewrite (validateSchoolInput_rules data Hn). cbn [negb andb].
      rewrite !andb_true_iff.
      destruct (ToString_throws (property data (str "latitude"))) eqn:Tlat.
      { split; [discriminate|]. intros [[_ H] _].
        apply present_within_reads in H. congruence. }
      destruct (ToString_throws (property data (str "longitude"))) eqn:Tlon.
      { split; [discriminate|]. intros [_ H].
        apply present_within_reads in H. congruence. }
      cbn [orb]. split.
      + intros H. injection H as H. apply (validate_accepts _ Tlat Tlon) in H.
        tauto.
      + intros H. f_equal. apply (validate_accepts _ Tlat Tlon). tauto. }
  split; [exact H|]. rewrite Controller_validateSchoolInput_eq. exact H.
Qed.

(** X9: add-school and list-schools reject the same coordinates, the
    Number zero apart.  Take a record whose name and address have text
    and a query with the same latitude and longitude values, neither of
    them the Number [+0] or [-0] (a query string holds no Number).  Then
    add-school answers 400 exactly when list-schools answers 400, under
    every environment: the two coordinate checks differ at zero only. *)
Theorem add_and_list_reject_the_same_coordinates
    (engine : Engine) (h_add h_list : handler) (add_request list_request : request)
    (env : environment) (w : world) :
  adds h_add = true -> adds h_list = false ->
  is_nullish (body add_request) = false ->
  is_nullish (query list_request) = false ->
  has_text (property (body add_request) (str "name")) = true ->
  has_text (property (body add_request) (str "address")) = true ->
  property (body add_request) (str "latitude")
  = property (query list_request) (str "latitude") ->
  property (body add_request) (str "longitude")
  = property (query list_request) (str "longitude") ->
  is_zero_number (property (query list_request) (str "latitude")) = false ->
  is_zero_number (property (query list_request) (str "longitude")) = false ->
  exists (added listed : response) (w1 w2 : world),
    run h_add add_request env w = (Ok added, w1)
    /\ run h_list list_request env w = (Ok listed, w2)
    /\ (status added = 400 <-> status listed = 400).
Proof.
  intros Ha Hl Hb Hq Hn Had Elat Elon Zlat Zlon.
  destruct (addSchool_outcome h_add add_request env w Ha)
    as (added & w1 & Hadd & Oadd).
  destruct (listSchools_outcome h_list list_request env w Hl)
    as (listed & w2 & Hlist & Olist).
  exists added, listed, w1, w2. split; [exact Hadd|]. split; [exact Hlist|].
  set (lat := property (query list_request) (str "latitude")) in *.
  set (lon := property (query list_request) (str "longitude")) in *.
  pose proof (validateSchoolInput_rules _ Hb) as Hv.
  pose proof (query_point_eval _ Hq) as Hp.
  rewrite Elat, Elon in Hv. fold lat lon in Hv, Hp.
  destruct (ToString_throws lat || ToString_throws lon) eqn:Ht.
  - (* [parseFloat] throws at a coordinate: 500 on both paths *)
    assert (HA : status added = 500).
    { destruct Oadd as [e d H | errors H Hne | e d H _ | n a e d H _ _ _ _
                       | n a H _ _ _]; rewrite Hv in H; try discriminate H.
      reflexivity. }
    assert (HL : status listed = 500).
    { destruct Olist as [e d H | ? ? H _ | ? ? e d H _ _ | ? ? e d H _ _ _
                        | ? ? H _ _]; rewrite Hp in H; try discriminate H.
      reflexivity. }
    rewrite HA, HL. split; discriminate.
  - apply orb_false_iff in Ht as [Tlat Tlon].
    assert (Hiff : validate (body add_request) = []
                   <-> invalid_location (parsed lat) (parsed lon) = false).
    { rewrite validate_accepts, Elat, Elon by (rewrite ?Elat, ?Elon; assumption).
      fold lat lon.
      rewrite !present_within_spec, Zlat, Zlon by assumption.
      rewrite !andb_true_r. unfold invalid_location.
      rewrite !orb_false_iff, !negb_false_iff. split.
      - intros (_ & _ & H3 & H4).
        rewrite (within_not_NaN _ _ H3), (within_not_NaN _ _ H4). auto.
      - intros [[[_ _] H3] H4]. auto. }
    assert (HA : status added = 400 <-> validate (body add_request) <> []).
    { destruct Oadd as [e d H | errors H Hne | e d H _ | n a e d H _ _ _ _
                       | n a H _ _ _]; rewrite Hv in H; try discriminate H;
        injection H as H; cbn [status created rejected_record server_error].
      - split; [congruence | reflexivity].
      - split; [discriminate | congruence].
      - split; [discriminate | congruence].
      - split; [discriminate | congruence]. }
    assert (HL : status listed = 400
                 <-> invalid_location (parsed lat) (parsed lon) = true).
    { destruct Olist as [e d H | ? ? H Hi | ? ? e d H Hi _ | ? ? e d H Hi _ _
                        | ? ? H Hi _]; rewrite Hp in H; try discriminate H;
        injection H as <- <-;
        cbn [status listing rejected_location server_error]; rewrite Hi.
      - split; reflexivity.
      - split; discriminate.
      - split; discriminate.
      - split; discriminate. }
    rewrite HA, HL, Hiff.
    destruct (invalid_location (parsed lat) (parsed lon));
      split; congruence.
Qed.

Lemma add_and_list_reject_the_same_coordinates_witness :
  let coordinates :=
    [ (str "latitude", VString (str "200"));
      (str "longitude", VString (str "77.2090")) ] in
  let req :=
    {| body := VObject ((str "name", VString (str "Delhi Public School"))
                        :: (str "address", VString (str "Mathura Road"))
                        :: coordinates);
       query := VObject coordinates |} in
  exists (added listed : response) (w1 w2 : world),
    run (engine := Series.engine) Index_addSchool req production three_schools
    = (Ok added, w1)
    /\ run (engine := Series.engine) Controller_listSchools req production three_schools
       = (Ok listed, w2)
    /\ (status added = 400 <-> status listed = 400).
Proof.
  intros coordinates req.
  apply (add_and_list_reject_the_same_coordinates Series.engine
           Index_addSchool Controller_listSchools req req production three_schools);
    reflexivity.
Defined.

End Acceptance.

(* ================================================================== *)
(** * The two entry points, and the fields a handler reads *)
(* ================================================================== *)

Section EntryPoints.
Import JS Http Rules Props Handlers Behaviour Examples.

(** X10: the two entry points answer alike.  For every request,
    environment and datastore state, a handler of [src/index.js] and the
    handler of [src/controllers/schoolController.js] for the same route
    leave the same state and send the same response, except that the 500
    of [src/index.js] carries the error's message when [NODE_ENV] is
    ["development"]; under any other [NODE_ENV] the responses are equal. *)
Theorem entry_points_differ_only_in_the_error_detail
    (engine : Engine) (h : handler) (req : request) (env : environment) (w : world) :
  exists (resp resp' : response) (w' : world),
    run h req env w = (Ok resp, w')
    /\ run (counterpart h) req env w = (Ok resp', w')
    /\ (resp = resp'
        \/ (of_index h = true
            /\ NODE_ENV env = Some (str "development")
            /\ exists e : error,
                 try_block h req env w = (Throw e, w')
                 /\ resp = server_error (Some (message e))
                 /\ resp' = server_error None)).
Proof.
  assert (Hblock : try_block (counterpart h) req = try_block h req)
    by (destruct h; reflexivity).
  rewrite !run_try_catch, Hblock. unfold try_catch.
  destruct (try_block h req env w) as [[resp|e] w'] eqn:Htry.
  - exists resp, resp, w'. auto.
  - destruct h; cbn [catch_block counterpart of_index].
    3,4: eexists _, _, _; split; [reflexivity|]; split; [reflexivity|];
         left; reflexivity.
    all: unfold Index.internal_server_error, Controller.internal_server_error,
           bind, NODE_ENV_is_development, ret;
      pose proof (NODE_ENV_development env) as Hdev;
      destruct (match NODE_ENV env with
                | Some s => jsstring_eqb s (str "development")
                | None => false
                end);
      eexists _, _, _; (split; [reflexivity|]); (split; [reflexivity|]);
      [ right; split; [reflexivity|]; split; [apply Hdev; reflexivity|];
        exists e; repeat split
      | left; reflexivity ].
Qed.

Lemma same_coordinate_parsed (v v' : value) :
  same_coordinate v v' ->
  ToBoolean v = ToBoolean v'
  /\ ToString_throws v = ToString_throws v'
  /\ (ToString_throws v = false -> parsed v = parsed v').
Proof.
  intros [B P]. split; [exact B|]. unfold parseFloat in P.
  destruct (ToString_throws v), (ToString_throws v'); try discriminate P.
  - split; [reflexivity | discriminate].
  - split; [reflexivity|]. intros _. congruence.
Qed.

(** The [try] blocks look at a coordinate through [!] and [parseFloat]
    only, and at no field but theirs. *)
Lemma try_block_of_parsed_coordinates
    (engine : Engine) (h : handler) (req req' : request) (env : environment) (w : world) :
  is_nullish (input_of h req) = false ->
  is_nullish (input_of h req') = false ->
  (adds h = true ->
   property (body req) (str "name") = property (body req') (str "name")
   /\ property (body req) (str "address") = property (body req') (str "address")) ->
  same_coordinate (property (input_of h req) (str "latitude"))
                  (property (input_of h req') (str "latitude")) ->
  same_coordinate (property (input_of h req) (str "longitude"))
                  (property (input_of h req') (str "longitude")) ->
  try_block h req env w = try_block h req' env w.
Proof.
  intros Hn Hn' Htext Hlat Hlon.
  pose proof Hlat as [_ Plat]. pose proof Hlon as [_ Plon].
  apply same_coordinate_parsed in Hlat as (Blat & Tlat & Vlat).
  apply same_coordinate_parsed in Hlon as (Blon & Tlon & Vlon).
  unfold input_of in *. destruct (adds h) eqn:Hh.
  - destruct (Htext eq_refl) as [E1 E2].
    rewrite !(try_block_adds h _ Hh). unfold Index.addSchool_try, bind, lift.
    rewrite !(validateSchoolInput_rules _ Hn), !(validateSchoolInput_rules _ Hn').
    rewrite <- Tlat, <- Tlon.
    destruct (ToString_throws (property (body req) (str "latitude"))) eqn:T1;
      [reflexivity|].
    destruct (ToString_throws (property (body req) (str "longitude"))) eqn:T2;
      [reflexivity|].
    cbn [orb].
    rewrite !(Get_property _ _ Hn), !(Get_property _ _ Hn').
    unfold validate, latitude_rule, longitude_rule, coordinate_rule, logical_not.
    cbn [parseFloat_ result_bind].
    rewrite E1, E2, Blat, Blon, Plat, Plon, (Vlat eq_refl), (Vlon eq_refl).
    reflexivity.
  - rewrite !(try_block_lists h _ Hh). unfold Index.listSchools_try, bind, lift.
    rewrite !(Get_property _ _ Hn), !(Get_property _ _ Hn').
    cbn [parseFloat_ result_bind]. rewrite Plat, Plon. reflexivity.
Qed.

(** X11: a handler reads nothing but its fields, and a coordinate only
    through [!] and [parseFloat].  add-school reads the name, address,
    latitude and longitude of the body, list-schools the latitude and
    longitude of the query.  Two requests (the body, or the query, other
    than [undefined] and [null]) with the same name and address, and
    whose latitudes, and longitudes, are both truthy or both falsy and
    are read by [parseFloat] as the same Number (or make it throw, both
    of them), get the same response and have the same effect, whatever
    else they carry: an [id] sent by the client changes nothing, and a
    Number, its decimal string and an array holding it are the same
    coordinate. *)
Theorem handlers_read_only_their_fields
    (engine : Engine) (h : handler) (req req' : request) (env : environment) (w : world) :
  is_nullish (input_of h req) = false ->
  is_nullish (input_of h req') = false ->
  (adds h = true ->
   property (body req) (str "name") = property (body req') (str "name")
   /\ property (body req) (str "address") = property (body req') (str "address")) ->
  same_coordinate (property (input_of h req) (str "latitude"))
                  (property (input_of h req') (str "latitude")) ->
  same_coordinate (property (input_of h req) (str "longitude"))
                  (property (input_of h req') (str "longitude")) ->
  run h req env w = run h req' env w.
Proof.
  intros Hn Hn' Htext Hlat Hlon.
  rewrite !run_try_catch. unfold try_catch.
  rewrite (try_block_of_parsed_coordinates engine h req req' env w
             Hn Hn' Htext Hlat Hlon).
  reflexivity.
Qed.

Lemma handlers_read_only_their_fields_witness :
  let with_id :=
    {| body := VObject [ (str "id", VNumber (num 999));
                         (str "name", VString (str "Delhi Public School"));
                         (str "address", VString (str "Mathura Road"));
                         (str "latitude", VString (str "28.6139"));
                         (str "longitude",
                          VArray [VNumber (parseFloat_string (str "77.2090"))]);
                         (str "distance", VNumber (num 0)) ];
       query := VObject [ (str "latitude", VString (str "0")) ] |} in
  run (engine := Series.engine) Controller_addSchool with_id production three_schools
  = run (engine := Series.engine) Controller_addSchool (post delhi_school) production
      three_schools.
Proof.
  intros with_id.
  apply (handlers_read_only_their_fields Series.engine Controller_addSchool
           with_id (post delhi_school) production three_schools).
  - reflexivity.
  - reflexivity.
  - intros _. split; reflexivity.
  - split; [reflexivity | vm_compute; reflexivity].
  - split; [reflexivity | vm_compute; reflexivity].
Defined.

End EntryPoints.

(* ================================================================== *)
(** * Symmetries of the distance *)
(* ================================================================== *)

Section Symmetries.
Import JS Http Props Behaviour Examples.

(** [(-x) - (-y)] is [y - x]. *)
Lemma SFsub_opp_opp (x y : number) : (- x - - y = y - x)%js.
Proof.
  destruct x as [sx|sx| |sx mx ex], y as [sy|sy| |sy my ey];
    try (destruct sx; destruct sy; reflexivity);
    try (destruct sx; reflexivity);
    try (destruct sy; reflexivity);
    try reflexivity.
  cbn [SFsub SFopp]. rewrite (Z.min_comm ey ex).
  f_equal. destruct sx, sy; cbn [negb cond_Zopp]; lia.
Qed.

Lemma degrees_opp (x : number) :
  (- x * Math_PI / num 180 = - (x * Math_PI / num 180))%js.
Proof. rewrite SFmul_opp_l, SFdiv_opp_l. reflexivity. Qed.

Section WithMath.
Context (math : Math).
Hypothesis sin_odd : sin_is_odd math.

Lemma calculateDistance_longitudes_exchanged (lat1 lon1 lat2 lon2 : number) :
  Index.calculateDistance lat1 lon1 lat2 lon2
  = Index.calculateDistance lat1 lon2 lat2 lon1.
Proof.
  unfold Index.calculateDistance. cbn zeta.
  rewrite (half_sine_swap math sin_odd _ _ _ (degrees_swap lon1 lon2)).
  reflexivity.
Qed.

Lemma calculateDistance_latitudes_exchanged (lat1 lon1 lat2 lon2 : number) :
  Index.calculateDistance lat1 lon1 lat2 lon2
  = Index.calculateDistance lat2 lon1 lat1 lon2.
Proof.
  unfold Index.calculateDistance. cbn zeta.
  rewrite (half_sine_squared_swap math sin_odd _ _ (degrees_swap lat1 lat2)).
  rewrite (SFmul_comm (Math_cos (lat1 * Math_PI / num 180)%js)).
  reflexivity.
Qed.

Lemma calculateDistance_longitudes_negated (lat1 lon1 lat2 lon2 : number) :
  Index.calculateDistance lat1 (- lon1)%js lat2 (- lon2)%js
  = Index.calculateDistance lat1 lon1 lat2 lon2.
Proof.
  rewrite (calculateDistance_longitudes_exchanged lat1 lon1 lat2 lon2).
  unfold Index.calculateDistance. cbn zeta.
  rewrite SFsub_opp_opp. reflexivity.
Qed.

Lemma calculateDistance_latitudes_negated (lat1 lon1 lat2 lon2 : number) :
  cos_is_even math ->
  Index.calculateDistance (- lat1)%js lon1 (- lat2)%js lon2
  = Index.calculateDistance lat1 lon1 lat2 lon2.
Proof.
  intros cos_even.
  rewrite (calculateDistance_latitudes_exchanged lat1 lon1 lat2 lon2).
  unfold Index.calculateDistance. cbn zeta.
  rewrite SFsub_opp_opp, !degrees_opp, !cos_even.
  rewrite (SFmul_comm (Math_cos (lat1 * Math_PI / num 180)%js)).
  reflexivity.
Qed.

End WithMath.

(** X12: the symmetries of the distance, exact in floating point.  Under
    every [Math] whose sine is odd, and for all Numbers,
    [calculateDistance] (either copy) returns the same Number when the
    two longitudes are exchanged, when the two latitudes are exchanged,
    and when both longitudes are negated; when moreover the cosine is
    even, also when both latitudes are negated.  So the distance does not
    depend on which point is the western or the southern one, nor on the
    hemisphere. *)
Theorem calculateDistance_symmetries
    (math : Math) (calculateDistance : number -> number -> number -> number -> number) :
  is_calculateDistance calculateDistance ->
  sin_is_odd math ->
  forall lat1 lon1 lat2 lon2 : number,
    calculateDistance lat1 lon2 lat2 lon1 = calculateDistance lat1 lon1 lat2 lon2
    /\ calculateDistance lat2 lon1 lat1 lon2 = calculateDistance lat1 lon1 lat2 lon2
    /\ calculateDistance lat1 (- lon1)%js lat2 (- lon2)%js
       = calculateDistance lat1 lon1 lat2 lon2
    /\ (cos_is_even math ->
        calculateDistance (- lat1)%js lon1 (- lat2)%js lon2
        = calculateDistance lat1 lon1 lat2 lon2).
Proof.
  intros Hf Hodd lat1 lon1 lat2 lon2.
  assert (E : calculateDistance = Index.calculateDistance)
    by (destruct Hf as [-> | ->]; reflexivity).
  rewrite E. split; [|split; [|split]].
  - symmetry. apply calculateDistance_longitudes_exchanged, Hodd.
  - symmetry. apply calculateDistance_latitudes_exchanged, Hodd.
  - apply calculateDistance_longitudes_negated, Hodd.
  - apply calculateDistance_latitudes_negated, Hodd.
Qed.

Lemma Series_cos_is_even : cos_is_even Series.math.
Proof.
  intros x. cbn [Math_cos Series.math]. unfold Series.cos. cbn zeta.
  rewrite SFmul_opp_opp. reflexivity.
Qed.

Lemma calculateDistance_symmetries_witness :
  let lat1 := parseFloat_string (str "28.6139") in
  let lon1 := parseFloat_string (str "77.2090") in
  let lat2 := parseFloat_string (str "19.0760") in
  let lon2 := parseFloat_string (str "72.8777") in
  let calculateDistance := Controller.calculateDistance (math := Series.math) in
  calculateDistance lat1 lon2 lat2 lon1 = calculateDistance lat1 lon1 lat2 lon2
  /\ calculateDistance lat2 lon1 lat1 lon2 = calculateDistance lat1 lon1 lat2 lon2
  /\ calculateDistance lat1 (- lon1)%js lat2 (- lon2)%js
     = calculateDistance lat1 lon1 lat2 lon2
  /\ calculateDistance (- lat1)%js lon1 (- lat2)%js lon2
     = calculateDistance lat1 lon1 lat2 lon2.
Proof.
  intros lat1 lon1 lat2 lon2 calculateDistance.
  destruct (calculateDistance_symmetries Series.math calculateDistance
              (or_intror eq_refl) Series_sin_is_odd lat1 lon1 lat2 lon2)
    as (H1 & H2 & H3 & H4).
  split; [exact H1|]. split; [exact H2|]. split; [exact H3|].
  exact (H4 Series_cos_is_even).
Defined.

End Symmetries.

(* ================================================================== *)
(** * The rounding of a distance to two decimals *)
(* ================================================================== *)

Section TwoDecimals.
Import JS Http Rules Props Handlers Behaviour Examples.

(** ** Reading back a printed integer *)

Let shift (acc d : Z) : Z := 10 * acc + d.

Lemma span_digits_app (cs rest : jsstring) :
  Forall (fun c => is_digit c = true) cs ->
  match rest with c :: _ => is_digit c = false | [] => True end ->
  span_digits (cs ++ rest) = (List.map digit cs, rest).
Proof.
  intros Hcs Hrest. induction Hcs as [|c cs Hc _ IH]; cbn [app List.map].
  - destruct rest as [|c rest]; [reflexivity|].
    cbn [span_digits]. fold (is_digit c). rewrite Hrest. reflexivity.
  - cbn [span_digits]. fold (is_digit c). rewrite Hc, IH. reflexivity.
Qed.

Lemma string_of_uint_digits (u : Decimal.uint) :
  Forall (fun c => is_digit c = true) (str (NilEmpty.string_of_uint u)).
Proof.
  induction u; cbn [NilEmpty.string_of_uint]; try constructor;
    try reflexivity; assumption.
Qed.

Lemma string_of_uint_value (u : Decimal.uint) :
  (forall acc : positive,
     fold_left shift (List.map digit (str (NilEmpty.string_of_uint u))) (Z.pos acc)
     = Z.pos (Pos.of_uint_acc u acc))
  /\ fold_left shift (List.map digit (str (NilEmpty.string_of_uint u))) 0
     = Z.of_N (Pos.of_uint u).
Proof.
  induction u as [|u [IH1 IH2]|u [IH1 IH2]|u [IH1 IH2]|u [IH1 IH2]|u [IH1 IH2]
                  |u [IH1 IH2]|u [IH1 IH2]|u [IH1 IH2]|u [IH1 IH2]|u [IH1 IH2]];
    (split; [intros acc|]);
    cbn [NilEmpty.string_of_uint Pos.of_uint_acc Pos.of_uint];
    try reflexivity.
  all: change (str (String ?c ?s)) with (N_of_ascii c :: str s);
    cbn [List.map fold_left].
  all: unfold shift at 2;
    match goal with
    | |- context [digit ?c] =>
        let v := eval vm_compute in (digit c) in change (digit c) with v
    end.
  all: try (rewrite <- IH1; f_equal; lia).
  all: try (rewrite <- IH2; f_equal).
  all: try (rewrite N2Z.inj_pos, <- IH1; f_equal).
Qed.

Lemma decimal_digits_spec (n : Z) :
  0 <= n ->
  Forall (fun c => is_digit c = true) (decimal_digits n)
  /\ fold_left shift (List.map digit (decimal_digits n)) 0 = n
  /\ decimal_digits n <> [].
Proof.
  intros Hn. unfold decimal_digits.
  set (u := N.to_uint (Z.to_N n)).
  assert (Hu : Z.of_N (Pos.of_uint u) = n).
  { change (Pos.of_uint u) with (N.of_uint u). unfold u.
    rewrite DecimalN.Unsigned.of_to. lia. }
  destruct u eqn:Eu; cbn [NilZero.string_of_uint];
    try (split; [apply string_of_uint_digits|];
         split; [rewrite <- Hu; apply string_of_uint_value | discriminate]).
  split; [repeat constructor|]. split; [rewrite <- Hu; reflexivity | discriminate].
Qed.

Lemma fold_left_zeros (p : nat) (ds : list Z) :
  fold_left shift (repeat 0 p ++ ds) 0 = fold_left shift ds 0.
Proof. induction p as [|p IH]; [reflexivity | exact IH]. Qed.

Lemma digit_cases (c : N) :
  is_digit c = true ->
  (c = 48 \/ c = 49 \/ c = 50 \/ c = 51 \/ c = 52
   \/ c = 53 \/ c = 54 \/ c = 55 \/ c = 56 \/ c = 57)%N.
Proof.
  unfold is_digit. rewrite andb_true_iff, !N.leb_le. lia.
Qed.

(** A digit is no white space, no sign, and not the start of
    [Infinity]. *)
Lemma digit_starts_a_number (c : N) (s : jsstring) :
  is_digit c = true ->
  trimStart (c :: s) = c :: s
  /\ span_sign (c :: s) = (false, c :: s)
  /\ strip_prefix (str "Infinity") (c :: s) = None.
Proof.
  intros H. apply digit_cases in H.
  repeat destruct H as [H | H]; subst c; repeat split; reflexivity.
Qed.

(** [parseFloat] reads the decimal string of [n] with a point before its
    last two digits as the Number nearest to [n / 100]. *)
Lemma parseFloat_two_decimals (neg : bool) (n : Z) :
  0 <= n ->
  let m := decimal_digits n in
  let m := repeat 48%N (2 + 1 - List.length m) ++ m in
  let k := List.length m in
  let m := firstn (k - 2) m ++ 46%N :: skipn (k - 2) m in
  parseFloat_string (if neg then 45%N :: m else m) = decimal_to_number neg n (-2).
Proof.
  intros Hn. cbn zeta.
  destruct (decimal_digits_spec n Hn) as (Hd & Hv & Hne).
  set (D := repeat 48%N (2 + 1 - List.length (decimal_digits n)) ++ decimal_digits n).
  assert (HD : Forall (fun c => is_digit c = true) D).
  { apply Forall_app. split; [|exact Hd].
    apply Forall_forall. intros c Hc. apply repeat_spec in Hc. subst c. reflexivity. }
  assert (HDv : fold_left shift (List.map digit D) 0 = n).
  { unfold D. rewrite map_app, map_repeat.
    change (digit 48) with 0. rewrite fold_left_zeros. exact Hv. }
  assert (Hk : (3 <= List.length D)%nat).
  { unfold D. rewrite length_app, repeat_length. lia. }
  set (A := firstn (List.length D - 2) D).
  set (B := skipn (List.length D - 2) D).
  assert (HAB : A ++ B = D) by apply firstn_skipn.
  assert (HB : List.length B = 2%nat) by (unfold B; rewrite length_skipn; lia).
  assert (HA : Forall (fun c => is_digit c = true) A)
    by (rewrite <- HAB in HD; apply Forall_app in HD; tauto).
  assert (HBd : Forall (fun c => is_digit c = true) B)
    by (rewrite <- HAB in HD; apply Forall_app in HD; tauto).
  assert (HAne : exists c A', A = c :: A' /\ is_digit c = true).
  { destruct A as [|c A'] eqn:EA.
    - apply (f_equal (@List.length N)) in EA. unfold A in EA.
      rewrite length_firstn in EA. cbn [List.length] in EA. lia.
    - exists c, A'. split; [reflexivity|].
      apply Forall_cons_iff in HA. tauto. }
  destruct HAne as (c & A' & EA & Hc).
  assert (Hparse : forall s1 : jsstring, s1 = A ++ 46%N :: B ->
            match strip_prefix (str "Infinity") s1 with
            | Some _ => S754_infinity neg
            | None =>
                let '(ip, s2) := span_digits s1 in
                let '(fp, s3) :=
                  match s2 with
                  | 46%N :: s2' => span_digits s2'
                  | _ => ([], s2)
                  end in
                match ip ++ fp with
                | [] => NaN
                | ds =>
                    decimal_to_number neg (digits_value ds)
                      (exponent_part s3 - Z.of_nat (List.length fp))
                end
            end = decimal_to_number neg n (-2)).
  { intros s1 ->.
    assert (Hs : strip_prefix (str "Infinity") (A ++ 46%N :: B) = None)
      by (rewrite EA; apply (digit_starts_a_number c _ Hc)).
    rewrite Hs.
    rewrite (span_digits_app A (46%N :: B) HA eq_refl).
    pose proof (span_digits_app B [] HBd I) as HsB. rewrite app_nil_r in HsB.
    rewrite HsB. rewrite <- map_app, HAB.
    destruct (List.map digit D) as [|z zs] eqn:EDm.
    - apply (f_equal (@List.length Z)) in EDm. rewrite length_map in EDm.
      cbn [List.length] in EDm. lia.
    - unfold digits_value. fold shift. rewrite HDv, length_map, HB. reflexivity. }
  unfold parseFloat_string. fold D. fold A B.
  destruct neg.
  - change (trimStart (45%N :: A ++ 46%N :: B)) with (45%N :: A ++ 46%N :: B).
    change (span_sign (45%N :: A ++ 46%N :: B)) with (true, A ++ 46%N :: B).
    apply Hparse. reflexivity.
  - assert (Ht : trimStart (A ++ 46%N :: B) = A ++ 46%N :: B)
      by (rewrite EA; apply (digit_starts_a_number c _ Hc)).
    assert (Hs : span_sign (A ++ 46%N :: B) = (false, A ++ 46%N :: B))
      by (rewrite EA; apply (digit_starts_a_number c _ Hc)).
    rewrite Ht, Hs. apply Hparse. reflexivity.
Qed.

Lemma toFixed_rounds_to_two_decimals (x : number) :
  rounded_to_two_decimals x (parseFloat_fixed (Number_toFixed x 2)).
Proof.
  destruct x as [s|s| |s m e]; try reflexivity.
  unfold rounded_to_two_decimals, Number_toFixed. cbn zeta.
  set (P := 2 ^ Z.max e 0). set (Q := 2 ^ Z.max (- e) 0).
  destruct (10 ^ 21 * Q <=? Z.pos m * P); [reflexivity|].
  assert (HP : 0 < P) by (apply Z.pow_pos_nonneg; lia).
  assert (HQ : 0 < Q) by (apply Z.pow_pos_nonneg; lia).
  change (Z.of_nat 2) with 2.
  set (n := (2 * Z.pos m * 10 ^ 2 * P + Q) / (2 * Q)).
  assert (Hn : 0 <= n) by (apply Z.div_pos; nia).
  exists n. split.
  - pose proof (Z.div_mod (2 * Z.pos m * 10 ^ 2 * P + Q) (2 * Q) ltac:(lia)) as Hdm.
    pose proof (Z.mod_pos_bound (2 * Z.pos m * 10 ^ 2 * P + Q) (2 * Q) ltac:(lia))
      as Hmod.
    fold n in Hdm. change (10 ^ 2) with 100 in Hdm, Hmod. nia.
  - cbn [parseFloat_fixed]. apply (parseFloat_two_decimals s n Hn).
Qed.

(** X13: the distances of a listing are rounded to two decimals.
    Whenever a list-schools handler sends a listing, the [distance] of
    each record is the haversine distance from the query point to that
    record's coordinates, rounded as [parseFloat(d.toFixed(2))] rounds:
    for a finite distance below [10^21], the Number nearest to
    [n / 100], where [n] is the integer nearest to 100 times the
    distance; the distance itself when it is [NaN] or infinite. *)
Theorem listed_distances_are_rounded_to_two_decimals
    (engine : Engine) (h : handler) (req : request) (env : environment)
    (w w' : world) (resp : response)
    (success : bool) (count : nat) (listed : list school_with_distance) :
  adds h = false ->
  run h req env w = (Ok resp, w') ->
  sent resp = Listing success count listed ->
  let userLat := parsed (property (query req) (str "latitude")) in
  let userLon := parsed (property (query req) (str "longitude")) in
  Forall
    (fun r =>
       rounded_to_two_decimals
         (Index.calculateDistance userLat userLon
            (latitude (school_of r)) (longitude (school_of r)))
         (distance r)
       /\ rounded_to_two_decimals
            (Controller.calculateDistance userLat userLon
               (latitude (school_of r)) (longitude (school_of r)))
            (distance r))
    listed.
Proof.
  intros Hh Hrun Hs userLat userLon.
  destruct (listSchools_outcome h req env w Hh) as (resp' & w'' & Hrun' & Hout).
  rewrite Hrun in Hrun'. injection Hrun' as <- <-.
  destruct Hout as [ | | | | lat lon Hp _ _]; try discriminate Hs.
  destruct (query_point_parsed _ _ _ Hp) as [-> ->].
  injection Hs as _ _ <-. fold userLat userLon.
  unfold sorted_listing.
  apply (Permutation_Forall (Permutation_sym (Array_sort_perm by_distance _))).
  apply Forall_forall. intros r Hr.
  apply in_map_iff in Hr as (s & <- & _).
  cbn [annotate school_of distance].
  split; apply toFixed_rounds_to_two_decimals.
Qed.

Lemma listed_distances_are_rounded_to_two_decimals_witness :
  let req := get "18.52" "73.85" in
  let userLat := parsed (property (query req) (str "latitude")) in
  let userLon := parsed (property (query req) (str "longitude")) in
  let listed := sorted_listing (engine := Series.engine) userLat userLon three_schools in
  List.map distance listed
  = [ parseFloat_string (str "119.57"); parseFloat_string (str "735.58");
      parseFloat_string (str "1173.24") ]
  /\ Forall
       (fun r =>
          rounded_to_two_decimals
            (Index.calculateDistance (math := Series.math) userLat userLon
               (latitude (school_of r)) (longitude (school_of r)))
            (distance r)
          /\ rounded_to_two_decimals
               (Controller.calculateDistance (math := Series.math) userLat userLon
                  (latitude (school_of r)) (longitude (school_of r)))
               (distance r))
       listed.
Proof.
  intros req userLat userLon listed.
  split; [vm_compute; reflexivity|].
  apply (listed_distances_are_rounded_to_two_decimals Series.engine
           Index_listSchools req production three_schools
           {| schools := schools three_schools;
              AUTO_INCREMENT := AUTO_INCREMENT three_schools;
              log := log three_schools ++ [GetConnection; SelectAll; Release] |}
           (listing listed) true (List.length listed) listed eq_refl).
  - apply (listSchools_sent Series.engine Index_listSchools req production three_schools);
      [reflexivity | reflexivity | split; reflexivity | vm_compute; reflexivity].
  - reflexivity.
Defined.

End TwoDecimals.

(* ================================================================== *)
(** * The listing and the order of retrieval *)
(* ================================================================== *)

Section RetrievalOrder.
Import JS Http Rules Props Handlers Behaviour Examples.

(** Two ordered lists with the same elements and no repeated key are the
    same list. *)
Lemma sorted_permutation_unique {A : Type} (key : A -> Z) (l l' : list A) :
  StronglySorted (fun a b => key a <= key b) l ->
  StronglySorted (fun a b => key a <= key b) l' ->
  NoDup (List.map key l) ->
  Permutation l l' ->
  l = l'.
Proof.
  intros Hl. revert l'. induction Hl as [|a l Hl IH Ha]; intros l' Hl' Hnd Hp.
  - apply Permutation_nil in Hp. congruence.
  - destruct Hl' as [|b l' Hl' Hb].
    + apply Permutation_sym, Permutation_nil in Hp. discriminate.
    + cbn [List.map] in Hnd. apply NoDup_cons_iff in Hnd as [Hna Hnd].
      rewrite Forall_forall in Ha, Hb.
      assert (E : a = b).
      { pose proof (Permutation_in a Hp (or_introl eq_refl)) as [E | Hin];
          [congruence|].
        pose proof (Permutation_in b (Permutation_sym Hp) (or_introl eq_refl))
          as [E | Hin']; [congruence|].
        exfalso. apply Hna.
        replace (key a) with (key b)
          by (specialize (Ha b Hin'); specialize (Hb a Hin); lia).
        apply in_map, Hin'. }
      subst b. f_equal. apply IH; try assumption.
      apply (Permutation_cons_inv Hp).
Qed.

(** The listing of a table whose rows are at distances that are not
    [NaN] and differ from row to row does not depend on the order of the
    rows. *)
Lemma sorted_listing_of_permutation
    (engine : Engine) (userLat userLon : number) (w1 w2 : world) :
  Permutation (schools w1) (schools w2) ->
  let far s := distance (annotate userLat userLon s) in
  Forall (fun s => isNaN (far s) = false) (schools w1) ->
  NoDup (schools w1) ->
  (forall s t, In s (schools w1) -> In t (schools w1) ->
               SFeqb (far s) (far t) = true -> s = t) ->
  sorted_listing userLat userLon w1 = sorted_listing userLat userLon w2.
Proof.
  intros Hp far Hnan Hnd Hinj. unfold sorted_listing.
  set (key := fun r : school_with_distance => scaled (distance r)).
  assert (Hok : forall l, Permutation (schools w1) l ->
            Forall (fun r => comparable (distance r) = true)
              (List.map (annotate userLat userLon) l)).
  { intros l Hl. apply Forall_forall. intros r Hr.
    apply in_map_iff in Hr as (s & <- & Hs). apply comparable_spec.
    split; [apply annotate_valid|].
    rewrite Forall_forall in Hnan. apply Hnan.
    apply (Permutation_in _ (Permutation_sym Hl)), Hs. }
  assert (Hsorted : forall l, Permutation (schools w1) l ->
            StronglySorted (fun a b => key a <= key b)
              (Array_sort by_distance (List.map (annotate userLat userLon) l))).
  { intros l Hl.
    rewrite (Array_sort_consistent by_distance _
               (by_distance_consistent _ (Hok l Hl))).
    apply (stable_sort_StronglySorted by_distance
             (fun r => comparable (distance r) = true)
             (fun a b => key a <= key b)); [ | | | apply Hok, Hl].
    - intros a b Ha Hb H. rewrite (by_distance_after a b Ha Hb) in H.
      apply Z.ltb_ge in H. exact H.
    - intros a b Ha Hb H. rewrite (by_distance_after a b Ha Hb) in H.
      apply Z.ltb_lt in H. unfold key. lia.
    - intros a b c _ _ _. unfold key. lia. }
  apply (sorted_permutation_unique key).
  - apply Hsorted, Permutation_refl.
  - apply Hsorted, Hp.
  - apply (Permutation_NoDup
             (Permutation_map key
                (Permutation_sym (Array_sort_perm by_distance _)))).
    rewrite map_map.
    apply NoDup_map_NoDup_ForallPairs; [|exact Hnd].
    intros s t Hs Ht E. apply (Hinj s t Hs Ht). unfold far.
    rewrite Forall_forall in Hnan.
    rewrite SFeqb_scaled;
      [ apply Z.eqb_eq, E | apply annotate_valid | apply annotate_valid
      | apply Hnan, Hs | apply Hnan, Ht ].
  - apply (Permutation_trans (Array_sort_perm by_distance _)).
    apply (Permutation_trans (Permutation_map (annotate userLat userLon) Hp)).
    apply Permutation_sym, Array_sort_perm.
Qed.

(** The response of list-schools depends on the datastore through the
    listing only. *)
Lemma listSchools_response_of_listing
    (engine : Engine) (h : handler) (req : request) (env : environment) (w1 w2 : world) :
  adds h = false ->
  sorted_listing
    (parsed (property (query req) (str "latitude")))
    (parsed (property (query req) (str "longitude"))) w1
  = sorted_listing
      (parsed (property (query req) (str "latitude")))
      (parsed (property (query req) (str "longitude"))) w2 ->
  fst (run h req env w1) = fst (run h req env w2).
Proof.
  intros Hh Hs. rewrite !run_try_catch, !(try_block_lists h req Hh).
  unfold try_catch.
  assert (Hcatch : forall e wa wb,
            fst (catch_block h e env wa) = fst (catch_block h e env wb))
    by (intros e wa wb; destruct h; reflexivity).
  destruct (query_point req) as [[userLat userLon]|e] eqn:Hp.
  - destruct (query_point_parsed _ _ _ Hp) as [Elat Elon].
    rewrite <- Elat, <- Elon in Hs.
    rewrite !(listSchools_try_eval req env _ _ _ Hp).
    destruct (invalid_location _ _); [reflexivity|].
    destruct (getConnection_rejects env) as [e|]; [apply Hcatch|].
    destruct (query_rejects env) as [e|]; [apply Hcatch|].
    cbn [fst]. rewrite Hs.
    rewrite <- (sorted_listing_length userLat userLon w1).
    rewrite <- (sorted_listing_length userLat userLon w2).
    rewrite Hs. reflexivity.
  - rewrite !(listSchools_try_throws req env _ e Hp). apply Hcatch.
Qed.

(** X14: the response does not depend on the order in which the
    repository returns the rows ([SELECT *] fixes none), as long as no
    two schools are at the same rounded distance.  For two datastore
    states holding the same rows in any two orders, when no rounded
    distance from the query point is [NaN] and rows at equal rounded
    distance are the same row, a list-schools handler sends the same
    response for both. *)
Theorem listing_does_not_depend_on_retrieval_order
    (engine : Engine) (h : handler) (req : request) (env : environment) (w1 w2 : world) :
  adds h = false ->
  Permutation (schools w1) (schools w2) ->
  let userLat := parsed (property (query req) (str "latitude")) in
  let userLon := parsed (property (query req) (str "longitude")) in
  let far s := distance (annotate userLat userLon s) in
  Forall (fun s => isNaN (far s) = false) (schools w1) ->
  NoDup (schools w1) ->
  (forall s t, In s (schools w1) -> In t (schools w1) ->
               SFeqb (far s) (far t) = true -> s = t) ->
  fst (run h req env w1) = fst (run h req env w2).
Proof.
  intros Hh Hp userLat userLon far Hnan Hnd Hinj.
  apply (listSchools_response_of_listing engine h req env w1 w2 Hh).
  apply (sorted_listing_of_permutation engine userLat userLon w1 w2 Hp Hnan Hnd Hinj).
Qed.

Lemma listing_does_not_depend_on_retrieval_order_witness :
  let req := get "18.52" "73.85" in
  let reversed :=
    {| schools := rev (schools three_schools);
       AUTO_INCREMENT := AUTO_INCREMENT three_schools;
       log := log three_schools |} in
  fst (run (engine := Series.engine) Index_listSchools req production three_schools)
  = fst (run (engine := Series.engine) Index_listSchools req production reversed).
Proof.
  intros req reversed.
  apply (listing_does_not_depend_on_retrieval_order Series.engine Index_listSchools
           req production three_schools reversed eq_refl).
  - apply Permutation_rev.
  - repeat constructor; vm_compute; reflexivity.
  - repeat constructor; cbn; intuition discriminate.
  - intros s t [<-|[<-|[<-|[]]]] [<-|[<-|[<-|[]]]] H; try reflexivity;
      vm_compute in H; discriminate H.
Defined.

End RetrievalOrder.

(* ================================================================== *)
(** * Coordinates written with padding *)
(* ================================================================== *)

Section Padding.
Import JS Http Rules Props Handlers Behaviour Examples.

Lemma trimStart_space (space s : jsstring) :
  Forall (fun c => isWhiteSpace c = true) space ->
  trimStart (space ++ s) = trimStart s.
Proof.
  induction 1 as [|c space Hc _ IH]; [reflexivity|].
  cbn [app trimStart]. rewrite Hc. exact IH.
Qed.

(** [span_digits] splits a string into its leading digits and the rest,
    which starts with no digit. *)
Lemma span_digits_split (s : jsstring) :
  exists cs : jsstring,
    s = cs ++ snd (span_digits s)
    /\ Forall (fun c => is_digit c = true) cs
    /\ fst (span_digits s) = List.map digit cs
    /\ match snd (span_digits s) with
       | c :: _ => is_digit c = false
       | [] => True
       end.
Proof.
  induction s as [|c s (cs & E & Hcs & Hv & Hr)].
  - exists []. repeat split. constructor.
  - cbn [span_digits]. fold (is_digit c). destruct (is_digit c) eqn:Hc.
    + destruct (span_digits s) as [ds rest]. cbn [fst snd] in *.
      exists (c :: cs). cbn [app List.map]. repeat split.
      * congruence.
      * constructor; assumption.
      * unfold digit at 1. congruence.
      * exact Hr.
    + exists []. cbn [fst snd app List.map]. repeat split; [constructor | exact Hc].
Qed.

Lemma ends_numeral_spec (rest : jsstring) :
  ends_numeral rest = true ->
  match rest with c :: _ => is_digit c = false | [] => True end
  /\ match rest with
     | 46%N :: s => span_digits s
     | _ => ([], rest)
     end = ([], rest)
  /\ exponent_part rest = 0.
Proof.
  destruct rest as [|c rest]; [repeat split|].
  cbn [ends_numeral]. rewrite negb_true_iff, !orb_false_iff.
  intros [[[Hd Hp] He] HE]. split; [exact Hd|]. split.
  - apply N.eqb_neq in Hp.
    destruct c as [|p]; [reflexivity|].
    do 6 (try destruct p as [p|p|]; try reflexivity). congruence.
  - cbn [exponent_part]. rewrite He, HE. reflexivity.
Qed.

(** [parseFloat] ignores what follows a plain decimal numeral. *)
Lemma parseFloat_string_numeral (numeral rest : jsstring) :
  is_plain_decimal numeral = true ->
  ends_numeral rest = true ->
  parseFloat_string (numeral ++ rest) = parseFloat_string numeral.
Proof.
  intros Hnum Hrest. unfold is_plain_decimal in Hnum.
  destruct (ends_numeral_spec rest Hrest) as (Hr1 & Hr2 & Hr3).
  destruct (span_digits_split (snd (span_sign numeral)))
    as (cs & E & Hcs & Hv & _).
  destruct (span_digits (snd (span_sign numeral))) as [ip s2] eqn:Esp.
  cbn [fst snd] in *.
  destruct cs as [|c cs]; [subst ip; discriminate|].
  apply Forall_cons_iff in Hcs as [Hc Hcs].
  destruct (digit_starts_a_number c (cs ++ s2) Hc) as (T1 & S1 & I1).
  destruct (digit_starts_a_number c (cs ++ s2 ++ rest) Hc) as (T2 & S2 & I2).
  (* the sign, and what follows it *)
  assert (Hsign : exists sign : jsstring,
            numeral = sign ++ c :: cs ++ s2
            /\ (forall tail, trimStart (sign ++ c :: tail) = sign ++ c :: tail)
            /\ (forall tail, span_sign (sign ++ c :: tail)
                             = (fst (span_sign numeral), c :: tail))).
  { destruct numeral as [|a numeral]; [discriminate E|].
    assert (Ha : (a = 43 \/ a = 45 \/ (a <> 43 /\ a <> 45))%N) by lia.
    destruct Ha as [-> | [-> | [Ha1 Ha2]]].
    - exists [43%N]. cbn [span_sign snd fst app] in *. subst numeral.
      repeat split; intros tail; reflexivity.
    - exists [45%N]. cbn [span_sign snd fst app] in *. subst numeral.
      repeat split; intros tail; reflexivity.
    - assert (Es : forall tail, span_sign (a :: tail) = (false, a :: tail)).
      { intros tail. destruct a as [|p]; [reflexivity|].
        do 6 (try destruct p as [p|p|]; try reflexivity); congruence. }
      rewrite Es in E. cbn [snd] in E. injection E as -> ->.
      exists []. cbn [app]. rewrite Es. cbn [fst]. repeat split.
      + intros tail. apply (digit_starts_a_number c tail Hc).
      + intros tail. apply (digit_starts_a_number c tail Hc). }
  destruct Hsign as (sign & En & Ht & Hs).
  assert (Hparse : forall tail : jsstring,
            ends_numeral tail = true ->
            parseFloat_string (sign ++ c :: cs ++ s2 ++ tail)
            = parseFloat_string (sign ++ c :: cs ++ s2)).
  { intros tail Htail.
    destruct (ends_numeral_spec tail Htail) as (Ht1 & Ht2 & Ht3).
    unfold parseFloat_string.
    rewrite (Ht (cs ++ s2 ++ tail)), (Ht (cs ++ s2)).
    rewrite (Hs (cs ++ s2 ++ tail)), (Hs (cs ++ s2)).
    rewrite (proj2 (proj2 (digit_starts_a_number c (cs ++ s2 ++ tail) Hc))).
    rewrite (proj2 (proj2 (digit_starts_a_number c (cs ++ s2) Hc))).
    destruct s2 as [|p s3].
    - rewrite !app_nil_r. cbn [app].
      change (c :: cs ++ tail) with ((c :: cs) ++ tail).
      rewrite (span_digits_app (c :: cs) tail (Forall_cons _ Hc Hcs) Ht1).
      pose proof (span_digits_app (c :: cs) [] (Forall_cons _ Hc Hcs) I) as H0.
      rewrite app_nil_r in H0. rewrite H0, Ht2.
      cbn [List.map app List.length]. rewrite Ht3. reflexivity.
    - destruct ip as [|d ip]; [discriminate|].
      destruct (N.eqb_spec p 46) as [-> | Hp];
        [|exfalso; destruct p as [|q]; [discriminate|];
          do 6 (try destruct q as [q|q|]; try discriminate); congruence].
      destruct (span_digits_split s3) as (fs & Ef & Hfs & Hfv & _).
      destruct (span_digits s3) as [fp s4] eqn:Esp3. cbn [fst snd] in *.
      destruct s4; [|discriminate]. rewrite app_nil_r in Ef. subst s3.
      change (c :: cs ++ (46%N :: fs) ++ tail)
        with ((c :: cs) ++ 46%N :: fs ++ tail).
      change (c :: cs ++ 46%N :: fs) with ((c :: cs) ++ 46%N :: fs).
      rewrite !(span_digits_app (c :: cs) (46%N :: _) (Forall_cons _ Hc Hcs) eq_refl).
      rewrite (span_digits_app fs tail Hfs Ht1), Esp3.
      rewrite <- Hfv.
      destruct (List.map digit (c :: cs) ++ fp); [reflexivity|].
      rewrite Ht3. reflexivity. }
  rewrite En. rewrite <- !app_assoc. cbn [app]. rewrite <- !app_assoc.
  apply Hparse, Hrest.
Qed.

Lemma parseFloat_reads_as (v v' : value) :
  reads_as v v' ->
  same_coordinate v v'.
Proof.
  unfold same_coordinate.
  intros [v0 | space numeral rest Hspace Hnum Hrest]; [split; reflexivity|].
  assert (Hne : numeral <> []) by (intros ->; discriminate Hnum).
  split.
  - cbn [ToBoolean]. destruct numeral as [|c numeral]; [congruence|].
    destruct (space ++ (c :: numeral) ++ rest) eqn:E; [|reflexivity].
    apply app_eq_nil in E as [_ E]. discriminate E.
  - unfold parseFloat. cbn [ToString_throws parsed]. f_equal.
    unfold parseFloat_string at 1.
    rewrite (trimStart_space _ _ Hspace).
    fold (parseFloat_string (numeral ++ rest)).
    apply parseFloat_string_numeral; assumption.
Qed.

(** X15: coordinates are read leniently.  A latitude or longitude given
    as a string may have white space before the numeral and any text
    after it that cannot continue it (a unit, a letter, a comma, a
    space): the handlers then answer, and write, exactly as for the bare
    numeral.  For add-school (the other fields being equal) and for
    list-schools, both entry points. *)
Theorem coordinates_are_read_leniently
    (engine : Engine) (h : handler) (req req' : request) (env : environment) (w : world) :
  is_nullish (input_of h req) = false ->
  is_nullish (input_of h req') = false ->
  (adds h = true ->
   property (body req) (str "name") = property (body req') (str "name")
   /\ property (body req) (str "address") = property (body req') (str "address")) ->
  reads_as (property (input_of h req) (str "latitude"))
           (property (input_of h req') (str "latitude")) ->
  reads_as (property (input_of h req) (str "longitude"))
           (property (input_of h req') (str "longitude")) ->
  run h req env w = run h req' env w
  /\ parseFloat (property (input_of h req) (str "latitude"))
     = parseFloat (property (input_of h req') (str "latitude"))
  /\ parseFloat (property (input_of h req) (str "longitude"))
     = parseFloat (property (input_of h req') (str "longitude")).
Proof.
  intros Hn Hn' Htext Hlat Hlon.
  pose proof (parseFloat_reads_as _ _ Hlat) as Slat.
  pose proof (parseFloat_reads_as _ _ Hlon) as Slon.
  split; [|split; [apply Slat | apply Slon]].
  rewrite !run_try_catch. unfold try_catch.
  rewrite (try_block_of_parsed_coordinates engine h req req' env w
             Hn Hn' Htext Slat Slon).
  reflexivity.
Qed.

Lemma coordinates_are_read_leniently_witness :
  let padded :=
    post (school_record (VString (str "Delhi Public School"))
            (VString (str "Mathura Road"))
            (VString (str " 28.6139 N")) (VString (str "77.2090,E"))) in
  let bare :=
    post (school_record (VString (str "Delhi Public School"))
            (VString (str "Mathura Road"))
            (VString (str "28.6139")) (VString (str "77.2090"))) in
  run (engine := Series.engine) Index_addSchool padded production initial
  = run (engine := Series.engine) Index_addSchool bare production initial
  /\ fst (run (engine := Series.engine) Index_addSchool bare production initial)
     = Ok (created 1)
  /\ parseFloat (property (body padded) (str "latitude"))
     = Ok (parseFloat_string (str "28.6139"))
  /\ parseFloat (property (body padded) (str "longitude"))
     = Ok (parseFloat_string (str "77.2090")).
Proof.
  intros padded bare.
  destruct (coordinates_are_read_leniently Series.engine Index_addSchool padded bare
              production initial eq_refl eq_refl (fun _ => conj eq_refl eq_refl))
    as (H1 & H2 & H3).
  - apply (reads_as_numeral (str " ") (str "28.6139") (str " N"));
      [repeat constructor | reflexivity | reflexivity].
  - apply (reads_as_numeral [] (str "77.2090") (str ",E"));
      [constructor | reflexivity | reflexivity].
  - split; [exact H1|]. split; [vm_compute; reflexivity|].
    split; [exact H2 | exact H3].
Defined.

End Padding.

(* ================================================================== *)
(** * Absent fields *)
(* ================================================================== *)

Section AbsentFields.
Import JS Http Rules Props Handlers Behaviour Examples.

(** X16: a record with an absent field is answered 400, with that
    field's "is required" message.  For every body other than
    [undefined] and [null] (an object, or an array, a string, a number:
    these have none of the fields) that lacks the name, the address, the
    latitude or the longitude, and whose latitude and longitude
    [parseFloat] reads, add-school responds 400 and makes no repository
    call, and the error list holds the "is required" message of each
    absent field; when all four are absent, the list is the four
    messages, in the order name, address, latitude, longitude.  When
    [parseFloat] throws at the latitude or the longitude that is there,
    the response is 500 instead, and again no call is made.  Both entry
    points. *)
Theorem absent_fields_are_reported
    (engine : Engine) (h : handler) (req : request) (env : environment) (w : world) :
  adds h = true ->
  is_nullish (body req) = false ->
  absent (body req) "name" \/ absent (body req) "address"
  \/ absent (body req) "latitude" \/ absent (body req) "longitude" ->
  let latitude := property (body req) (str "latitude") in
  let longitude := property (body req) (str "longitude") in
  (forall lat lon : number,
     parseFloat latitude = Ok lat -> parseFloat longitude = Ok lon ->
     exists errors : list jsstring,
       run h req env w = (Ok (rejected_record errors), w)
       /\ (absent (body req) "name" ->
           In (str "Name is required and must be a non-empty string") errors)
       /\ (absent (body req) "address" ->
           In (str "Address is required and must be a non-empty string") errors)
       /\ (absent (body req) "latitude" ->
           In (str "Latitude is required and must be a valid number") errors)
       /\ (absent (body req) "longitude" ->
           In (str "Longitude is required and must be a valid number") errors)
       /\ (absent (body req) "name" -> absent (body req) "address" ->
           absent (body req) "latitude" -> absent (body req) "longitude" ->
           errors = required_messages))
  /\ (forall e : error,
        parseFloat latitude = Throw e \/ parseFloat longitude = Throw e ->
        exists detail : option jsstring,
          run h req env w = (Ok (server_error detail), w)).
Proof.
  intros Hh Hn Habsent latitude longitude. unfold absent in *. split.
  - intros lat lon Plat Plon.
    pose proof (validateSchoolInput_reads _ Hn
                  (proj1 (parseFloat_inv _ _ Plat))
                  (proj1 (parseFloat_inv _ _ Plon))) as Hv.
    assert (H1 : property (body req) (str "name") = VUndefined ->
                 name_rule (property (body req) (str "name"))
                 = [str "Name is required and must be a non-empty string"])
      by (intros ->; reflexivity).
    assert (H2 : property (body req) (str "address") = VUndefined ->
                 address_rule (property (body req) (str "address"))
                 = [str "Address is required and must be a non-empty string"])
      by (intros ->; reflexivity).
    assert (H3 : property (body req) (str "latitude") = VUndefined ->
                 latitude_rule (property (body req) (str "latitude"))
                 = [str "Latitude is required and must be a valid number"])
      by (intros ->; reflexivity).
    assert (H4 : property (body req) (str "longitude") = VUndefined ->
                 longitude_rule (property (body req) (str "longitude"))
                 = [str "Longitude is required and must be a valid number"])
      by (intros ->; reflexivity).
    exists (validate (body req)).
    assert (Hne : validate (body req) <> []).
    { intros E. apply validate_nil in E as (E1 & E2 & E3 & E4).
      destruct Habsent as [A | [A | [A | A]]];
        [ rewrite (H1 A) in E1 | rewrite (H2 A) in E2
        | rewrite (H3 A) in E3 | rewrite (H4 A) in E4 ]; discriminate. }
    split.
    + rewrite run_try_catch, (try_block_adds h req Hh).
      apply try_catch_Ok, addSchool_try_invalid; assumption.
    + unfold validate.
      split; [intros A; rewrite (H1 A), !in_app_iff; cbn; auto|].
      split; [intros A; rewrite (H2 A), !in_app_iff; cbn; auto|].
      split; [intros A; rewrite (H3 A), !in_app_iff; cbn; auto|].
      split; [intros A; rewrite (H4 A), !in_app_iff; cbn; auto|].
      intros A1 A2 A3 A4. rewrite (H1 A1), (H2 A2), (H3 A3), (H4 A4). reflexivity.
  - intros e He.
    assert (Hv : Index.validateSchoolInput (body req) = Throw cannot_convert).
    { rewrite (validateSchoolInput_rules _ Hn). fold latitude longitude.
      destruct He as [He|He]; apply parseFloat_throws in He as [-> _];
        [|rewrite orb_true_r]; reflexivity. }
    rewrite run_try_catch, (try_block_adds h req Hh).
    rewrite (try_catch_Throw _ _ _ _ _ _ (addSchool_try_throws req env w _ Hv)).
    apply catch_block_response.
Qed.

Lemma absent_fields_are_reported_witness :
  let req := post (VArray [VString (str "Delhi Public School")]) in
  let req' := post (VObject [ (str "latitude", unconvertible) ]) in
  (exists errors : list jsstring,
     run (engine := Series.engine) Index_addSchool req production three_schools
     = (Ok (rejected_record errors), three_schools)
     /\ errors = required_messages)
  /\ (exists detail : option jsstring,
        run (engine := Series.engine) Index_addSchool req' production three_schools
        = (Ok (server_error detail), three_schools)).
Proof.
  intros req req'. split.
  - destruct (proj1 (absent_fields_are_reported Series.engine Index_addSchool req
                       production three_schools eq_refl eq_refl
                       (or_introl eq_refl)) NaN NaN eq_refl eq_refl)
      as (errors & Hrun & _ & _ & _ & _ & Hall).
    exists errors. split; [exact Hrun|].
    apply Hall; reflexivity.
  - apply (proj2 (absent_fields_are_reported Series.engine Index_addSchool req'
                    production three_schools eq_refl eq_refl
                    (or_introl eq_refl)) cannot_convert).
    left. reflexivity.
Defined.

End AbsentFields.

(* ================================================================== *)
(** * Start-up *)
(* ================================================================== *)

Section StartupTheorems.
Import JS Http Props Startup.

(** X17: the start-up creates the table or ends the process, and never
    throws.  When the pool and the query answer, [initializeDatabase]
    leaves an existing table [schools] as it is, rows and counter (a
    restart loses nothing), creates a missing one empty with its counter
    at 1 (the state the handlers start from), releases its connection,
    and the callback of [app.listen] then announces the port (3000 when
    [PORT] is unset or empty).  When the pool or the query rejects, the
    error is logged, [process.exit(1)] is called, the table is untouched,
    the port is never announced, and after a rejected query the
    connection is not released. *)
Theorem startup_creates_the_table_or_exits
    (PORT : option jsstring) (env : environment) (p : process) :
  let done := fst (listening PORT env p) in
  let p' := snd (listening PORT env p) in
  (Props.repository_up env ->
   done = Normal tt
   /\ table p' = Some (match table p with
                       | Some rows_and_counter => rows_and_counter
                       | None => created_table
                       end)
   /\ calls p' = calls p ++ [getConnection; CREATE_TABLE_IF_NOT_EXISTS; release]
   /\ console p'
      = console p
        ++ [ console_log_line (str "Database initialized successfully");
             console_log_line
               (str "School Management API is running on port "
                ++ match PORT with
                   | Some (c :: s) => c :: s
                   | _ => str "3000"
                   end) ]
   /\ exit_code p' = exit_code p)
  /\ (forall e : error,
        getConnection_rejects env = Some e
        \/ (getConnection_rejects env = None /\ query_rejects env = Some e) ->
        done = Exit
        /\ table p' = table p
        /\ calls p'
           = calls p
             ++ match getConnection_rejects env with
                | Some _ => [getConnection]
                | None => [getConnection; CREATE_TABLE_IF_NOT_EXISTS]
                end
        /\ console p'
           = console p
             ++ [console_error_line (str "Database initialization failed:") e]
        /\ exit_code p' = Some 1).
Proof.
  cbn zeta. unfold listening, initializeDatabase, bind, try_catch,
    pool_getConnection, connection_query_CREATE_TABLE, connection_release,
    console_log, console_error, process_exit, written, called.
  cbn [table calls console exit_code].
  split.
  - intros [Hc Hq]. rewrite Hc, Hq. cbn [fst snd table calls console exit_code].
    rewrite <- !app_assoc. repeat split. destruct (table p); reflexivity.
  - intros e [Hc | [Hc Hq]]; rewrite Hc; [|rewrite Hq];
      cbn [fst snd table calls console exit_code];
      rewrite <- ?app_assoc; repeat split.
Qed.

Lemma startup_creates_the_table_or_exits_witness :
  let fresh := {| table := None; calls := []; console := []; exit_code := None |} in
  let started := snd (listening (Some []) Examples.production fresh) in
  table started = Some ([], 1)
  /\ console started
     = [ console_log_line (str "Database initialized successfully");
         console_log_line (str "School Management API is running on port 3000") ]
  /\ exit_code started = None
  /\ table (snd (listening None Examples.production started)) = table started
  /\ exit_code (snd (listening None Examples.development_database_down started))
     = Some 1.
Proof.
  intros fresh started.
  destruct (startup_creates_the_table_or_exits (Some []) Examples.production fresh)
    as [Hup _].
  destruct (Hup (conj eq_refl eq_refl)) as (_ & Ht & _ & Hl & He).
  destruct (startup_creates_the_table_or_exits None Examples.production started)
    as [Hup' _].
  destruct (Hup' (conj eq_refl eq_refl)) as (_ & Ht' & _).
  destruct (startup_creates_the_table_or_exits None
              Examples.development_database_down started) as [_ Hdown].
  destruct (Hdown Examples.ECONNREFUSED (or_introl eq_refl)) as (_ & _ & _ & _ & Hx).
  split; [exact Ht|]. split; [exact Hl|]. split; [exact He|].
  split; [|exact Hx].
  rewrite Ht'. unfold started. rewrite Ht. reflexivity.
Defined.

End StartupTheorems.

(* ================================================================== *)
(** * Concurrent requests *)
(* ================================================================== *)

Section OneAtATime.
Import JS Http Rules Props Handlers Behaviour Async.
Context {engine : Engine}.

Lemma perform_bind {A B} (m : async A) (k : A -> async B) env w :
  perform (Async.bind m k) env w
  = match perform m env w with
    | (Ok a, w') => perform (k a) env w'
    | (Throw e, w') => (Throw e, w')
    end.
Proof.
  revert w. induction m as [[a|e] | X c k' IH | k' IH]; intros w;
    cbn [Async.bind perform]; try reflexivity.
  - destruct (execute c env (record (issue c) w)) as [r w']. apply IH.
  - apply IH.
Qed.

Lemma perform_try_catch {A} (m : async A) (handler : error -> async A) env w :
  perform (Async.try_catch m handler) env w
  = match perform m env w with
    | (Ok a, w') => (Ok a, w')
    | (Throw e, w') => perform (handler e) env w'
    end.
Proof.
  revert w. induction m as [[a|e] | X c k' IH | k' IH]; intros w;
    cbn [Async.try_catch perform]; try reflexivity.
  - destruct (execute c env (record (issue c) w)) as [r w']. apply IH.
  - apply IH.
Qed.

Lemma perform_addSchool_try (req : request) env w :
  perform (Async.addSchool_try req) env w = Index.addSchool_try req env w.
Proof.
  unfold Async.addSchool_try, Index.addSchool_try, Http.bind, Http.lift, Http.ret.
  rewrite perform_bind. cbn [Async.lift perform].
  destruct (Index.validateSchoolInput (body req)) as [errors|e]; [|reflexivity].
  destruct (0 <? List.length errors)%nat; [reflexivity|].
  rewrite perform_bind. cbn [await perform issue execute].
  unfold pool_getConnection.
  destruct (getConnection_rejects env) as [e|]; [reflexivity|].
  repeat (rewrite perform_bind; cbn [Async.lift perform];
          match goal with
          | |- context [match ?r with Ok _ => _ | Throw _ => _ end] =>
              destruct r; [|reflexivity]
          end).
  rewrite perform_bind. cbn [await perform issue execute].
  unfold connection_query_INSERT. cbn [record schools AUTO_INCREMENT log].
  destruct (query_rejects env) as [e|]; [reflexivity|].
  rewrite perform_bind. reflexivity.
Qed.

Lemma perform_listSchools_try (req : request) env w :
  perform (Async.listSchools_try req) env w = Index.listSchools_try req env w.
Proof.
  unfold Async.listSchools_try, Index.listSchools_try, Http.bind, Http.lift, Http.ret.
  repeat (rewrite perform_bind; cbn [Async.lift perform];
          match goal with
          | |- context [match ?r with Ok _ => _ | Throw _ => _ end] =>
              destruct r; [|reflexivity]
          end).
  match goal with |- context [if ?b then _ else _] => destruct b end;
    [reflexivity|].
  rewrite perform_bind. cbn [await perform issue execute].
  unfold pool_getConnection.
  destruct (getConnection_rejects env) as [e|]; [reflexivity|].
  rewrite perform_bind. cbn [await perform issue execute].
  unfold connection_query_SELECT. cbn [record schools AUTO_INCREMENT log].
  destruct (query_rejects env) as [e|]; [reflexivity|].
  rewrite perform_bind. reflexivity.
Qed.

(** Run one request at a time, the asynchronous handlers are the
    handlers of the two files. *)
Lemma perform_handle (h : handler) (req : request) env w :
  perform (handle h req env) env w = run h req env w.
Proof.
  unfold handle. rewrite perform_try_catch, run_try_catch.
  unfold Http.try_catch.
  assert (Htry : perform
                   match h with
                   | Index_addSchool | Controller_addSchool => Async.addSchool_try req
                   | Index_listSchools | Controller_listSchools =>
                       Async.listSchools_try req
                   end env w
                 = try_block h req env w)
    by (destruct h; first [apply perform_addSchool_try | apply perform_listSchools_try]).
  rewrite Htry. destruct (try_block h req env w) as [[resp|e] w']; [reflexivity|].
  destruct h; reflexivity.
Qed.

End OneAtATime.

Section Tables.
Import JS Http Rules Props Handlers Behaviour Async.

Lemma same_table_refl (w : world) : same_table w w.
Proof. split; reflexivity. Qed.

Lemma same_table_sym (w w' : world) : same_table w w' -> same_table w' w.
Proof. intros [H1 H2]. split; congruence. Qed.

Lemma same_table_trans (w1 w2 w3 : world) :
  same_table w1 w2 -> same_table w2 w3 -> same_table w1 w3.
Proof. intros [H1 H2] [H3 H4]. split; congruence. Qed.

Lemma same_table_record (ev : db_event) (w : world) : same_table (record ev w) w.
Proof. split; reflexivity. Qed.

(** The repository answers from the table alone. *)
Lemma execute_same_table {B} (c : call B) env (w w' : world) :
  same_table w w' ->
  fst (execute c env w) = fst (execute c env w')
  /\ same_table (snd (execute c env w)) (snd (execute c env w')).
Proof.
  intros [Hs Hc]. destruct c; cbn [execute].
  - split; [reflexivity | split; assumption].
  - destruct (query_rejects env); cbn [fst snd];
      [split; [reflexivity | split; assumption]|].
    rewrite Hs, Hc. split; [reflexivity | split; reflexivity].
  - destruct (query_rejects env); cbn [fst snd];
      (split; [congruence | split; assumption]).
Qed.

Lemma execute_getConnection {B} (c : call B) env (w w' : world) :
  touches_table c = false ->
  snd (execute c env w) = w
  /\ fst (execute c env w) = fst (execute c env w').
Proof. destruct c; try discriminate. intros _. split; reflexivity. Qed.

Lemma execute_elsewhere {B} (c : call B) env (w w0 : world) :
  touches_table c = false ->
  execute c env w0 = (fst (execute c env w), w0).
Proof. destruct c; try discriminate. intros _. reflexivity. Qed.

Lemma perform_same_table {A} (m : async A) env (w w' : world) :
  same_table w w' ->
  fst (perform m env w) = fst (perform m env w')
  /\ same_table (snd (perform m env w)) (snd (perform m env w')).
Proof.
  revert w w'. induction m as [r | B c k IH | k IH]; intros w w' H;
    cbn [perform].
  - split; [reflexivity | exact H].
  - assert (H' : same_table (record (issue c) w) (record (issue c) w'))
      by (destruct H; split; assumption).
    destruct (execute_same_table c env _ _ H') as [E1 E2].
    destruct (execute c env (record (issue c) w)) as [r w1].
    destruct (execute c env (record (issue c) w')) as [r' w1'].
    cbn [fst snd] in *. subst r'. apply IH, E2.
  - apply IH. destruct H; split; assumption.
Qed.

(** A computation that runs no query leaves the table alone, and its
    result does not depend on the datastore. *)
Lemma quiet_perform {A} (m : async A) env :
  quiet m ->
  forall w : world,
    same_table (snd (perform m env w)) w
    /\ forall w' : world, fst (perform m env w) = fst (perform m env w').
Proof.
  induction m as [r | B c k IH | k IH]; cbn [quiet perform].
  - intros _ w. split; [apply same_table_refl | reflexivity].
  - intros [Hc Hk] w.
    remember (fst (execute c env w)) as r0 eqn:Er0.
    assert (Hex : forall w0, execute c env w0 = (r0, w0))
      by (intros w0; rewrite Er0; apply execute_elsewhere, Hc).
    rewrite (Hex (record (issue c) w)).
    destruct (IH r0 (Hk r0) (record (issue c) w)) as [H1 H2]. split.
    + apply (same_table_trans _ _ _ H1), same_table_record.
    + intros w'. rewrite (Hex (record (issue c) w')).
      apply (H2 (record (issue c) w')).
  - intros Hk w. destruct (IH Hk (record Http.Release w)) as [H1 H2]. split.
    + apply (same_table_trans _ _ _ H1), same_table_record.
    + intros w'. apply H2.
Qed.

Lemma quiet_one_query {A} (m : async A) : quiet m -> one_query m.
Proof.
  induction m as [r | B c k IH | k IH]; cbn [quiet one_query]; auto.
  intros [Hc Hk]. rewrite Hc. intros r. apply IH, Hk.
Qed.

(** ** Requests in flight *)

Lemma complete_same_table (s : state) env (w w' : world) :
  same_table w w' ->
  fst (complete s env w) = fst (complete s env w')
  /\ same_table (snd (complete s env w)) (snd (complete s env w')).
Proof.
  intros H. destruct s as [m | B c k | r]; cbn [complete].
  - apply perform_same_table, H.
  - destruct (execute_same_table c env _ _ H) as [E1 E2].
    destruct (execute c env w) as [r w1], (execute c env w') as [r' w1'].
    cbn [fst snd] in *. subst r'. apply perform_same_table, E2.
  - split; [reflexivity | exact H].
Qed.

Lemma quiet_complete (s : state) env :
  quiet_state s ->
  forall w : world,
    same_table (snd (complete s env w)) w
    /\ forall w' : world, fst (complete s env w) = fst (complete s env w').
Proof.
  destruct s as [m | B c k | r]; cbn [quiet_state complete].
  - apply quiet_perform.
  - intros [Hc Hk] w.
    remember (fst (execute c env w)) as r0 eqn:Er0.
    assert (Hex : forall w0, execute c env w0 = (r0, w0))
      by (intros w0; rewrite Er0; apply execute_elsewhere, Hc).
    rewrite (Hex w).
    destruct (quiet_perform (k r0) env (Hk _) w) as [H1 H2].
    split; [exact H1|]. intros w'. rewrite (Hex w'). apply H2.
  - intros _ w. split; [apply same_table_refl | reflexivity].
Qed.

(** A step, then the rest: the whole. *)
Lemma step_complete (s : state) env (w : world) :
  complete (fst (step env s w)) env (snd (step env s w)) = complete s env w.
Proof.
  destruct s as [[r | B c k | k] | B c k | r]; cbn [step complete perform fst snd];
    try reflexivity.
  destruct (execute c env w) as [r w']. reflexivity.
Qed.

Lemma step_quiet_state (s : state) env (w : world) :
  quiet_state s -> quiet_state (fst (step env s w)).
Proof.
  destruct s as [[r | B c k | k] | B c k | r];
    cbn [step quiet_state quiet fst]; auto.
  intros [Hc Hk]. destruct (execute c env w) as [r w']. apply Hk.
Qed.

Lemma step_one_query_state (s : state) env (w : world) :
  one_query_state s -> one_query_state (fst (step env s w)).
Proof.
  destruct s as [[r | B c k | k] | B c k | r];
    cbn [step one_query_state one_query fst]; auto.
  intros H. destruct (execute c env w) as [r w']. cbn [fst one_query_state].
  destruct (touches_table c); [apply quiet_one_query, H | apply H].
Qed.

(** A request that has run its query runs no other. *)
Lemma step_at_query (s : state) env (w : world) :
  one_query_state s -> at_query s = true -> quiet_state (fst (step env s w)).
Proof.
  destruct s as [m | B c k | r]; cbn [at_query]; try discriminate.
  cbn [one_query_state step]. intros H Hc. rewrite Hc in H.
  destruct (execute c env w) as [r w']. apply H.
Qed.

(** A step other than the execution of a query touches the log only and
    does not look at the datastore. *)
Lemma step_elsewhere (s : state) env (w : world) :
  at_query s = false ->
  same_table (snd (step env s w)) w
  /\ forall w' : world, fst (step env s w) = fst (step env s w').
Proof.
  destruct s as [[r | B c k | k] | B c k | r]; cbn [at_query step fst snd];
    intros H; try (split; [first [apply same_table_refl | apply same_table_record]
                          | reflexivity]).
  destruct (execute_getConnection c env w w H) as [E1 _].
  split.
  - destruct (execute c env w) as [r w1]. cbn [fst snd] in *. subst w1.
    apply same_table_refl.
  - intros w'. destruct (execute_getConnection c env w w' H) as [_ E2].
    destruct (execute c env w) as [r w1], (execute c env w') as [r' w1'].
    cbn [fst snd] in *. subst r'. reflexivity.
Qed.

(** After such a step the request completes as before, from every
    datastore. *)
Lemma step_elsewhere_complete (s : state) env (w : world) :
  at_query s = false ->
  forall w_x : world,
    fst (complete (fst (step env s w)) env w_x) = fst (complete s env w_x)
    /\ same_table (snd (complete (fst (step env s w)) env w_x))
                  (snd (complete s env w_x)).
Proof.
  intros H w_x.
  destruct (step_elsewhere s env w H) as [_ Hs].
  destruct (step_elsewhere s env w_x H) as [Hw _].
  rewrite (Hs w_x). rewrite <- (step_complete s env w_x).
  apply complete_same_table, same_table_sym, Hw.
Qed.

End Tables.

Section OneQuery.
Import JS Http Rules Props Handlers Behaviour Async.
Context {engine : Engine}.

Lemma quiet_bind {A B} (m : async A) (k : A -> async B) :
  quiet m -> (forall a, quiet (k a)) -> quiet (Async.bind m k).
Proof.
  intros Hm Hk. induction m as [[a|e] | X c k' IH | k' IH];
    cbn [Async.bind quiet] in *; auto.
  destruct Hm as [Hc Hm]. split; [exact Hc|]. intros r. apply IH, Hm.
Qed.

Lemma one_query_bind_quiet {A B} (m : async A) (k : A -> async B) :
  quiet m -> (forall a, one_query (k a)) -> one_query (Async.bind m k).
Proof.
  intros Hm Hk. induction m as [[a|e] | X c k' IH | k' IH];
    cbn [Async.bind quiet one_query] in *; auto.
  destruct Hm as [Hc Hm]. rewrite Hc. intros r. apply IH, Hm.
Qed.

Lemma one_query_bind {A B} (m : async A) (k : A -> async B) :
  one_query m -> (forall a, quiet (k a)) -> one_query (Async.bind m k).
Proof.
  intros Hm Hk. induction m as [[a|e] | X c k' IH | k' IH];
    cbn [Async.bind one_query] in *; auto.
  - apply quiet_one_query, Hk.
  - destruct (touches_table c); intros r.
    + apply quiet_bind; [apply Hm | exact Hk].
    + apply IH, Hm.
Qed.

Lemma quiet_try_catch {A} (m : async A) (handler : error -> async A) :
  quiet m -> (forall e, quiet (handler e)) -> quiet (Async.try_catch m handler).
Proof.
  intros Hm Hh. induction m as [[a|e] | X c k' IH | k' IH];
    cbn [Async.try_catch quiet] in *; auto.
  destruct Hm as [Hc Hm]. split; [exact Hc|]. intros r. apply IH, Hm.
Qed.

Lemma one_query_try_catch {A} (m : async A) (handler : error -> async A) :
  one_query m -> (forall e, quiet (handler e)) ->
  one_query (Async.try_catch m handler).
Proof.
  intros Hm Hh. induction m as [[a|e] | X c k' IH | k' IH];
    cbn [Async.try_catch one_query] in *; auto.
  - apply quiet_one_query, Hh.
  - destruct (touches_table c); intros r.
    + apply quiet_try_catch; [apply Hm | exact Hh].
    + apply IH, Hm.
Qed.

(** Whatever the request and whatever the calls return, a handler runs
    at most one query. *)
Lemma handle_one_query (h : handler) (req : request) (env : environment) :
  one_query (handle h req env).
Proof.
  unfold handle. apply one_query_try_catch; [|intros e; exact I].
  assert (Hadd : one_query (Async.addSchool_try req)).
  { unfold Async.addSchool_try.
    apply one_query_bind_quiet; [exact I | intros errors].
    destruct (0 <? List.length errors)%nat; [exact I|].
    apply one_query_bind_quiet; [split; [reflexivity | intros r; exact I] | intros _].
    do 4 (apply one_query_bind_quiet; [exact I | intros ?]).
    apply one_query_bind; [intros r; exact I | intros insertId].
    exact I. }
  assert (Hlist : one_query (Async.listSchools_try req)).
  { unfold Async.listSchools_try.
    do 2 (apply one_query_bind_quiet; [exact I | intros ?]).
    match goal with |- context [if ?b then _ else _] => destruct b end;
      [exact I|].
    apply one_query_bind_quiet; [split; [reflexivity | intros r; exact I] | intros _].
    apply one_query_bind; [intros r; exact I | intros rows].
    exact I. }
  destruct h; assumption.
Qed.

End OneQuery.

Section Lists.

Lemma length_update {A} (i : nat) (a : A) (l : list A) :
  List.length (Async.update i a l) = List.length l.
Proof.
  revert i. induction l as [|b l IH]; intros [|i]; cbn; auto.
Qed.

Lemma nth_error_update_eq {A} (i : nat) (a : A) (l : list A) :
  (i < List.length l)%nat -> nth_error (Async.update i a l) i = Some a.
Proof.
  revert i. induction l as [|b l IH]; intros [|i] H; cbn in *; try lia;
    [reflexivity | apply IH; lia].
Qed.

Lemma nth_error_update_neq {A} (i j : nat) (a : A) (l : list A) :
  i <> j -> nth_error (Async.update i a l) j = nth_error l j.
Proof.
  revert i j. induction l as [|b l IH]; intros [|i] [|j] H; cbn; try reflexivity;
    [congruence | apply IH; congruence].
Qed.

Lemma nth_error_lt {A} (l : list A) (i : nat) (a : A) :
  nth_error l i = Some a -> (i < List.length l)%nat.
Proof. intros H. apply nth_error_Some. congruence. Qed.

End Lists.

Section Serializable.
Import JS Http Rules Props Handlers Behaviour Async.
Context {engine : Engine}.
Variable jobs : list job.
Variable w0 : world.

Lemma serial_app (order1 order2 : list nat) (w : world) :
  serial jobs (order1 ++ order2) w
  = (fst (serial jobs order1 w)
     ++ fst (serial jobs order2 (snd (serial jobs order1 w))),
     snd (serial jobs order2 (snd (serial jobs order1 w)))).
Proof.
  revert w. induction order1 as [|i order1 IH]; intros w; cbn [app serial].
  - cbn [fst snd app]. apply surjective_pairing.
  - destruct (nth_error jobs i) as [t|]; [|apply IH].
    destruct (run _ _ _ w) as [r w1]. rewrite IH.
    destruct (serial jobs order1 w1) as [rs w2]. reflexivity.
Qed.

Lemma serial_one (i : nat) (t : job) (w : world) :
  nth_error jobs i = Some t ->
  serial jobs [i] w = ([fst (run_job t w)], snd (run_job t w)).
Proof.
  intros Ht. cbn [serial]. rewrite Ht. unfold run_job.
  destruct (run _ _ _ w) as [r w1]. reflexivity.
Qed.

(** At the start no request has run its query. *)
Lemma invariant_start : invariant jobs w0 (List.map start jobs, w0) [].
Proof.
  split; cbn [fst snd serial List.length].
  - apply length_map.
  - constructor.
  - reflexivity.
  - apply same_table_refl.
  - intros k i H. destruct k; discriminate H.
  - intros i t s _ Ht Hs. rewrite (map_nth_error start i jobs Ht) in Hs.
    injection Hs as <-. split; [apply handle_one_query|].
    intros w_x. cbn [start complete]. unfold run_job.
    rewrite perform_handle. split; [reflexivity | apply same_table_refl].
Qed.

(** A request that runs its query takes its place after those that have
    run theirs; every other step changes nothing to the order. *)
Lemma invariant_step (i : nat) (cfg : list state * world) (order : list nat) :
  invariant jobs w0 cfg order ->
  exists order', invariant jobs w0 (step_at jobs i cfg) order'.
Proof.
  intros [Hlen Hnd Hresp Htab Hcom Hunc]. unfold step_at.
  destruct (nth_error jobs i) as [t|] eqn:Et;
    [|exists order; split; assumption].
  destruct (nth_error (fst cfg) i) as [s|] eqn:Es;
    [|exists order; split; assumption].
  destruct cfg as [states w]. cbn [fst snd] in *.
  pose proof (nth_error_lt _ _ _ Es) as Hi.
  pose proof (step_complete s (environment_of t) w) as Hsc.
  destruct (step (environment_of t) s w) as [s' w'] eqn:Estep. cbn [fst snd] in Hsc.
  assert (Es' : s' = fst (step (environment_of t) s w)) by (rewrite Estep; reflexivity).
  assert (Ew' : w' = snd (step (environment_of t) s w)) by (rewrite Estep; reflexivity).
  destruct (at_query s) eqn:Hq.
  - (* the query of request [i] is executed *)
    assert (Hnot : ~ In i order).
    { intros Hin. apply In_nth_error in Hin as [k Hk].
      destruct (Hcom k i Hk) as (t1 & s1 & r1 & Ht1 & Hs1 & _ & [Hquiet _]).
      rewrite Es in Hs1. injection Hs1 as <-.
      destruct s as [m | B c k0 | r]; cbn [at_query] in Hq; try discriminate.
      cbn [quiet_state] in Hquiet. destruct Hquiet. congruence. }
    destruct (Hunc i t s Hnot Et Es) as [Hone Hrun].
    assert (Hquiet : quiet_state s')
      by (rewrite Es'; apply step_at_query; assumption).
    set (W := snd (serial jobs order w0)) in *.
    set (R := fst (serial jobs order w0)) in *.
    assert (Hserial : serial jobs (order ++ [i]) w0
                      = (R ++ [fst (run_job t W)], snd (run_job t W))).
    { rewrite serial_app. fold W R. rewrite (serial_one i t W Et). reflexivity. }
    destruct (Hrun W) as [Hr1 Hr2].
    destruct (complete_same_table s (environment_of t) W w Htab) as [Hc1 Hc2].
    destruct (quiet_complete s' (environment_of t) Hquiet w') as [Hq1 Hq2].
    exists (order ++ [i]). split; cbn [fst snd]; rewrite ?Hserial; cbn [fst snd].
    + rewrite length_update. exact Hlen.
    + apply NoDup_app; [exact Hnd | repeat constructor; intros [] |].
      intros a Ha [<-|[]]. contradiction.
    + rewrite !length_app. cbn [List.length]. lia.
    + apply (same_table_trans _ _ _ (same_table_sym _ _ Hr2)).
      apply (same_table_trans _ _ _ Hc2). rewrite <- Hsc. exact Hq1.
    + intros k j Hk.
      destruct (Nat.lt_ge_cases k (List.length order)) as [Hlt | Hge].
      * rewrite nth_error_app1 in Hk by exact Hlt.
        destruct (Hcom k j Hk) as (t1 & s1 & r1 & Ht1 & Hs1 & Hr & Hc).
        exists t1, s1, r1. split; [exact Ht1|].
        assert (j <> i) by (intros ->; apply Hnot, (nth_error_In _ _ Hk)).
        split; [rewrite nth_error_update_neq by congruence; exact Hs1|].
        split; [|exact Hc].
        rewrite nth_error_app1 by (apply (nth_error_lt _ _ _ Hr)). exact Hr.
      * rewrite nth_error_app2 in Hk by exact Hge.
        destruct (k - List.length order)%nat as [|d] eqn:Ed;
          [|destruct d; discriminate Hk].
        injection Hk as <-.
        exists t, s', (fst (run_job t W)). split; [exact Et|].
        split; [apply nth_error_update_eq, Hi|]. split.
        -- rewrite nth_error_app2 by lia. fold R in Hresp.
           replace (k - List.length R)%nat with 0%nat by lia. reflexivity.
        -- split; [exact Hquiet|]. intros w_x.
           rewrite <- (Hq2 w_x), Hsc, <- Hc1. exact Hr1.
    + intros j t1 s1 Hj Ht1 Hs1.
      assert (j <> i) by (intros ->; apply Hj, in_or_app; right; left; reflexivity).
      rewrite nth_error_update_neq in Hs1 by congruence.
      apply (Hunc j t1 s1); try assumption.
      intros Hin. apply Hj, in_or_app. left. exact Hin.
  - (* any other step *)
    destruct (step_elsewhere s (environment_of t) w Hq) as [Hw _].
    pose proof (step_elsewhere_complete s (environment_of t) w Hq) as Hcomplete.
    rewrite <- Es' in Hcomplete. rewrite <- Ew' in Hw.
    exists order. split; cbn [fst snd].
    + rewrite length_update. exact Hlen.
    + exact Hnd.
    + exact Hresp.
    + apply (same_table_trans _ _ _ Htab), same_table_sym, Hw.
    + intros k j Hk.
      destruct (Hcom k j Hk) as (t1 & s1 & r1 & Ht1 & Hs1 & Hr & [Hquiet Hc]).
      destruct (Nat.eq_dec j i) as [-> | Hne].
      * rewrite Et in Ht1. injection Ht1 as <-.
        rewrite Es in Hs1. injection Hs1 as <-.
        exists t, s', r1. split; [exact Et|].
        split; [apply nth_error_update_eq, Hi|]. split; [exact Hr|].
        split; [rewrite Es'; apply step_quiet_state, Hquiet|].
        intros w_x. destruct (Hcomplete w_x) as [E _].
        rewrite E. apply Hc.
      * exists t1, s1, r1. split; [exact Ht1|].
        split; [rewrite nth_error_update_neq by congruence; exact Hs1|].
        split; [exact Hr | split; assumption].
    + intros j t1 s1 Hj Ht1 Hs1.
      destruct (Nat.eq_dec j i) as [-> | Hne].
      * rewrite Et in Ht1. injection Ht1 as <-.
        rewrite nth_error_update_eq in Hs1 by exact Hi. injection Hs1 as <-.
        destruct (Hunc i t s Hj Et Es) as [Hone Hrun].
        split; [rewrite Es'; apply step_one_query_state, Hone|].
        intros w_x. destruct (Hcomplete w_x) as [E1 E2].
        destruct (Hrun w_x) as [R1 R2]. split.
        -- rewrite E1. exact R1.
        -- apply (same_table_trans _ _ _ E2), R2.
      * rewrite nth_error_update_neq in Hs1 by congruence.
        apply (Hunc j t1 s1); assumption.
Qed.

Lemma invariant_interleave (schedule : list nat) (cfg : list state * world)
    (order : list nat) :
  invariant jobs w0 cfg order ->
  exists order', invariant jobs w0 (interleave jobs schedule cfg) order'.
Proof.
  revert cfg order. induction schedule as [|i schedule IH]; intros cfg order H.
  - exists order. exact H.
  - cbn [interleave fold_left].
    destruct (invariant_step i cfg order H) as [order' H'].
    apply (IH _ order' H').
Qed.

End Serializable.

Section Serialized.
Import JS Http Rules Props Handlers Behaviour Async Examples.

Lemma others_spec (jobs : list job) (order : list nat) (i : nat) :
  In i (others jobs order) <-> (i < List.length jobs)%nat /\ ~ In i order.
Proof.
  unfold others. rewrite filter_In, in_seq, negb_true_iff.
  rewrite <- not_true_iff_false, existsb_exists. split.
  - intros [H1 H2]. split; [lia|]. intros Hin. apply H2. exists i.
    split; [exact Hin | apply Nat.eqb_refl].
  - intros [H1 H2]. split; [lia|]. intros (j & Hj & E).
    apply Nat.eqb_eq in E. subst j. contradiction.
Qed.

Lemma order_then_others (jobs : list job) (order : list nat) :
  NoDup order ->
  (forall i, In i order -> (i < List.length jobs)%nat) ->
  Permutation (order ++ others jobs order) (seq 0 (List.length jobs)).
Proof.
  intros Hnd Hlt. apply NoDup_Permutation.
  - apply NoDup_app; [exact Hnd | apply NoDup_filter, seq_NoDup |].
    intros i Hi Ho. apply others_spec in Ho. tauto.
  - apply seq_NoDup.
  - intros i. rewrite in_app_iff, others_spec, in_seq. split.
    + intros [H | [H _]]; [apply Hlt in H|]; lia.
    + intros H. destruct (in_dec Nat.eq_dec i order); [left | right; split];
        try assumption. lia.
Qed.

Section WithJobs.
Context {engine : Engine}.
Variable jobs : list job.
Variable w0 : world.

(** The requests that ran no query are answered as when handled after
    the others, in any order, and leave the table alone. *)
Lemma serial_others (cfg : list state * world) (order : list nat) :
  invariant jobs w0 cfg order ->
  Forall is_finished (fst cfg) ->
  forall (l : list nat) (W : world),
    (forall i, In i l -> (i < List.length jobs)%nat /\ ~ In i order) ->
    same_table W (snd cfg) ->
    same_table (snd (serial jobs l W)) (snd cfg)
    /\ List.map (fun i => nth_error (fst cfg) i) l
       = List.map (fun r => Some (Finished r)) (fst (serial jobs l W)).
Proof.
  intros Hinv Hfin. induction l as [|i l IH]; intros W Hl HW.
  - split; [exact HW | reflexivity].
  - destruct (Hl i (or_introl eq_refl)) as [Hi Hnot].
    destruct (nth_error jobs i) as [t|] eqn:Et;
      [|apply nth_error_None in Et; lia].
    destruct (nth_error (fst cfg) i) as [s|] eqn:Es;
      [|apply nth_error_None in Es; rewrite (inv_length _ _ _ _ Hinv) in Es; lia].
    destruct (inv_uncommitted _ _ _ _ Hinv i t s Hnot Et Es) as [_ Hrun].
    rewrite Forall_forall in Hfin.
    pose proof (Hfin s (nth_error_In _ _ Es)) as Hs.
    destruct s as [m | B c k | r]; try contradiction.
    destruct (Hrun W) as [E1 E2]. cbn [complete fst snd] in E1, E2.
    cbn [serial List.map]. rewrite Et, Es. fold (run_job t W).
    destruct (run_job t W) as [r' W1]. cbn [fst snd] in E1, E2. subst r'.
    destruct (IH W1) as [H1 H2].
    + intros j Hj. apply Hl. right. exact Hj.
    + apply (same_table_trans _ _ _ (same_table_sym _ _ E2)), HW.
    + destruct (serial jobs l W1) as [rs W2]. cbn [fst snd] in *.
      split; [exact H1|]. rewrite H2. reflexivity.
Qed.

(** The requests that ran their query are answered as when handled one
    at a time in the order of their queries. *)
Lemma serial_committed (cfg : list state * world) (order : list nat) :
  invariant jobs w0 cfg order ->
  Forall is_finished (fst cfg) ->
  List.map (fun i => nth_error (fst cfg) i) order
  = List.map (fun r => Some (Finished r)) (fst (serial jobs order w0)).
Proof.
  intros Hinv Hfin. apply nth_error_ext. intros k.
  rewrite !nth_error_map.
  destruct (nth_error order k) as [i|] eqn:Ek.
  - destruct (inv_committed _ _ _ _ Hinv k i Ek)
      as (t & s & r & Ht & Hs & Hr & [_ Hc]).
    cbn [option_map]. rewrite Hr, Hs. cbn [option_map].
    rewrite Forall_forall in Hfin.
    pose proof (Hfin s (nth_error_In _ _ Hs)) as Hf.
    destruct s as [m | B c k0 | r']; try contradiction.
    rewrite <- (Hc w0). reflexivity.
  - apply nth_error_None in Ek.
    rewrite <- (inv_responses _ _ _ _ Hinv) in Ek.
    apply nth_error_None in Ek. rewrite Ek. reflexivity.
Qed.

End WithJobs.

(** X18: concurrent requests are serializable.  Take any number of
    requests, each with its own handler and environment, and let their
    handlers run interleaved in any way at their [await]s: each runs up
    to an [await] and makes the call, and later, the call settled, goes
    on.  When all have answered, there is an order of the requests such
    that handling them one at a time in that order, each from start to
    end, gives every request the response it got and leaves the table
    (rows and counter) in the state it is in.  The handlers share nothing
    but the table, and each touches it in a single query. *)
Theorem concurrent_requests_are_serializable
    (engine : Engine) (jobs : list job) (schedule : list nat) (w : world) :
  let final := interleave jobs schedule (List.map start jobs, w) in
  Forall is_finished (fst final) ->
  exists order : list nat,
    Permutation order (seq 0 (List.length jobs))
    /\ let one_by_one := serial jobs order w in
       List.map (fun i => nth_error (fst final) i) order
       = List.map (fun r => Some (Finished r)) (fst one_by_one)
       /\ schools (snd final) = schools (snd one_by_one)
       /\ AUTO_INCREMENT (snd final) = AUTO_INCREMENT (snd one_by_one).
Proof.
  intros final Hfin.
  destruct (invariant_interleave jobs w schedule _ [] (invariant_start jobs w))
    as [order Hinv].
  fold final in Hinv.
  exists (order ++ others jobs order). split.
  - apply order_then_others; [apply (inv_NoDup _ _ _ _ Hinv)|].
    intros i Hi. apply In_nth_error in Hi as [k Hk].
    destruct (inv_committed _ _ _ _ Hinv k i Hk) as (t & _ & _ & Ht & _).
    apply (nth_error_lt _ _ _ Ht).
  - cbn zeta. rewrite serial_app. cbn [fst snd].
    destruct (serial_others jobs w final order Hinv Hfin (others jobs order)
                (snd (serial jobs order w))) as [[H1 H2] H3].
    + intros i Hi. apply others_spec, Hi.
    + apply (inv_table _ _ _ _ Hinv).
    + rewrite !map_app, (serial_committed jobs w final order Hinv Hfin), H3.
      split; [reflexivity|]. split; congruence.
Qed.

Lemma concurrent_requests_are_serializable_witness :
  let jobs :=
    [ {| handler_of := Index_addSchool; request_of := post delhi_school;
         environment_of := production |};
      {| handler_of := Controller_listSchools; request_of := get "18.52" "73.85";
         environment_of := production |};
      {| handler_of := Controller_addSchool; request_of := post equator_school;
         environment_of := development_database_down |} ] in
  let schedule := [1; 0; 2; 1; 0; 0; 2; 1; 0; 1; 1; 0; 2; 0; 1]%nat in
  let final :=
    interleave jobs schedule
      (List.map (start (engine := Series.engine)) jobs, three_schools) in
  Forall is_finished (fst final)
  /\ exists order : list nat,
       Permutation order [0; 1; 2]%nat
       /\ let one_by_one := serial (engine := Series.engine) jobs order three_schools in
          List.map (fun i => nth_error (fst final) i) order
          = List.map (fun r => Some (Finished r)) (fst one_by_one)
          /\ schools (snd final) = schools (snd one_by_one)
          /\ AUTO_INCREMENT (snd final) = AUTO_INCREMENT (snd one_by_one).
Proof.
  intros jobs schedule final.
  assert (Hfin : Forall is_finished (fst final))
    by (vm_compute; repeat constructor).
  split; [exact Hfin|].
  apply (concurrent_requests_are_serializable Series.engine jobs schedule
           three_schools Hfin).
Defined.

End Serialized.

(* ================================================================== *)
(** * The same record sent twice *)
(* ================================================================== *)

Section Repeated.
Import JS Http Rules Props Handlers Behaviour Examples.

(** X19: add-school does not recognise a school it has stored.  When
    the same valid record is sent twice (to either entry point, the
    repository answering), both requests are answered 201, with
    consecutive identifiers, and the table ends with two rows that
    differ in their [id] only: nothing in the code, nor in the table it
    creates, keeps a school from being stored twice. *)
Theorem repeated_record_is_stored_twice
    (engine : Engine) (first second : handler) (req : request)
    (env : environment) (w : world) :
  adds first = true -> adds second = true ->
  Index.validateSchoolInput (body req) = Ok [] ->
  repository_up env ->
  exists (row : school) (w1 w2 : world),
    run first req env w = (Ok (created (id row)), w1)
    /\ run second req env w1 = (Ok (created (id row + 1)), w2)
    /\ schools w2
       = schools w
         ++ [ row;
              {| id := id row + 1; name := name row; address := address row;
                 latitude := latitude row; longitude := longitude row |} ]
    /\ id row = AUTO_INCREMENT w.
Proof.
  intros H1 H2 Hv Hup.
  destruct (addSchool_created engine first req env w H1 Hv Hup)
    as (n & a & En & Ea & Hfirst).
  set (row := new_row w (body req) n a) in *.
  set (w1 := {| schools := schools w ++ [row];
                AUTO_INCREMENT := AUTO_INCREMENT w + 1;
                log := log w ++ [GetConnection; insert_of row; Release] |}) in *.
  destruct (addSchool_created engine second req env w1 H2 Hv Hup)
    as (n' & a' & En' & Ea' & Hsecond).
  assert (n' = n) by congruence. assert (a' = a) by congruence. subst n' a'.
  exists row, w1. eexists. split; [exact Hfirst|]. split; [exact Hsecond|].
  split; [|reflexivity].
  cbn [schools w1]. rewrite <- app_assoc. reflexivity.
Qed.

Lemma repeated_record_is_stored_twice_witness :
  exists (row : school) (w1 w2 : world),
    run (engine := Series.engine) Index_addSchool (post delhi_school) production
      three_schools
    = (Ok (created (id row)), w1)
    /\ run (engine := Series.engine) Controller_addSchool (post delhi_school) production w1
       = (Ok (created (id row + 1)), w2)
    /\ schools w2
       = schools three_schools
         ++ [ row;
              {| id := id row + 1; name := name row; address := address row;
                 latitude := latitude row; longitude := longitude row |} ]
    /\ id row = AUTO_INCREMENT three_schools.
Proof.
  apply (repeated_record_is_stored_twice Series.engine Index_addSchool
           Controller_addSchool (post delhi_school) production three_schools).
  - reflexivity.
  - reflexivity.
  - vm_compute. reflexivity.
  - split; reflexivity.
Defined.

End Repeated.

(* ================================================================== *)
(** * Input that cannot be read *)
(* ================================================================== *)

Section Unreadable.
Import JS Http Rules Props Handlers Behaviour Examples.

Lemma log_grows (l calls : list db_event) : l ++ calls = l -> calls = [].
Proof.
  intros H. apply (app_inv_head l). rewrite app_nil_r. exact H.
Qed.

Lemma validateSchoolInput_throws_iff (data : value) :
  (exists e, Index.validateSchoolInput data = Throw e)
  <-> is_nullish data
      || ToString_throws (property data (str "latitude"))
      || ToString_throws (property data (str "longitude")) = true.
Proof.
  destruct (is_nullish data) eqn:Hn; cbn [orb].
  - split; [reflexivity|]. intros _. apply validateSchoolInput_nullish, Hn.
  - rewrite (validateSchoolInput_rules data Hn).
    destruct (_ || _); split; try reflexivity.
    + intros _. eexists. reflexivity.
    + intros [e He]. discriminate He.
    + discriminate.
Qed.

Lemma query_point_throws_iff (req : request) :
  (exists e, query_point req = Throw e)
  <-> is_nullish (query req)
      || ToString_throws (property (query req) (str "latitude"))
      || ToString_throws (property (query req) (str "longitude")) = true.
Proof.
  destruct (is_nullish (query req)) eqn:Hn; cbn [orb].
  - split; [reflexivity|]. intros _. apply query_point_nullish, Hn.
  - rewrite (query_point_eval req Hn).
    destruct (_ || _); split; try reflexivity.
    + intros _. eexists. reflexivity.
    + intros [e He]. discriminate He.
    + discriminate.
Qed.

(** X20: the requests that are answered 500 for what they carry.  A
    handler answers 500 without having made a repository call exactly
    when the object it reads (the body for add-school, the query for
    list-schools) is [undefined] or [null], or holds a latitude or a
    longitude that [parseFloat] cannot convert to a string: an object
    with an entry [toString], or an array that holds one.  Then the
    datastore is left as it was; for add-school no message of the
    validator is sent, whatever the other fields are.  Each of the four
    handlers, under every environment. *)
Theorem unreadable_input_is_answered_500
    (engine : Engine) (h : handler) (req : request) (env : environment) (w : world) :
  let input := input_of h req in
  let unreadable :=
    is_nullish input
    || ToString_throws (property input (str "latitude"))
    || ToString_throws (property input (str "longitude")) in
  exists (resp : response) (w' : world),
    run h req env w = (Ok resp, w')
    /\ (status resp = 500 /\ log w' = log w <-> unreadable = true)
    /\ (unreadable = true ->
        w' = w /\ exists detail : option jsstring, resp = server_error detail).
Proof.
  intros input unreadable. unfold unreadable, input, input_of.
  destruct (adds h) eqn:Hh.
  - destruct (addSchool_outcome h req env w Hh) as (resp & w' & Hrun & Hout).
    exists resp, w'. split; [exact Hrun|].
    rewrite <- validateSchoolInput_throws_iff.
    destruct Hout as [e d H | errors H Hne | e d H Hc | n a e d H _ _ Hc Hq
                     | n a H _ _ Hup].
    + split; [split; eauto|]. intros _. eauto.
    + split; [split; [intros [S _]; discriminate S|]|];
        intros [e He]; congruence.
    + split; [split; [intros [_ L]; apply log_grows in L; discriminate L|]|];
        intros [e' He]; congruence.
    + split; [split; [intros [_ L]|]|]; try (intros [e' He]; congruence).
      cbn [record log] in L. rewrite <- app_assoc in L.
      apply log_grows in L. discriminate L.
    + split; [split; [intros [S _]; discriminate S|]|];
        intros [e He]; congruence.
  - destruct (listSchools_outcome h req env w Hh) as (resp & w' & Hrun & Hout).
    exists resp, w'. split; [exact Hrun|].
    rewrite <- query_point_throws_iff.
    destruct Hout as [e d H | lat lon H Hi | lat lon e d H Hi Hc
                     | lat lon e d H Hi Hc Hq | lat lon H Hi Hup].
    + split; [split; eauto|]. intros _. eauto.
    + split; [split; [intros [S _]; discriminate S|]|];
        intros [e He]; congruence.
    + split; [split; [intros [_ L]; apply log_grows in L; discriminate L|]|];
        intros [e' He]; congruence.
    + split; [split; [intros [_ L]|]|]; try (intros [e' He]; congruence).
      cbn [record log] in L. rewrite <- app_assoc in L.
      apply log_grows in L. discriminate L.
    + split; [split; [intros [S _]; discriminate S|]|];
        intros [e He]; congruence.
Qed.

(** A latitude that is an array with an unconvertible element: the
    name is missing too, and add-school answers 500, not 400. *)
Lemma unreadable_input_is_answered_500_witness :
  let req :=
    post (VObject [ (str "latitude",
                     VArray [VNumber (num 5); unconvertible]) ]) in
  exists (resp : response) (w' : world),
    run (engine := Series.engine) Controller_addSchool req production three_schools
    = (Ok resp, w')
    /\ (status resp = 500 /\ log w' = log three_schools <-> true = true)
    /\ (true = true ->
        w' = three_schools
        /\ exists detail : option jsstring, resp = server_error detail).
Proof.
  intros req.
  exact (unreadable_input_is_answered_500 Series.engine Controller_addSchool req
           production three_schools).
Defined.

End Unreadable.
